(** * Receipt extraction pipeline of [backend/routes/receipts.js]

    A shallow embedding of the text-to-transaction helpers of the receipts
    router ([extractReceiptData], [suggestCategory], the history-mode test
    of the PDF route, [parseTransactionHistory], the two upload handlers)
    and of the category validator of [backend/models/Transaction.js].

    Conventions of the model.
    - A JavaScript string is a [string]: a sequence of code units below 256.
    - A JavaScript number is [NaN] or an exact rational kept in lowest
      terms; rounding to binary64 and the infinities are outside the model.
    - The regular expressions of the source are values of [regex], run by a
      backtracking matcher that follows the priority order of ECMAScript.
    - [Date], [Tesseract.recognize], [fetch] and [pdf-parse] belong to the
      host and are the fields of the class [Host]. *)

From Stdlib Require Import Bool Arith List Lia ZArith QArith Qreduction.
From Stdlib Require Import Ascii String.
From Stdlib Require Import Permutation Qround.
Import ListNotations.

Close Scope Q_scope.
Open Scope string_scope.
Open Scope list_scope.
Open Scope nat_scope.

(** ** Characters and strings *)

Module Js.

Definition code (a : ascii) : N := N_of_ascii a.

Definition inRange (lo hi : N) (a : ascii) : bool :=
  ((lo <=? code a) && (code a <=? hi))%N.

Definition isDigit (a : ascii) : bool := inRange 48 57 a.

Definition isUpper (a : ascii) : bool := inRange 65 90 a.

Definition isLower (a : ascii) : bool := inRange 97 122 a.

(** [\w] : letters, digits and the underscore. *)
Definition isWord (a : ascii) : bool :=
  isDigit a || isUpper a || isLower a || (code a =? 95)%N.

(** White space and line terminators below 256: TAB, LF, VT, FF, CR, SP and
    NBSP.  [String.prototype.trim] and [\s] use the same set. *)
Definition isSpace (a : ascii) : bool :=
  inRange 9 13 a || (code a =? 32)%N || (code a =? 160)%N.

(** Line terminators, which [.] does not match. *)
Definition isLineTerminator (a : ascii) : bool :=
  (code a =? 10)%N || (code a =? 13)%N.

(** Letters of the Latin-1 supplement that have a lower-case partner 32
    code points above: U+00C0..U+00DE without the multiplication sign. *)
Definition isUpperLatin1 (a : ascii) : bool :=
  inRange 192 222 a && negb (code a =? 215)%N.

Definition isLowerLatin1 (a : ascii) : bool :=
  inRange 224 254 a && negb (code a =? 247)%N.

Definition lowerChar (a : ascii) : ascii :=
  if isUpper a || isUpperLatin1 a then ascii_of_N (code a + 32) else a.

(** [Canonicalize] of a case-insensitive, non-unicode regular expression:
    the upper-case partner when it is a single code unit of the same
    range.  The micro sign, sharp s and y-diaeresis have none below 256. *)
Definition canonChar (a : ascii) : ascii :=
  if isLower a || isLowerLatin1 a then ascii_of_N (code a - 32) else a.

Fixpoint toLowerCase (s : string) : string :=
  match s with
  | EmptyString => EmptyString
  | String a r => String (lowerChar a) (toLowerCase r)
  end.

Fixpoint trimStart (s : string) : string :=
  match s with
  | EmptyString => EmptyString
  | String a r => if isSpace a then trimStart r else s
  end.

Fixpoint trimEnd (s : string) : string :=
  match s with
  | EmptyString => EmptyString
  | String a r =>
      match trimEnd r with
      | EmptyString => if isSpace a then EmptyString else String a EmptyString
      | r' => String a r'
      end
  end.

Definition trim (s : string) : string := trimEnd (trimStart s).

(** [s.split(sep)] for a one-character separator. *)
Fixpoint split (sep : ascii) (s : string) : list string :=
  match s with
  | EmptyString => [EmptyString]
  | String a r =>
      if Ascii.eqb a sep then EmptyString :: split sep r
      else match split sep r with
           | h :: t => String a h :: t
           | [] => [String a EmptyString]
           end
  end.

(** [s.includes(k)] *)
Fixpoint includes (s k : string) : bool :=
  String.prefix k s ||
  match s with
  | EmptyString => false
  | String _ r => includes r k
  end.

Definition LF : ascii := ascii_of_N 10.

End Js.

(** ** Numbers *)

Inductive number : Type :=
| NaN
| Num (q : Q).

Module Number.

Definition num (q : Q) : number := Num (Qred q).

Definition zero : number := Num 0.

(** [a > b]; false as soon as one side is [NaN]. *)
Definition gt (a b : number) : bool :=
  match a, b with
  | Num x, Num y => negb (Qle_bool x y)
  | _, _ => false
  end.

(** [a + b], exact: binary64 rounds each sum, so the value of a sum of
    several numbers may depend on their order there; no statement rests
    on the order of additions. *)
Definition add (a b : number) : number :=
  match a, b with
  | Num x, Num y => num (x + y)
  | _, _ => NaN
  end.

(** [ToBoolean]: [NaN] and [0] are falsy. *)
Definition truthy (a : number) : bool :=
  match a with
  | NaN => false
  | Num x => negb (Qeq_bool x 0)
  end.

(** [a === b] *)
Definition strictEq (a b : number) : bool :=
  match a, b with
  | Num x, Num y => Qeq_bool x y
  | _, _ => false
  end.

(** [a || b] on numbers. *)
Definition orElse (a b : number) : number := if truthy a then a else b.

Definition digitVal (a : ascii) : Z := Z.of_N (Js.code a) - 48.

(** The leading run of decimal digits of [s], read as an integer on top of
    [acc]; returns the value, the number of digits and the rest. *)
Fixpoint digits (s : string) (acc : Z) (n : nat) : Z * nat * string :=
  match s with
  | String a r =>
      if Js.isDigit a then digits r (10 * acc + digitVal a)%Z (S n)
      else (acc, n, s)
  | EmptyString => (acc, n, s)
  end.

(** An unsigned decimal literal at the head of [s]: digits, then an
    optional point and digits; [NaN] when there is no digit at all. *)
Definition unsignedDecimal (s : string) : number :=
  let '(ip, ni, r) := digits s 0%Z 0 in
  let integer := match ni with O => NaN | _ => num (inject_Z ip) end in
  match r with
  | String c r' =>
      if Ascii.eqb c "." then
        let '(fp, nf, _) := digits r' 0%Z 0 in
        match ni, nf with
        | O, O => NaN
        | _, _ => num (inject_Z ip + inject_Z fp / inject_Z (10 ^ Z.of_nat nf))
        end
      else integer
  | EmptyString => integer
  end.

Definition neg (a : number) : number :=
  match a with
  | NaN => NaN
  | Num x => num (- x)
  end.

(** [parseFloat]: leading white space, an optional sign, the longest
    decimal literal.  Exponents and [Infinity] are left out: no string the
    router passes contains a letter. *)
Definition parseFloat (s : string) : number :=
  match Js.trimStart s with
  | String c r =>
      if Ascii.eqb c "-" then neg (unsignedDecimal r)
      else if Ascii.eqb c "+" then unsignedDecimal r
      else unsignedDecimal (String c r)
  | EmptyString => NaN
  end.

End Number.

(** ** Regular expressions *)

Module Regex.

(** What one position of a pattern accepts. *)
Inductive atom : Type :=
| Chr (a : ascii)   (* a literal character *)
| Digit             (* \d *)
| Space             (* \s *)
| Word              (* \w *)
| Dot.              (* .  *)

(** A character class [[...]]; a bare atom is the class of that atom. *)
Definition cclass : Type := list atom.

(** A quantified class: [c{lo,hi}], greedy or lazy. *)
Record rep : Type := Rep {
  cls : cclass;
  lo : nat;
  hi : option nat;
  greedy : bool
}.

(** A pattern is a sequence of quantified classes, some runs of which are
    enclosed in a capturing group. *)
Inductive node : Type :=
| One (r : rep)
| Group (body : list rep).

Record regex : Type := Regex {
  nodes : list node;
  ignoreCase : bool
}.

Definition atomMatch (i : bool) (t : atom) (a : ascii) : bool :=
  match t with
  | Chr c => if i then Ascii.eqb (Js.canonChar c) (Js.canonChar a)
             else Ascii.eqb c a
  | Digit => Js.isDigit a
  | Space => Js.isSpace a
  | Word => Js.isWord a
  | Dot => negb (Js.isLineTerminator a)
  end.

Definition classMatch (i : bool) (c : cclass) (a : ascii) : bool :=
  existsb (fun t => atomMatch i t a) c.

Definition below (n : nat) (h : option nat) : bool :=
  match h with
  | None => true
  | Some m => (n <? m)%nat
  end.

(** [iter i r k n s]: [n] characters of the class of [r] are consumed
    already.  A greedy quantifier tries one more character before it
    tries the rest [k] of the pattern; a lazy one the other way round.
    The result is what [r] consumed from [s] on, with what [k] returned. *)
Fixpoint iter (i : bool) (r : rep) (k : string -> option (list string))
    (n : nat) (s : string) {struct s} : option (string * list string) :=
  let stop (_ : unit) :=
    if (lo r <=? n)%nat then
      match k s with
      | Some segs => Some (EmptyString, segs)
      | None => None
      end
    else None in
  let more (_ : unit) :=
    match s with
    | String a s' =>
        if below n (hi r) && classMatch i (cls r) a then
          match iter i r k (S n) s' with
          | Some (seg, segs) => Some (String a seg, segs)
          | None => None
          end
        else None
    | EmptyString => None
    end in
  if greedy r then
    match more tt with
    | Some x => Some x
    | None => stop tt
    end
  else
    match stop tt with
    | Some x => Some x
    | None => more tt
    end.

(** The first way, in priority order, of matching the sequence [rs] at the
    head of [s]: the substring each quantified class consumed. *)
Fixpoint run (i : bool) (rs : list rep) (s : string) : option (list string) :=
  match rs with
  | [] => Some []
  | r :: rs' =>
      match iter i r (run i rs') 0 s with
      | Some (seg, segs) => Some (seg :: segs)
      | None => None
      end
  end.

Definition repsOf (n : node) : list rep :=
  match n with
  | One r => [r]
  | Group body => body
  end.

Definition flatten (ns : list node) : list rep := flat_map repsOf ns.

Definition concat (segs : list string) : string :=
  fold_right String.append EmptyString segs.

(** The text of each capturing group, from the substrings of [run]. *)
Fixpoint captures (ns : list node) (segs : list string) : list string :=
  match ns with
  | [] => []
  | One _ :: ns' => captures ns' (tl segs)
  | Group body :: ns' =>
      concat (firstn (List.length body) segs)
        :: captures ns' (skipn (List.length body) segs)
  end.

(** The array [String.prototype.match] returns for a pattern without the
    [g] flag: [matched] is element 0, [groups] are elements 1, 2, ... *)
Record matchArray : Type := MatchArray {
  index : nat;
  matched : string;
  groups : list string
}.

(** Element [n] of the match array, for [n >= 1]. *)
Definition group (n : nat) (m : matchArray) : string :=
  nth (n - 1) (groups m) EmptyString.

(** The leftmost match: start positions are tried from left to right. *)
Fixpoint search (re : regex) (s : string) (idx : nat) : option matchArray :=
  match run (ignoreCase re) (flatten (nodes re)) s with
  | Some segs => Some (MatchArray idx (concat segs) (captures (nodes re) segs))
  | None =>
      match s with
      | EmptyString => None
      | String _ s' => search re s' (S idx)
      end
  end.

(** [s.match(re)] *)
Definition jsMatch (s : string) (re : regex) : option matchArray :=
  search re s 0.

(** *** Writing patterns *)

Definition one (c : cclass) : node := One (Rep c 1 (Some 1) true).
Definition opt (c : cclass) : node := One (Rep c 0 (Some 1) true).
Definition star (c : cclass) : node := One (Rep c 0 None true).
Definition plus (c : cclass) : node := One (Rep c 1 None true).

Definition rOne (c : cclass) : rep := Rep c 1 (Some 1) true.
Definition rOpt (c : cclass) : rep := Rep c 0 (Some 1) true.
Definition rStar (c : cclass) : rep := Rep c 0 None true.
Definition rPlus (c : cclass) : rep := Rep c 1 None true.
Definition rPlusLazy (c : cclass) : rep := Rep c 1 None false.
Definition rRange (c : cclass) (l h : nat) : rep := Rep c l (Some h) true.

(** A literal word, one position per character. *)
Fixpoint lit (w : string) : list node :=
  match w with
  | EmptyString => []
  | String a r => one [Chr a] :: lit r
  end.

End Regex.

(** ** The host *)

(** What the router takes from its runtime and its libraries.  A rejected
    promise or a thrown exception is [None]. *)
Class Host : Type := {
  Date : Type;
  (** [new Date(str)]; [None] when [isNaN(d.getTime())]. *)
  parseDate : string -> option Date;
  (** [new Date()] *)
  now : Date;
  (** [Tesseract.recognize(path, 'eng', ...)], its [data.text]. *)
  recognize : string -> option string;
  Buffer : Type;
  (** [fetch(path)] followed by [response.arrayBuffer()]. *)
  fetch : string -> option Buffer;
  (** [pdfParse(Buffer.from(buffer))], its [text]. *)
  pdfParse : Buffer -> option string
}.

(** ** [backend/models/Transaction.js] *)

Module Transaction.

(** [categories[type] || []], for the keys the object itself has.  A
    [type] that names a member the object inherits ("constructor",
    "toString" and the like), for which the source returns that member,
    is outside the model: the statements use this function at "income"
    and "expense" only. *)
Definition getCategoriesByType (type : string) : list string :=
  if String.eqb type "income" then
    ["salary"; "freelance"; "business"; "investment"; "rental"; "gift";
     "others"]
  else if String.eqb type "expense" then
    ["food-dining"; "transportation"; "shopping"; "entertainment";
     "bills-utilities"; "healthcare"; "education"; "travel"; "groceries";
     "gas"; "others"]
  else [].

(** The validator of the [category] path: [validCategories.includes(value)]
    with [this.type] as [type]. *)
Definition validator (type value : string) : bool :=
  let validCategories := getCategoriesByType type in
  existsb (String.eqb value) validCategories.

End Transaction.

(** ** [backend/routes/receipts.js] *)

Module Receipts.

Import Js Number Regex.

(** [(\d+\.?\d* )], the decimal number every pattern captures.  In these
    comments a blank separates the star from the closing parenthesis. *)
Definition decimal : node :=
  Group [rPlus [Digit]; rOpt [Chr "."]; rStar [Digit]].

Definition totalPatterns : list regex := [
  (* /total[:\s]*\$?(\d+\.?\d* )/i *)
  Regex (lit "total" ++ [star [Chr ":"; Space]; opt [Chr "$"]; decimal]) true;
  (* /amount[:\s]*\$?(\d+\.?\d* )/i *)
  Regex (lit "amount" ++ [star [Chr ":"; Space]; opt [Chr "$"]; decimal]) true;
  (* /sum[:\s]*\$?(\d+\.?\d* )/i *)
  Regex (lit "sum" ++ [star [Chr ":"; Space]; opt [Chr "$"]; decimal]) true
].

Definition taxPatterns : list regex := [
  (* /tax[:\s]*\$?(\d+\.?\d* )/i *)
  Regex (lit "tax" ++ [star [Chr ":"; Space]; opt [Chr "$"]; decimal]) true;
  (* /vat[:\s]*\$?(\d+\.?\d* )/i *)
  Regex (lit "vat" ++ [star [Chr ":"; Space]; opt [Chr "$"]; decimal]) true;
  (* /gst[:\s]*\$?(\d+\.?\d* )/i *)
  Regex (lit "gst" ++ [star [Chr ":"; Space]; opt [Chr "$"]; decimal]) true
].

(** [[\/\-]] *)
Definition slashDash : cclass := [Chr "/"; Chr "-"].

Definition datePatterns : list regex := [
  (* /(\d{1,2}[\/\-]\d{1,2}[\/\-]\d{2,4})/ *)
  Regex [Group [rRange [Digit] 1 2; rOne slashDash; rRange [Digit] 1 2;
                rOne slashDash; rRange [Digit] 2 4]] false;
  (* /(\d{2,4}[\/\-]\d{1,2}[\/\-]\d{1,2})/ *)
  Regex [Group [rRange [Digit] 2 4; rOne slashDash; rRange [Digit] 1 2;
                rOne slashDash; rRange [Digit] 1 2]] false;
  (* /(\w{3,9}\s+\d{1,2},?\s+\d{2,4})/i *)
  Regex [Group [rRange [Word] 3 9; rPlus [Space]; rRange [Digit] 1 2;
                rOpt [Chr ","]; rPlus [Space]; rRange [Digit] 2 4]] true
].

(** [/(.+?)\s+\$?(\d+\.?\d* )/] *)
Definition itemPattern : regex :=
  Regex [Group [rPlusLazy [Dot]]; plus [Space]; opt [Chr "$"]; decimal] false.

(** [/(\d{1,2}[\/\-]\d{1,2}[\/\-]\d{2,4})\s+(.+?)\s+[\$\-]?(\d+\.?\d* )/] *)
Definition transactionPattern : regex :=
  Regex [Group [rRange [Digit] 1 2; rOne slashDash; rRange [Digit] 1 2;
                rOne slashDash; rRange [Digit] 2 4];
         plus [Space];
         Group [rPlusLazy [Dot]];
         plus [Space];
         opt [Chr "$"; Chr "-"];
         decimal] false.

(** [text.split('\n').map(line => line.trim()).filter(line => line.length > 0)] *)
Definition linesOf (text : string) : list string :=
  filter (fun line => 0 <? String.length line)
    (map (fun line => trim line) (split LF text)).

(** *** [suggestCategory] *)

(** The object literal [categoryKeywords]; [Object.entries] lists its keys
    in the order they are written. *)
Definition categoryKeywords : list (string * list string) := [
  ("food", ["restaurant"; "cafe"; "pizza"; "burger"; "food"; "kitchen";
            "diner"; "bistro"]);
  ("groceries", ["grocery"; "supermarket"; "market"; "walmart"; "target";
                 "costco"; "safeway"]);
  ("gas", ["gas"; "fuel"; "shell"; "exxon"; "bp"; "chevron"; "mobil"]);
  ("shopping", ["store"; "shop"; "mall"; "retail"; "amazon"; "ebay"]);
  ("healthcare", ["pharmacy"; "hospital"; "clinic"; "medical"; "doctor";
                  "cvs"; "walgreens"]);
  ("entertainment", ["cinema"; "movie"; "theater"; "netflix"; "spotify";
                     "game"]);
  ("transportation", ["uber"; "lyft"; "taxi"; "bus"; "train"; "metro";
                      "parking"]);
  ("utilities", ["electric"; "water"; "internet"; "phone"; "cable";
                 "utility"])
].

(** The [for ... of Object.entries(categoryKeywords)] loop, which returns
    from inside, and the [return] after it. *)
Fixpoint suggestLoop (entries : list (string * list string))
    (merchantLower : string) : string :=
  match entries with
  | [] => "other-expense"
  | (category, keywords) :: rest =>
      if existsb (fun keyword => includes merchantLower keyword) keywords
      then category
      else suggestLoop rest merchantLower
  end.

Definition suggestCategory (merchantName : string) : string :=
  let merchantLower := toLowerCase merchantName in
  suggestLoop categoryKeywords merchantLower.

(** *** History-mode test of the PDF route *)

Definition isTransactionHistory (text : string) : bool :=
  let lines := linesOf text in
  existsb (fun line =>
    includes (toLowerCase line) "date" &&
    includes (toLowerCase line) "amount" &&
    (includes (toLowerCase line) "description" ||
     includes (toLowerCase line) "transaction")) lines.

Section WithHost.

Context {H : Host}.

(** *** Data *)

Record lineItem : Type := LineItem {
  name : string;
  price : number;
  quantity : nat
}.

Record extractedData : Type := ExtractedData {
  merchantName : string;
  merchantAddress : string;
  totalAmount : number;
  taxAmount : number;
  date : option Date;
  items : list lineItem
}.

(** The [receipt] member of a suggestion; [refData] is [None] for [{}]. *)
Record receiptRef : Type := ReceiptRef {
  refUrl : string;
  refPublicId : string;
  refData : option extractedData
}.

(** A suggested transaction.  A member the object literal does not have
    is [None]. *)
Record suggestedTransaction : Type := SuggestedTransaction {
  type : string;
  amount : number;
  description : string;
  category : string;
  txDate : Date;
  location : option string;
  paymentMethod : option string;
  receipt : option receiptRef
}.

(** *** [extractReceiptData] *)

(** One line against [totalPatterns]: every pattern is tried, the running
    total only grows. *)
Definition totalStep (total : number) (line : string) : number :=
  fold_left (fun total pattern =>
    match jsMatch line pattern with
    | Some m =>
        let amount := parseFloat (group 1 m) in
        if gt amount total then amount else total
    | None => total
    end) totalPatterns total.

Definition totalLoop (lines : list string) : number :=
  fold_left totalStep lines zero.

(** One line against the patterns [ps]; [break] leaves this inner loop at
    the first pattern that matches. *)
Fixpoint taxStep (ps : list regex) (tax : number) (line : string) : number :=
  match ps with
  | [] => tax
  | pattern :: ps' =>
      match jsMatch line pattern with
      | Some m => parseFloat (group 1 m)
      | None => taxStep ps' tax line
      end
  end.

(** The outer loop has no [break]: it visits every line. *)
Definition taxLoop (lines : list string) : number :=
  fold_left (taxStep taxPatterns) lines zero.

(** One line against the date patterns [ps]; a capture the host does not
    parse leaves the loop running. *)
Fixpoint dateStep (ps : list regex) (line : string) : option Date :=
  match ps with
  | [] => None
  | pattern :: ps' =>
      match jsMatch line pattern with
      | Some m =>
          let dateStr := group 1 m in
          match parseDate dateStr with
          | Some parsedDate => Some parsedDate
          | None => dateStep ps' line
          end
      | None => dateStep ps' line
      end
  end.

(** [if (extractedData.date) break;] ends the outer loop. *)
Fixpoint dateLoop (lines : list string) : option Date :=
  match lines with
  | [] => None
  | line :: rest =>
      match dateStep datePatterns line with
      | Some d => Some d
      | None => dateLoop rest
      end
  end.

Definition itemStep (items : list lineItem) (line : string) : list lineItem :=
  match jsMatch line itemPattern with
  | Some m =>
      if negb (includes (toLowerCase line) "total") &&
         negb (includes (toLowerCase line) "tax")
      then
        let itemName := trim (group 1 m) in
        let price := parseFloat (group 2 m) in
        if (2 <? String.length itemName) && gt price zero
        then items ++ [LineItem itemName price 1]
        else items
      else items
  | None => items
  end.

Definition itemLoop (lines : list string) : list lineItem :=
  fold_left itemStep lines [].

(** [items.reduce((acc, item) => acc + (item.price || 0), 0)] *)
Definition sumItems (items : list lineItem) : number :=
  fold_left (fun acc item => add acc (orElse (price item) zero)) items zero.

(** The last statement before [return]: the sum of the items stands in
    for a total that is missing or 0. *)
Definition totalFallback (total : number) (items : list lineItem) : number :=
  if (negb (truthy total) || strictEq total zero) && (0 <? List.length items)
  then
    let sum := sumItems items in
    if gt sum zero then sum else total
  else total.

Definition extractReceiptData (text : string) : extractedData :=
  let lines := linesOf text in
  let merchantName :=
    match lines with
    | first :: _ => first
    | [] => EmptyString
    end in
  let totalAmount := totalLoop lines in
  let taxAmount := taxLoop lines in
  let date := dateLoop lines in
  let items := itemLoop lines in
  ExtractedData merchantName EmptyString (totalFallback totalAmount items)
    taxAmount date items.

(** *** [parseTransactionHistory] *)

Definition rowStep (transactions : list suggestedTransaction) (line : string)
    : list suggestedTransaction :=
  match jsMatch line transactionPattern with
  | Some m =>
      let dateStr := group 1 m in
      let description := trim (group 2 m) in
      let amount := parseFloat (group 3 m) in
      match parseDate dateStr with
      | Some parsedDate =>
          if gt amount zero then
            let isIncome :=
              includes (toLowerCase description) "deposit" ||
              includes (toLowerCase description) "salary" ||
              includes (toLowerCase description) "payment received" ||
              includes line "+" in
            let suggestedCategory :=
              if isIncome then "other-income" else suggestCategory description in
            transactions ++
              [SuggestedTransaction (if isIncome then "income" else "expense")
                 amount description suggestedCategory parsedDate None
                 (Some "bank-transfer") None]
          else transactions
      | None => transactions
      end
  | None => transactions
  end.

Definition parseTransactionHistory (text : string)
    : list suggestedTransaction :=
  let lines := linesOf text in
  fold_left rowStep lines [].

(** *** The upload routes *)

(** [req.file], as multer leaves it. *)
Record uploadedFile : Type := UploadedFile {
  path : string;
  filename : string
}.

Record request : Type := Request {
  file : option uploadedFile
}.

(** The [data] member of a response.  [docType] is its [type] member,
    [dataExtracted] its [extractedData] member ([None] for [{}]); a member
    the object literal does not have is [None]. *)
Record responseData : Type := ResponseData {
  url : string;
  publicId : string;
  docType : option string;
  extractedText : string;
  dataExtracted : option extractedData;
  suggestedTx : option suggestedTransaction;
  transactions : option (list suggestedTransaction)
}.

(** [res.status(status).json({success, message, data})] *)
Record response : Type := Response {
  status : nat;
  success : bool;
  message : string;
  data : option responseData
}.

(** [a || b] on strings: the empty string is falsy. *)
Definition strOr (a b : string) : string :=
  match a with
  | EmptyString => b
  | _ => a
  end.

(** [a || new Date()] on an optional date. *)
Definition dateOr (a : option Date) : Date :=
  match a with
  | Some d => d
  | None => now
  end.

(** The suggestion both single-receipt branches build. *)
Definition receiptSuggestion (f : uploadedFile) (extracted : extractedData)
    (fallbackDescription : string) : suggestedTransaction :=
  let suggestedCategory := suggestCategory (merchantName extracted) in
  SuggestedTransaction "expense" (totalAmount extracted)
    (strOr (merchantName extracted) fallbackDescription)
    suggestedCategory (dateOr (date extracted))
    (Some (merchantName extracted)) None
    (Some (ReceiptRef (path f) (filename f) (Some extracted))).

(** The suggestion both [catch] blocks build. *)
Definition manualEntry (f : uploadedFile) : suggestedTransaction :=
  SuggestedTransaction "expense" zero "Manual entry required" "other-expense"
    now None None (Some (ReceiptRef (path f) (filename f) None)).

(** The [try] block of [POST /upload-image]; [None] when it throws. *)
Definition uploadImageTry (req : request) : option response :=
  match file req with
  | None => Some (Response 400 false "No image file uploaded" None)
  | Some f =>
      match recognize (path f) with
      | None => None
      | Some text =>
          let extracted := extractReceiptData text in
          Some (Response 200 true "Receipt processed successfully"
                  (Some (ResponseData (path f) (filename f) None text
                           (Some extracted)
                           (Some (receiptSuggestion f extracted
                                    "Receipt transaction"))
                           None)))
      end
  end.

(** Its [catch] block. *)
Definition uploadImageCatch (req : request) : response :=
  match file req with
  | Some f =>
      Response 200 true "Receipt uploaded but OCR processing failed"
        (Some (ResponseData (path f) (filename f) None EmptyString None
                 (Some (manualEntry f)) None))
  | None => Response 500 false "Error processing receipt" None
  end.

Definition uploadImage (req : request) : response :=
  match uploadImageTry req with
  | Some r => r
  | None => uploadImageCatch req
  end.

(** The [try] block of [POST /upload-pdf]. *)
Definition uploadPdfTry (req : request) : option response :=
  match file req with
  | None => Some (Response 400 false "No PDF file uploaded" None)
  | Some f =>
      match fetch (path f) with
      | None => None
      | Some buffer =>
          match pdfParse buffer with
          | None => None
          | Some text =>
              if isTransactionHistory text then
                let transactions := parseTransactionHistory text in
                Some (Response 200 true
                        "Transaction history processed successfully"
                        (Some (ResponseData (path f) (filename f)
                                 (Some "transaction_history") text None None
                                 (Some transactions))))
              else
                let extracted := extractReceiptData text in
                Some (Response 200 true "PDF receipt processed successfully"
                        (Some (ResponseData (path f) (filename f)
                                 (Some "single_receipt") text (Some extracted)
                                 (Some (receiptSuggestion f extracted
                                          "PDF receipt transaction"))
                                 None)))
          end
      end
  end.

Definition uploadPdfCatch (req : request) : response :=
  match file req with
  | Some f =>
      Response 200 true "PDF uploaded but processing failed"
        (Some (ResponseData (path f) (filename f) (Some "unknown") EmptyString
                 None (Some (manualEntry f)) None))
  | None => Response 500 false "Error processing PDF" None
  end.

Definition uploadPdf (req : request) : response :=
  match uploadPdfTry req with
  | Some r => r
  | None => uploadPdfCatch req
  end.

End WithHost.

End Receipts.

(** ** Vocabulary of the statements *)

Module Spec.

Import Js Number Regex Receipts.

(** [k] occurs in [s]. *)
Definition occursIn (k s : string) : Prop :=
  exists pre post, s = (pre ++ k ++ post)%string.

(** [k] occurs in [s] when case is ignored. *)
Definition occursInCI (k s : string) : Prop := occursIn k (toLowerCase s).

(** Every character of [s] satisfies [p]. *)
Fixpoint allChars (p : ascii -> bool) (s : string) : bool :=
  match s with
  | EmptyString => true
  | String a r => p a && allChars p r
  end.

(** What a quantified class may have consumed. *)
Definition segOk (i : bool) (r : rep) (seg : string) : Prop :=
  allChars (classMatch i (cls r)) seg = true /\
  lo r <= String.length seg /\
  (forall h, hi r = Some h -> String.length seg <= h).

Definition isDecimalChar (a : ascii) : bool :=
  isDigit a || Ascii.eqb a ".".

(** The shape of what the group [decimal] captures: digits and points
    only, a digit first. *)
Definition decimalText (s : string) : Prop :=
  allChars isDecimalChar s = true /\
  exists a r, s = String a r /\ isDigit a = true.

Definition numLe (a b : number) : Prop :=
  match a, b with
  | Num x, Num y => (x <= y)%Q
  | _, _ => False
  end.

Definition positive (a : number) : Prop :=
  match a with
  | Num x => (0 < x)%Q
  | NaN => False
  end.

(** [d] is the largest member of [vs]. *)
Definition isMaxOf (d : number) (vs : list number) : Prop :=
  In d vs /\ forall v, In v vs -> numLe v d.

(** The larger of the running total and a new value, as the total loop
    keeps it. *)
Definition keepLarger (total v : number) : number :=
  if gt v total then v else total.

(** The values the patterns [ps] read on one line: for each pattern that
    matches, the number of its leftmost match. *)
Definition matchedValues (ps : list regex) (line : string) : list number :=
  flat_map (fun pattern =>
    match jsMatch line pattern with
    | Some m => [parseFloat (group 1 m)]
    | None => []
    end) ps.

(** All values the total patterns read in a document, in line order. *)
Definition totalMatches (lines : list string) : list number :=
  flat_map (matchedValues totalPatterns) lines.

(** The first tax pattern that matches a line, if any, and its value. *)
Definition taxMatch (line : string) : option number :=
  match matchedValues taxPatterns line with
  | v :: _ => Some v
  | [] => None
  end.

(** A line without the words "total" and "tax", in any case. *)
Definition labelFree (line : string) : Prop :=
  ~ occursInCI "total" line /\ ~ occursInCI "tax" line.

(** What [line] contributes to the items by itself. *)
Definition lineItems (line : string) : list lineItem := itemStep [] line.

(** [line] matches the item pattern and the match passes the two tests:
    [it] is the item built from it. *)
Definition emits (line : string) (it : lineItem) : Prop :=
  exists m,
    jsMatch line itemPattern = Some m /\
    it = LineItem (trim (group 1 m)) (parseFloat (group 2 m)) 1 /\
    2 < String.length (name it) /\
    positive (price it).

(** The total rule without the fallback: 0 when no total pattern matches
    a line, else the largest matched value. *)
Definition totalIsMaxOrZero {H : Host} (text : string) : Prop :=
  let matches := totalMatches (linesOf text) in
  let total := totalAmount (extractReceiptData text) in
  (matches = [] -> total = zero) /\
  (matches <> [] -> isMaxOf total matches).

(** The plain sum of the prices of [its], from left to right. *)
Definition sumPrices (its : list lineItem) : number :=
  fold_left add (map price its) zero.

(** [entry] has a keyword that occurs in [lowered]. *)
Definition entryMatches (lowered : string) (entry : string * list string)
    : Prop :=
  exists keyword, In keyword (snd entry) /\ occursIn keyword lowered.

(** The nine strings [suggestCategory] can return. *)
Definition suggestions : list string :=
  ["food"; "groceries"; "gas"; "shopping"; "healthcare"; "entertainment";
   "transportation"; "utilities"; "other-expense"].

(** [Array.prototype.join] with a line feed, to write documents. *)
Fixpoint joinLines (ls : list string) : string :=
  match ls with
  | [] => EmptyString
  | [l] => l
  | l :: rest => (l ++ String LF (joinLines rest))%string
  end.

End Spec.

(** ** A host to run the model on

    Dates are month/day/year triples, read from [M/D/Y] or [M-D-Y] with a
    month from 1 to 12 and a day from 1 to 31; the OCR engine and the
    download of a PDF fail. *)

Module SampleHost.

Import Js Number Regex Receipts.

Definition fieldValue (s : string) : nat :=
  let '(v, _, _) := digits s 0%Z 0 in Z.to_nat v.

Definition readDate (s : string) : option (nat * nat * nat) :=
  match run false [rRange [Digit] 1 2; rOne slashDash; rRange [Digit] 1 2;
                   rOne slashDash; rRange [Digit] 2 4] s with
  | Some [m; s1; d; s2; y] =>
      if String.eqb (Regex.concat [m; s1; d; s2; y]) s &&
         (1 <=? fieldValue m) && (fieldValue m <=? 12) &&
         (1 <=? fieldValue d) && (fieldValue d <=? 31)
      then Some (fieldValue m, fieldValue d, fieldValue y)
      else None
  | _ => None
  end.

Definition host : Host := {|
  Date := nat * nat * nat;
  parseDate := readDate;
  now := (11, 2, 2026);
  recognize := fun _ => None;
  Buffer := string;
  fetch := fun _ => None;
  pdfParse := fun _ => None
|}.

End SampleHost.

(** ** [backend/middleware/auth.js] *)

Module Auth.

Import Js.

(** What [protect] takes from [jsonwebtoken] and from the user model. *)
Class AuthHost : Type := {
  UserId : Type;
  (** [jwt.verify(token, process.env.JWT_SECRET)], its [id]; [None] when
      it throws. *)
  verify : string -> option UserId;
  (** [User.findById(id).select('-password')]: [None] when the query
      rejects, [Some None] for [null], else the [_id] and the truth value
      of [isActive] of the user. *)
  findById : UserId -> option (option (UserId * bool))
}.

(** The local [token] after the first [if]: [None] is [undefined].
    [authorization] is [req.headers.authorization]. *)
Definition bearerToken (authorization : option string) : option string :=
  match authorization with
  | Some header =>
      if (0 <? String.length header) && String.prefix "Bearer" header
      then nth_error (split " " header) 1
      else None
  | None => None
  end.

Section WithAuthHost.

Context {A : AuthHost}.

(** Either [res.status(status).json({success: false, message})] or
    [next()] with [req.user = { id }]. *)
Inductive outcome : Type :=
| Reply (status : nat) (message : string)
| Next (id : UserId).

(** The inner [try] block with its [catch]. *)
Definition checkToken (token : string) : outcome :=
  match verify token with
  | None => Reply 401 "Token is invalid or expired"
  | Some id =>
      match findById id with
      | None => Reply 401 "Token is invalid or expired"
      | Some None => Reply 401 "No user found with this token"
      | Some (Some (uid, isActive)) =>
          if isActive then Next uid
          else Reply 401 "User account is deactivated"
      end
  end.

(** The outer [try] block; [None] when it throws. *)
Definition protectTry (authorization : option string) : option outcome :=
  match bearerToken authorization with
  | Some token =>
      if 0 <? String.length token then Some (checkToken token)
      else Some (Reply 401 "Not authorized to access this route (no token)")
  | None => Some (Reply 401 "Not authorized to access this route (no token)")
  end.

Definition protect (authorization : option string) : outcome :=
  match protectTry authorization with
  | Some o => o
  | None => Reply 500 "Server error in authentication"
  end.

End WithAuthHost.

End Auth.

(** ** [backend/routes/transactions.js] *)

Module Transactions.

(** The answer of [GET /categories/:type]. *)
Record categoriesResponse : Type := CategoriesResponse {
  catStatus : nat;
  catSuccess : bool;
  catMessage : option string;
  catData : option (list string)
}.

Definition getCategories (type : string) : categoriesResponse :=
  if negb (existsb (String.eqb type) ["income"; "expense"]) then
    CategoriesResponse 400 false
      (Some "Type must be either income or expense") None
  else
    let categories := Transaction.getCategoriesByType type in
    CategoriesResponse 200 true None (Some categories).

(** The [pagination] member of the answer of [GET /]. *)
Record pagination : Type := Pagination {
  currentPage : Z;
  totalPages : Z;
  totalItems : Z;
  itemsPerPage : Z;
  hasNext : bool;
  hasPrev : bool
}.

(** [(page - 1) * limit] *)
Definition skipOf (page limit : Z) : Z := ((page - 1) * limit)%Z.

(** The pagination arithmetic of [GET /], on the numbers [page] and
    [limit] of the query and the count [total] of the store. *)
Definition paginate (page limit total : Z) : pagination :=
  let totalPages := Qceiling (inject_Z total / inject_Z limit) in
  Pagination page totalPages total limit
    (page <? totalPages)%Z (1 <? page)%Z.

End Transactions.

(** ** Vocabulary of the further statements *)

Module Spec2.

Import Js Number Regex Receipts Spec.

(** [s] has a character that is not white space. *)
Definition inked (s : string) : Prop := allChars isSpace s = false.

(** [s] neither starts nor ends with white space and is not empty. *)
Definition tight (s : string) : Prop :=
  (exists a r, s = String a r /\ isSpace a = false) /\
  (exists r b, s = (r ++ String b EmptyString)%string /\ isSpace b = false).

(** The value of a number, 0 for [NaN]. *)
Definition valueOf (a : number) : Q :=
  match a with
  | Num q => q
  | NaN => 0%Q
  end.

(** The six suggestions the expense categories of the model contain. *)
Definition acceptedSuggestions : list string :=
  ["groceries"; "gas"; "shopping"; "healthcare"; "entertainment";
   "transportation"].


(** [c] is not a space. *)
Definition notBlank (c : ascii) : bool := negb (Ascii.eqb c " ").

(** [c] is not white space. *)
Definition isInk (c : ascii) : bool := negb (isSpace c).

(** White space other than the line feed. *)
Definition isPad (c : ascii) : bool := isSpace c && negb (Ascii.eqb c LF).

(** [s] has no line feed: it can be one raw line of a document. *)
Definition noLineFeed (s : string) : Prop :=
  allChars (fun c => negb (Ascii.eqb c LF)) s = true.

(** [s] is not empty and has no white space. *)
Definition wordText (s : string) : Prop :=
  s <> EmptyString /\ allChars isInk s = true.

(** [s] is a non-empty run of digits. *)
Definition digitsText (s : string) : Prop :=
  s <> EmptyString /\ allChars isDigit s = true.

(** [s] is empty or a point followed by digits. *)
Definition fractionText (s : string) : Prop :=
  s = EmptyString \/
  exists d, s = String "." d /\ allChars isDigit d = true.

(** [s] is a non-empty run of white space without line feed. *)
Definition gapText (s : string) : Prop :=
  s <> EmptyString /\ allChars isPad s = true.

(** The history test on one raw line: "date" and "amount" and one of
    "description" and "transaction", whatever the case. *)
Definition headerLine (raw : string) : Prop :=
  occursInCI "date" raw /\ occursInCI "amount" raw /\
  (occursInCI "description" raw \/ occursInCI "transaction" raw).

(** Carriage return. *)
Definition CR : ascii := ascii_of_N 13.

(** The class [c] does not accept the first character of [rest], if any. *)
Definition headFails (i : bool) (c : cclass) (rest : string) : Prop :=
  match rest with
  | EmptyString => True
  | String a _ => classMatch i c a = false
  end.

(** The suggestion [tx] is the one a single receipt with the text [text]
    gets: an expense of the extracted total, described by the merchant
    name or else by a fixed non-empty phrase, classified by the merchant
    name, dated by the extracted date or else now. *)
Definition suggestedFrom {H : Host} (text : string)
    (tx : suggestedTransaction) : Prop :=
  let e := extractReceiptData text in
  type tx = "expense" /\
  amount tx = totalAmount e /\
  (exists q, amount tx = Num q /\ (0 <= q)%Q) /\
  description tx <> EmptyString /\
  (linesOf text <> [] -> description tx = merchantName e) /\
  category tx = suggestCategory (merchantName e) /\
  txDate tx = match date e with Some d => d | None => now end /\
  location tx = Some (merchantName e) /\
  paymentMethod tx = None.

(** A digit, a slash or a dash. *)
Definition isDateChar (a : ascii) : bool :=
  isDigit a || Ascii.eqb a "/" || Ascii.eqb a "-".

(** The two numeric date patterns of [datePatterns]. *)
Definition numericDatePatterns : list regex := firstn 2 datePatterns.

(** The line [line] gives the host a date it reads. *)
Definition readable {H : Host} (line : string) : Prop :=
  exists pattern m d,
    In pattern datePatterns /\ jsMatch line pattern = Some m /\
    parseDate (group 1 m) = Some d.

End Spec2.

(** ** Further hosts to run the model on

    A host whose OCR engine reads a diner receipt from every image and
    whose PDF reader finds a two-row statement, and an authentication host
    that knows one token and one active user. *)

Module SampleReader.

Import Js Spec.

Definition host : Host := {|
  Date := nat * nat * nat;
  parseDate := SampleHost.readDate;
  now := (11, 2, 2026);
  recognize := fun _ =>
    Some (joinLines ["Joe's Diner"; "Burger 8.50"; "Fries 3.00"; "TAX 0.90";
                     "TOTAL 12.40"]);
  Buffer := string;
  fetch := fun path => Some path;
  pdfParse := fun _ =>
    Some (joinLines ["Date Description Amount"; "01/05/2024 Coffee -4.50";
                     "01/06/2024 Salary 2000.00"])
|}.

Definition auth : Auth.AuthHost := {|
  Auth.UserId := nat;
  Auth.verify := fun token =>
    if String.eqb token "abc.def.ghi" then Some 7 else None;
  Auth.findById := fun id =>
    if id =? 7 then Some (Some (7, true)) else Some None
|}.

End SampleReader.

(** ** Strings *)

Import Js Number Regex Receipts Spec.

Lemma prefix_spec (k s : string) :
  String.prefix k s = true <-> exists post, s = (k ++ post)%string.
Proof.
  revert s; induction k as [|a k IH]; intros s.
  - split; [intros _; now exists s | destruct s; reflexivity].
  - destruct s as [|b s]; simpl.
    + split; [discriminate | intros [post E]; discriminate].
    + destruct (ascii_dec a b) as [->|N].
      * rewrite IH. split; intros [post E]; exists post.
        -- now rewrite E.
        -- now injection E.
      * split; [discriminate | intros [post E]; injection E; congruence].
Qed.

Lemma includes_eq (s k : string) :
  includes s k =
  String.prefix k s ||
  match s with
  | EmptyString => false
  | String _ r => includes r k
  end.
Proof. destruct s; reflexivity. Qed.

Lemma includes_spec (s k : string) : includes s k = true <-> occursIn k s.
Proof.
  unfold occursIn. induction s as [|a s IH]; rewrite includes_eq.
  - rewrite orb_false_r, prefix_spec. split.
    + intros [post E]. exists EmptyString, post. exact E.
    + intros (pre & post & E). destruct pre as [|b pre]; [|discriminate].
      exists post. exact E.
  - rewrite orb_true_iff, prefix_spec, IH. split.
    + intros [[post E]|(pre & post & E)].
      * exists EmptyString, post. exact E.
      * exists (String a pre), post. simpl. now rewrite E.
    + intros (pre & post & E). destruct pre as [|b pre].
      * left. exists post. exact E.
      * right. exists pre, post. simpl in E. now injection E.
Qed.

Lemma includes_false (s k : string) : includes s k = false <-> ~ occursIn k s.
Proof.
  rewrite <- includes_spec. destruct (includes s k); split; intros; easy.
Qed.

Lemma allChars_app (p : ascii -> bool) (s t : string) :
  allChars p (s ++ t)%string = allChars p s && allChars p t.
Proof.
  induction s as [|a s IH]; simpl; [reflexivity|].
  now rewrite IH, andb_assoc.
Qed.

Lemma allChars_weaken (p q : ascii -> bool) (s : string) :
  (forall a, p a = true -> q a = true) ->
  allChars p s = true -> allChars q s = true.
Proof.
  intros Hpq. induction s as [|a s IH]; simpl; [reflexivity|].
  rewrite !andb_true_iff. intros [Ha Hs]. split; auto.
Qed.

Lemma allChars_not_includes (p : ascii -> bool) (b : ascii) (s : string) :
  p b = false -> allChars p s = true ->
  includes s (String b EmptyString) = false.
Proof.
  intros Hb Hs. apply includes_false. intros (pre & post & E).
  rewrite E, allChars_app in Hs. simpl in Hs.
  rewrite Hb in Hs. rewrite andb_false_r in Hs. discriminate.
Qed.

Lemma append_assoc (s t u : string) :
  ((s ++ t) ++ u = s ++ (t ++ u))%string.
Proof. induction s as [|a s IH]; simpl; [reflexivity | now rewrite IH]. Qed.

Lemma length_append (s t : string) :
  String.length (s ++ t)%string = String.length s + String.length t.
Proof. induction s as [|a s IH]; simpl; [reflexivity | now rewrite IH]. Qed.

(** ** The matcher *)

Lemma iter_eq (i : bool) (r : rep) (k : string -> option (list string))
    (n : nat) (s : string) :
  iter i r k n s =
  let stop :=
    if lo r <=? n then
      match k s with
      | Some segs => Some (EmptyString, segs)
      | None => None
      end
    else None in
  let more :=
    match s with
    | String a s' =>
        if below n (hi r) && classMatch i (cls r) a then
          match iter i r k (S n) s' with
          | Some (seg, segs) => Some (String a seg, segs)
          | None => None
          end
        else None
    | EmptyString => None
    end in
  if greedy r then match more with Some x => Some x | None => stop end
  else match stop with Some x => Some x | None => more end.
Proof. destruct s; reflexivity. Qed.

(** Whatever [iter] returns splits the input: the consumed run is made of
    characters of the class, its length respects the bounds, and the
    continuation accepted what follows. *)
Lemma iter_sound (i : bool) (r : rep) (k : string -> option (list string))
    (s : string) :
  forall n seg segs,
    (forall h, hi r = Some h -> n <= h) ->
    iter i r k n s = Some (seg, segs) ->
    exists rest,
      s = (seg ++ rest)%string /\ k rest = Some segs /\
      allChars (classMatch i (cls r)) seg = true /\
      lo r <= n + String.length seg /\
      (forall h, hi r = Some h -> n + String.length seg <= h).
Proof.
  induction s as [|a s IH]; intros n seg segs Hn Hit.
  - rewrite iter_eq in Hit. cbv zeta in Hit.
    assert (Hstop : (if lo r <=? n
                     then match k EmptyString with
                          | Some segs0 => Some (EmptyString, segs0)
                          | None => None
                          end
                     else None) = Some (seg, segs)).
    { destruct (greedy r); [exact Hit|].
      destruct (if lo r <=? n then _ else _); [exact Hit | discriminate]. }
    destruct (lo r <=? n) eqn:Hlo; [|discriminate].
    destruct (k EmptyString) eqn:Hk; [|discriminate].
    injection Hstop as <- <-. exists EmptyString.
    apply Nat.leb_le in Hlo. simpl. rewrite Nat.add_0_r. auto.
  - rewrite iter_eq in Hit. cbv zeta in Hit.
    assert (Hcases :
      (lo r <= n /\ k (String a s) = Some segs /\ seg = EmptyString) \/
      (exists seg', below n (hi r) = true /\ classMatch i (cls r) a = true /\
                    iter i r k (S n) s = Some (seg', segs) /\
                    seg = String a seg')).
    { assert (Hstop : forall x,
        (if lo r <=? n
         then match k (String a s) with
              | Some segs0 => Some (EmptyString, segs0)
              | None => None
              end
         else None) = Some x ->
        x = (seg, segs) ->
        lo r <= n /\ k (String a s) = Some segs /\ seg = EmptyString).
      { intros x Hx ->. destruct (lo r <=? n) eqn:Hlo; [|discriminate].
        destruct (k (String a s)); [|discriminate].
        injection Hx as <- <-. apply Nat.leb_le in Hlo. auto. }
      assert (Hmore : forall x,
        (if below n (hi r) && classMatch i (cls r) a
         then match iter i r k (S n) s with
              | Some (seg0, segs0) => Some (String a seg0, segs0)
              | None => None
              end
         else None) = Some x ->
        x = (seg, segs) ->
        exists seg', below n (hi r) = true /\
                     classMatch i (cls r) a = true /\
                     iter i r k (S n) s = Some (seg', segs) /\
                     seg = String a seg').
      { intros x Hx ->.
        destruct (below n (hi r) && classMatch i (cls r) a) eqn:Hc;
          [|discriminate].
        apply andb_true_iff in Hc. destruct Hc as [Hb Hc].
        destruct (iter i r k (S n) s) as [[seg0 segs0]|]; [|discriminate].
        injection Hx as <- <-. exists seg0. auto. }
      destruct (greedy r).
      - destruct (if below n (hi r) && classMatch i (cls r) a then _ else _)
          as [x|] eqn:Hm.
        + right. apply (Hmore x); [reflexivity | congruence].
        + left. now apply (Hstop (seg, segs)).
      - destruct (if lo r <=? n then _ else _) as [x|] eqn:Hs.
        + left. apply (Hstop x); [reflexivity | congruence].
        + right. now apply (Hmore (seg, segs)). }
    destruct Hcases as [(Hlo & Hk & ->)|(seg' & Hb & Hc & Hrec & ->)].
    + exists (String a s). simpl. rewrite Nat.add_0_r. auto.
    + apply IH in Hrec.
      * destruct Hrec as (rest & -> & Hk & Hall & Hlo & Hhi).
        exists rest. simpl. rewrite Hc, Hall.
        rewrite Nat.add_succ_r. simpl in Hlo, Hhi. auto.
      * intros h Hh. unfold below in Hb. rewrite Hh in Hb.
        apply Nat.ltb_lt in Hb. lia.
Qed.

Lemma run_sound (i : bool) (rs : list rep) :
  forall s segs,
    run i rs s = Some segs ->
    Forall2 (segOk i) rs segs /\
    exists rest, s = (Regex.concat segs ++ rest)%string.
Proof.
  induction rs as [|r rs IH]; intros s segs Hrun; simpl in Hrun.
  - injection Hrun as <-. split; [constructor | now exists s].
  - destruct (iter i r (run i rs) 0 s) as [[seg segs']|] eqn:Hit;
      [|discriminate].
    injection Hrun as <-.
    apply iter_sound in Hit; [|intros; lia].
    destruct Hit as (rest & -> & Hk & Hall & Hlo & Hhi).
    apply IH in Hk. destruct Hk as [HF [rest' ->]].
    split.
    + constructor; [|exact HF]. repeat split; auto.
    + exists rest'. simpl. now rewrite append_assoc.
Qed.

Lemma search_sound (re : regex) (s : string) :
  forall idx m,
    search re s idx = Some m ->
    exists segs,
      Forall2 (segOk (ignoreCase re)) (flatten (nodes re)) segs /\
      matched m = Regex.concat segs /\
      groups m = captures (nodes re) segs.
Proof.
  induction s as [|a s IH]; intros idx m Hs; simpl in Hs.
  - destruct (run (ignoreCase re) (flatten (nodes re)) EmptyString)
      as [segs|] eqn:Hrun; [|discriminate].
    injection Hs as <-. apply run_sound in Hrun. exists segs. tauto.
  - destruct (run (ignoreCase re) (flatten (nodes re)) (String a s))
      as [segs|] eqn:Hrun.
    + injection Hs as <-. apply run_sound in Hrun. exists segs. tauto.
    + eapply IH. exact Hs.
Qed.

Lemma jsMatch_sound (line : string) (re : regex) (m : matchArray) :
  jsMatch line re = Some m ->
  exists segs,
    Forall2 (segOk (ignoreCase re)) (flatten (nodes re)) segs /\
    matched m = Regex.concat segs /\
    groups m = captures (nodes re) segs.
Proof. apply search_sound. Qed.

(** The matcher on a few lines: the leftmost match wins, a lazy
    description stops at the first number, a greedy run takes all it can. *)
Example match_total_inside_subtotal :
  jsMatch "Subtotal: $45.00 due" (hd itemPattern totalPatterns) =
  Some (MatchArray 3 "total: $45.00" ["45.00"]).
Proof. vm_compute. reflexivity. Qed.

Example match_item_first_number :
  jsMatch "Burger 2 x 8.50" itemPattern =
  Some (MatchArray 0 "Burger 2" ["Burger"; "2"]).
Proof. vm_compute. reflexivity. Qed.

Example match_item_without_number :
  jsMatch "Joe's Diner" itemPattern = None.
Proof. vm_compute. reflexivity. Qed.

Example match_row_with_minus :
  jsMatch "01/05/2024 Coffee -4.50" transactionPattern =
  Some (MatchArray 0 "01/05/2024 Coffee -4.50"
          ["01/05/2024"; "Coffee"; "4.50"]).
Proof. vm_compute. reflexivity. Qed.

Example match_row_inside_iso_date :
  jsMatch "2024-01-05 Coffee 4.50" transactionPattern =
  Some (MatchArray 2 "24-01-05 Coffee 4.50" ["24-01-05"; "Coffee"; "4.50"]).
Proof. vm_compute. reflexivity. Qed.

Example parseFloat_samples :
  parseFloat "12.40" = num 12.40 /\ parseFloat "12." = num 12 /\
  parseFloat "007" = num 7 /\ parseFloat "-4.50" = num (-4.50) /\
  parseFloat "" = NaN /\ parseFloat "." = NaN /\ parseFloat "x1" = NaN.
Proof. repeat split; vm_compute; reflexivity. Qed.

Example linesOf_sample :
  linesOf (joinLines ["  Joe's Diner "; ""; "   "; "Burger 8.50"]) =
  ["Joe's Diner"; "Burger 8.50"].
Proof. vm_compute. reflexivity. Qed.

(** ** Numbers read from a capture *)

Lemma digits_cons (a : ascii) (r : string) (acc : Z) (n : nat) :
  digits (String a r) acc n =
  if isDigit a then digits r (10 * acc + digitVal a)%Z (S n)
  else (acc, n, String a r).
Proof. reflexivity. Qed.

Lemma digits_spec (s : string) :
  forall acc n v n' rest,
    (0 <= acc)%Z -> digits s acc n = (v, n', rest) -> (0 <= v)%Z /\ n <= n'.
Proof.
  induction s as [|a s IH]; intros acc n v n' rest Hacc Hd.
  - injection Hd as <- <- _. auto.
  - rewrite digits_cons in Hd. destruct (isDigit a) eqn:Ha.
    + apply IH in Hd.
      * destruct Hd. split; [assumption | lia].
      * unfold isDigit, inRange in Ha. apply andb_true_iff in Ha.
        destruct Ha as [Ha _]. apply N.leb_le in Ha.
        unfold digitVal. lia.
    + injection Hd as <- <- _. auto.
Qed.

Lemma num_nonneg (q : Q) :
  (0 <= q)%Q -> exists q', num q = Num q' /\ (0 <= q')%Q /\ Qred q' = q'.
Proof.
  intros Hq. exists (Qred q). split; [reflexivity|]. split.
  - now rewrite Qred_correct.
  - apply Qred_complete, Qred_correct.
Qed.

Lemma inject_Z_nonneg (z : Z) : (0 <= z)%Z -> (0 <= inject_Z z)%Q.
Proof. intros Hz. unfold Qle. simpl. lia. Qed.

Lemma unsignedDecimal_digit (a : ascii) (r : string) :
  isDigit a = true ->
  exists q, unsignedDecimal (String a r) = Num q /\ (0 <= q)%Q /\ Qred q = q.
Proof.
  intros Ha. unfold unsignedDecimal. rewrite digits_cons, Ha.
  destruct (digits r (10 * 0 + digitVal a) 1) as [[ip ni] rest] eqn:Hd.
  apply digits_spec in Hd.
  2:{ unfold isDigit, inRange in Ha. apply andb_true_iff in Ha.
      destruct Ha as [Ha _]. apply N.leb_le in Ha. unfold digitVal. lia. }
  destruct Hd as [Hip Hni].
  destruct ni as [|ni]; [lia|].
  assert (Hint : exists q, num (inject_Z ip) = Num q /\ (0 <= q)%Q /\
                           Qred q = q)
    by (apply num_nonneg, inject_Z_nonneg, Hip).
  destruct rest as [|c rest]; [exact Hint|].
  destruct (Ascii.eqb c "."); [|exact Hint].
  destruct (digits rest 0 0) as [[fp nf] rest'] eqn:Hf.
  apply digits_spec in Hf; [|lia]. destruct Hf as [Hfp _].
  apply num_nonneg.
  apply Qle_trans with (inject_Z ip + 0)%Q.
  - rewrite Qplus_0_r. now apply inject_Z_nonneg.
  - apply Qplus_le_compat; [apply Qle_refl|].
    apply Qmult_le_0_compat; [now apply inject_Z_nonneg|].
    apply Qinv_le_0_compat, inject_Z_nonneg.
    apply Z.pow_nonneg. lia.
Qed.

Lemma digit_plain (a : ascii) :
  isDigit a = true ->
  isSpace a = false /\ Ascii.eqb a "-" = false /\ Ascii.eqb a "+" = false.
Proof.
  destruct a as [[] [] [] [] [] [] [] []]; vm_compute; intros H;
    try discriminate H; auto.
Qed.

(** A capture of [decimal] parses to a number that is not negative. *)
Lemma parseFloat_decimalText (s : string) :
  decimalText s ->
  exists q, parseFloat s = Num q /\ (0 <= q)%Q /\ Qred q = q.
Proof.
  intros (_ & a & r & -> & Ha).
  destruct (digit_plain a Ha) as (Hs & Hm & Hp).
  unfold parseFloat. simpl trimStart. rewrite Hs, Hm, Hp.
  now apply unsignedDecimal_digit.
Qed.

Lemma dot_only (i : bool) (c : ascii) :
  classMatch i [Chr "."] c = true -> isDecimalChar c = true.
Proof.
  destruct i; destruct c as [[] [] [] [] [] [] [] []]; vm_compute; intros H;
    try discriminate H; auto.
Qed.

Lemma digit_only (i : bool) (c : ascii) :
  classMatch i [Digit] c = true -> isDigit c = true.
Proof. unfold classMatch. simpl. now rewrite orb_false_r. Qed.

(** The three quantified classes of [decimal] consume a [decimalText]. *)
Lemma decimal_segments (i : bool) (d1 dot d2 : string) :
  segOk i (rPlus [Digit]) d1 ->
  segOk i (rOpt [Chr "."]) dot ->
  segOk i (rStar [Digit]) d2 ->
  decimalText (Regex.concat [d1; dot; d2]).
Proof.
  intros (H1 & L1 & _) (Hd & _) (H2 & _). simpl in *.
  split.
  - assert (Hdigit : forall a, classMatch i [Digit] a = true ->
                               isDecimalChar a = true).
    { intros a Ha. apply digit_only in Ha. unfold isDecimalChar.
      now rewrite Ha. }
    apply (allChars_weaken _ isDecimalChar _ Hdigit) in H1, H2.
    apply (allChars_weaken _ isDecimalChar _ (dot_only i)) in Hd.
    rewrite !allChars_app, H1, Hd, H2. reflexivity.
  - destruct d1 as [|a r]; [simpl in L1; lia|].
    simpl in H1. apply andb_true_iff in H1. destruct H1 as [Ha _].
    exists a. eexists. split; [reflexivity|]. now apply digit_only in Ha.
Qed.

(** ** What the patterns of the router capture *)

Ltac invert_segments :=
  repeat match goal with
         | H : Forall2 _ (_ :: _) _ |- _ => inversion H; subst; clear H
         | H : Forall2 _ [] _ |- _ => inversion H; subst; clear H
         end.

Ltac decimal_capture Hm :=
  apply jsMatch_sound in Hm;
  destruct Hm as (segs & HF & _ & Hg);
  unfold group; rewrite Hg; clear Hg;
  cbn [nodes flatten flat_map repsOf lit one star opt plus decimal app] in HF;
  invert_segments;
  cbn [nodes captures lit one star opt plus decimal app List.length firstn
       skipn tl nth Nat.sub];
  eapply decimal_segments; eassumption.

Lemma labelled_capture (ps : list regex) (line : string) (pattern : regex)
    (m : matchArray) :
  ps = totalPatterns \/ ps = taxPatterns ->
  In pattern ps -> jsMatch line pattern = Some m -> decimalText (group 1 m).
Proof.
  intros [-> | ->] Hin Hm; simpl in Hin;
    destruct Hin as [<-|[<-|[<-|[]]]]; decimal_capture Hm.
Qed.

Lemma itemPattern_capture (line : string) (m : matchArray) :
  jsMatch line itemPattern = Some m -> decimalText (group 2 m).
Proof. intros Hm. unfold itemPattern in Hm. decimal_capture Hm. Qed.

Lemma transactionPattern_capture (line : string) (m : matchArray) :
  jsMatch line transactionPattern = Some m -> decimalText (group 3 m).
Proof. intros Hm. unfold transactionPattern in Hm. decimal_capture Hm. Qed.

(** Every value the label patterns read is a number that is not negative,
    in lowest terms. *)
Lemma matchedValues_nonneg (ps : list regex) (line : string) (v : number) :
  ps = totalPatterns \/ ps = taxPatterns ->
  In v (matchedValues ps line) ->
  exists q, v = Num q /\ (0 <= q)%Q /\ Qred q = q.
Proof.
  intros Hps Hin. unfold matchedValues in Hin.
  apply in_flat_map in Hin. destruct Hin as (pattern & Hp & Hv).
  destruct (jsMatch line pattern) as [m|] eqn:Hm; [|destruct Hv].
  destruct Hv as [<-|[]].
  apply parseFloat_decimalText.
  now apply (labelled_capture ps line pattern).
Qed.

(** ** Comparing and adding numbers *)

Lemma gt_true (x y : Q) : gt (Num x) (Num y) = true <-> (y < x)%Q.
Proof.
  simpl. rewrite negb_true_iff. split.
  - intros Hb. apply Qnot_le_lt. intros Hle.
    apply Qle_bool_iff in Hle. congruence.
  - intros Hlt. destruct (Qle_bool x y) eqn:Hb; [|reflexivity].
    apply Qle_bool_iff in Hb. now apply Qlt_not_le in Hlt.
Qed.

Lemma gt_false (x y : Q) : gt (Num x) (Num y) = false <-> (x <= y)%Q.
Proof. simpl. rewrite negb_false_iff. apply Qle_bool_iff. Qed.

Lemma gt_positive (a : number) : gt a zero = true <-> positive a.
Proof.
  destruct a as [|x]; simpl positive.
  - split; [discriminate | contradiction].
  - apply gt_true.
Qed.

Lemma positive_truthy (a : number) : positive a -> truthy a = true.
Proof.
  destruct a as [|x]; simpl; [contradiction|]. intros Hx.
  apply negb_true_iff. destruct (Qeq_bool x 0) eqn:Hb; [|reflexivity].
  apply Qeq_bool_iff in Hb. rewrite Hb in Hx. now apply Qlt_irrefl in Hx.
Qed.

Lemma positive_not_zero (a : number) : positive a -> strictEq a zero = false.
Proof.
  destruct a as [|x]; simpl; [contradiction|]. intros Hx.
  destruct (Qeq_bool x 0) eqn:Hb; [|reflexivity].
  apply Qeq_bool_iff in Hb. rewrite Hb in Hx. now apply Qlt_irrefl in Hx.
Qed.

(** A number in lowest terms that equals 0 is the [zero] of the model. *)
Lemma canonical_zero (q : Q) : Qred q = q -> (q == 0)%Q -> Num q = zero.
Proof.
  intros Hc Hz. unfold zero. rewrite <- Hc.
  now rewrite (Qred_complete q 0 Hz).
Qed.

Lemma add_positive (x : Q) (b : number) :
  (0 <= x)%Q -> positive b -> exists y, add (Num x) b = Num y /\ (0 < y)%Q.
Proof.
  intros Hx Hb. destruct b as [|z]; [contradiction|]. simpl in Hb.
  exists (Qred (x + z)). split; [reflexivity|].
  rewrite Qred_correct.
  apply Qlt_le_trans with (0 + z)%Q.
  - now rewrite Qplus_0_l.
  - apply Qplus_le_compat; [assumption | apply Qle_refl].
Qed.

(** ** Folds *)

Lemma fold_left_flat_map {A B C : Type} (f : A -> B -> A) (g : C -> list B)
    (l : list C) :
  forall a,
    fold_left f (flat_map g l) a =
    fold_left (fun acc x => fold_left f (g x) acc) l a.
Proof.
  induction l as [|x l IH]; intros a; simpl; [reflexivity|].
  now rewrite fold_left_app, IH.
Qed.

(** A loop that pushes to an array, one line after the other, builds the
    concatenation of what each line contributes. *)
Lemma fold_left_push {A B : Type} (step : list B -> A -> list B)
    (each : A -> list B) (l : list A) :
  (forall acc x, step acc x = acc ++ each x) ->
  forall acc, fold_left step l acc = acc ++ flat_map each l.
Proof.
  intros Hstep. induction l as [|x l IH]; intros acc; simpl.
  - now rewrite app_nil_r.
  - now rewrite IH, Hstep, <- app_assoc.
Qed.

(** The running maximum dominates its start and every value, and is one
    of them. *)
Lemma keepLarger_fold (vs : list number) :
  (forall v, In v vs -> exists q, v = Num q) ->
  forall t,
    let r := fold_left keepLarger vs (Num t) in
    numLe (Num t) r /\ (forall v, In v vs -> numLe v r) /\ (r = Num t \/ In r vs).
Proof.
  induction vs as [|v vs IH]; intros Hnum t; cbn [fold_left].
  - split; [apply Qle_refl|]. split; [contradiction | now left].
  - destruct (Hnum v (or_introl eq_refl)) as [x ->].
    assert (Hnum' : forall v, In v vs -> exists q, v = Num q)
      by (intros w Hw; apply Hnum; now right).
    destruct (gt (Num x) (Num t)) eqn:Hgt.
    + assert (Hk : keepLarger (Num t) (Num x) = Num x)
        by (unfold keepLarger; now rewrite Hgt).
      rewrite Hk. apply gt_true in Hgt.
      destruct (IH Hnum' x) as (Hle & Hall & Hin).
      destruct (fold_left keepLarger vs (Num x)) as [|y]; [contradiction|].
      simpl in Hle.
      split; [simpl; apply Qlt_le_weak, Qlt_le_trans with x; assumption|].
      split.
      * intros w [<-|Hw]; [exact Hle | now apply Hall].
      * right. destruct Hin as [->|Hin]; [now left | now right].
    + assert (Hk : keepLarger (Num t) (Num x) = Num t)
        by (unfold keepLarger; now rewrite Hgt).
      rewrite Hk. apply gt_false in Hgt.
      destruct (IH Hnum' t) as (Hle & Hall & Hin).
      destruct (fold_left keepLarger vs (Num t)) as [|y]; [contradiction|].
      simpl in Hle.
      split; [exact Hle|]. split.
      * intros w [<-|Hw]; [simpl; now apply Qle_trans with t | now apply Hall].
      * destruct Hin as [Hin|Hin]; [now left | right; now right].
Qed.

(** ** The total loop *)

Lemma totalStep_fold (line : string) (total : number) :
  totalStep total line =
  fold_left keepLarger (matchedValues totalPatterns line) total.
Proof.
  unfold totalStep, matchedValues. revert total.
  induction totalPatterns as [|p ps IH]; intros total; [reflexivity|].
  cbn [fold_left flat_map]. rewrite fold_left_app, IH.
  destruct (jsMatch line p); reflexivity.
Qed.

Lemma totalLoop_fold (lines : list string) :
  totalLoop lines = fold_left keepLarger (totalMatches lines) zero.
Proof.
  unfold totalLoop, totalMatches. generalize zero.
  induction lines as [|l lines IH]; intros t; [reflexivity|].
  cbn [fold_left flat_map]. now rewrite fold_left_app, IH, totalStep_fold.
Qed.

Lemma totalMatches_nonneg (lines : list string) (v : number) :
  In v (totalMatches lines) ->
  exists q, v = Num q /\ (0 <= q)%Q /\ Qred q = q.
Proof.
  unfold totalMatches. intros Hin. apply in_flat_map in Hin.
  destruct Hin as (line & _ & Hv).
  apply (matchedValues_nonneg totalPatterns line); auto.
Qed.

(** The total the loop detects: 0 without a match, else the largest
    matched value. *)
Lemma totalLoop_max (lines : list string) :
  (totalMatches lines = [] -> totalLoop lines = zero) /\
  (totalMatches lines <> [] ->
   isMaxOf (totalLoop lines) (totalMatches lines)).
Proof.
  rewrite totalLoop_fold. split.
  - intros ->. reflexivity.
  - intros Hne.
    assert (Hnum : forall v, In v (totalMatches lines) -> exists q, v = Num q).
    { intros v Hv. destruct (totalMatches_nonneg lines v Hv) as (q & -> & _).
      now exists q. }
    destruct (keepLarger_fold (totalMatches lines) Hnum 0%Q)
      as (Hle & Hall & Hin).
    fold zero in Hle, Hall, Hin.
    split; [|exact Hall].
    destruct Hin as [Hz|Hin]; [|exact Hin].
    rewrite Hz in *.
    destruct (totalMatches lines) as [|v vs] eqn:Hvs; [congruence|].
    left.
    destruct (totalMatches_nonneg lines v) as (q & -> & Hq & Hc).
    { rewrite Hvs. now left. }
    apply canonical_zero; [exact Hc|].
    apply Qle_antisym; [|exact Hq].
    apply (Hall (Num q)). now left.
Qed.

Lemma totalFallback_keeps (total : number) (its : list lineItem) :
  positive total \/ its = [] -> totalFallback total its = total.
Proof.
  unfold totalFallback. intros [Hp | ->].
  - now rewrite (positive_truthy _ Hp), (positive_not_zero _ Hp).
  - simpl. now rewrite andb_false_r.
Qed.

(** ** The tax loop *)

Lemma taxStep_taxMatch (tax : number) (line : string) :
  taxStep taxPatterns tax line =
  match taxMatch line with
  | Some v => v
  | None => tax
  end.
Proof.
  unfold taxMatch, matchedValues.
  induction taxPatterns as [|p ps IH]; [reflexivity|].
  cbn [taxStep flat_map]. destruct (jsMatch line p); [reflexivity|].
  exact IH.
Qed.

(** The value of the last line that matches a tax pattern stays. *)
Lemma taxLoop_last (lines : list string) (line : string) :
  taxLoop (lines ++ [line]) =
  match taxMatch line with
  | Some v => v
  | None => taxLoop lines
  end.
Proof.
  unfold taxLoop. rewrite fold_left_app. cbn [fold_left].
  apply taxStep_taxMatch.
Qed.

Lemma taxLoop_no_match (lines : list string) :
  (forall line, In line lines -> taxMatch line = None) ->
  forall tax, fold_left (taxStep taxPatterns) lines tax = tax.
Proof.
  induction lines as [|l lines IH]; intros Hnone tax; [reflexivity|].
  cbn [fold_left]. rewrite taxStep_taxMatch, (Hnone l (or_introl eq_refl)).
  apply IH. intros line Hin. apply Hnone. now right.
Qed.

Lemma taxLoop_last_match (pre post : list string) (line : string)
    (v : number) :
  taxMatch line = Some v ->
  (forall l, In l post -> taxMatch l = None) ->
  taxLoop (pre ++ line :: post) = v.
Proof.
  intros Hv Hpost. unfold taxLoop. rewrite fold_left_app. cbn [fold_left].
  rewrite taxStep_taxMatch, Hv. now apply taxLoop_no_match.
Qed.

(** ** The item loop *)

Lemma itemStep_push (acc : list lineItem) (line : string) :
  itemStep acc line = acc ++ lineItems line.
Proof.
  unfold lineItems, itemStep.
  destruct (jsMatch line itemPattern) as [m|]; [|now rewrite app_nil_r].
  destruct (negb (includes (toLowerCase line) "total") &&
            negb (includes (toLowerCase line) "tax"));
    [|now rewrite app_nil_r].
  destruct ((2 <? String.length (trim (group 1 m))) &&
            gt (parseFloat (group 2 m)) zero);
    [reflexivity | now rewrite app_nil_r].
Qed.

Lemma itemLoop_flat_map (lines : list string) :
  itemLoop lines = flat_map lineItems lines.
Proof.
  unfold itemLoop.
  now rewrite (fold_left_push itemStep lineItems lines itemStep_push).
Qed.

Lemma labelFree_test (line : string) :
  negb (includes (toLowerCase line) "total") &&
  negb (includes (toLowerCase line) "tax") = true <-> labelFree line.
Proof.
  unfold labelFree, occursInCI.
  now rewrite andb_true_iff, !negb_true_iff, !includes_false.
Qed.

Lemma lineItems_emits (line : string) (it : lineItem) :
  labelFree line -> (In it (lineItems line) <-> emits line it).
Proof.
  intros Hfree. apply labelFree_test in Hfree.
  unfold lineItems, itemStep, emits. rewrite Hfree.
  destruct (jsMatch line itemPattern) as [m|].
  - destruct ((2 <? String.length (trim (group 1 m))) &&
              gt (parseFloat (group 2 m)) zero) eqn:Hok.
    + apply andb_true_iff in Hok. destruct Hok as [Hlen Hpos].
      apply Nat.ltb_lt in Hlen. apply gt_positive in Hpos.
      split.
      * intros [<-|[]]. exists m. auto.
      * intros (m' & Hm & -> & _). injection Hm as <-. now left.
    + split; [intros []|].
      intros (m' & Hm & -> & Hlen & Hpos). injection Hm as <-.
      simpl in Hlen, Hpos.
      apply Nat.ltb_lt in Hlen. apply gt_positive in Hpos.
      rewrite Hlen, Hpos in Hok. discriminate.
  - split; [intros [] | intros (m' & Hm & _); discriminate].
Qed.

Lemma lineItems_labelled (line : string) :
  ~ labelFree line -> lineItems line = [].
Proof.
  intros Hn. unfold lineItems, itemStep.
  destruct (jsMatch line itemPattern) as [m|]; [|reflexivity].
  destruct (negb (includes (toLowerCase line) "total") &&
            negb (includes (toLowerCase line) "tax")) eqn:Ht; [|reflexivity].
  apply labelFree_test in Ht. contradiction.
Qed.

Lemma lineItems_positive (line : string) (it : lineItem) :
  In it (lineItems line) -> positive (price it) /\ quantity it = 1.
Proof.
  unfold lineItems, itemStep.
  destruct (jsMatch line itemPattern) as [m|]; [|intros []].
  destruct (_ && _); [|intros []].
  destruct ((2 <? String.length (trim (group 1 m))) &&
            gt (parseFloat (group 2 m)) zero) eqn:Hok; [|intros []].
  apply andb_true_iff in Hok. destruct Hok as [_ Hpos].
  apply gt_positive in Hpos. intros [<-|[]]. auto.
Qed.

Lemma itemLoop_positive (lines : list string) (it : lineItem) :
  In it (itemLoop lines) -> positive (price it).
Proof.
  rewrite itemLoop_flat_map. intros Hin. apply in_flat_map in Hin.
  destruct Hin as (line & _ & Hit). now apply lineItems_positive in Hit.
Qed.

(** ** The fallback sum *)

Lemma sumItems_fold (its : list lineItem) :
  (forall it, In it its -> positive (price it)) ->
  forall acc,
    fold_left (fun acc it => add acc (orElse (price it) zero)) its acc =
    fold_left add (map price its) acc.
Proof.
  induction its as [|it its IH]; intros Hpos acc; [reflexivity|].
  cbn [fold_left map]. rewrite IH by (intros; apply Hpos; now right).
  unfold orElse. now rewrite positive_truthy by (apply Hpos; now left).
Qed.

Lemma sum_positive (ps : list number) :
  (forall p, In p ps -> positive p) ->
  forall x, (0 <= x)%Q -> ps <> [] ->
    positive (fold_left add ps (Num x)).
Proof.
  induction ps as [|p ps IH]; intros Hpos x Hx Hne; [congruence|].
  cbn [fold_left].
  destruct (add_positive x p Hx (Hpos p (or_introl eq_refl)))
    as (y & -> & Hy).
  destruct ps as [|p' ps]; [exact Hy|].
  apply IH; [intros; apply Hpos; now right | now apply Qlt_le_weak | easy].
Qed.

Lemma totalFallback_sum (its : list lineItem) :
  (forall it, In it its -> positive (price it)) ->
  its <> [] ->
  totalFallback zero its = sumPrices its.
Proof.
  intros Hpos Hne. unfold totalFallback, sumItems, sumPrices.
  rewrite sumItems_fold by assumption.
  assert (Hsum : positive (fold_left add (map price its) zero)).
  { apply sum_positive; [|apply Qle_refl|].
    - intros p Hp. apply in_map_iff in Hp. destruct Hp as (it & <- & Hit).
      now apply Hpos.
    - destruct its; [congruence | discriminate]. }
  apply gt_positive in Hsum. rewrite Hsum.
  destruct its; [congruence | reflexivity].
Qed.

(** ** [extractReceiptData] *)

Section Extraction.

Context {H : Host}.

(** C1 (amended).  The total the label patterns detect is 0 when no line
    matches one of them and the largest matched value otherwise, a line
    giving each pattern the value of its leftmost match; the [totalAmount]
    that [extractReceiptData] returns is that detected total whenever it
    is positive or no line item was extracted. *)
Theorem total_is_max_unless_fallback (text : string) :
  let lines := linesOf text in
  let detected := totalLoop lines in
  (totalMatches lines = [] -> detected = zero) /\
  (totalMatches lines <> [] -> isMaxOf detected (totalMatches lines)) /\
  (positive detected \/ items (extractReceiptData text) = [] ->
   totalAmount (extractReceiptData text) = detected) /\
  totalAmount (extractReceiptData "TOTAL $45.00") = num 45.00.
Proof.
  cbv zeta. destruct (totalLoop_max (linesOf text)) as [Hnone Hmax].
  split; [exact Hnone|]. split; [exact Hmax|]. split.
  - intros Hkeep. unfold extractReceiptData. cbn [totalAmount items] in *.
    now apply totalFallback_keeps.
  - unfold extractReceiptData. cbn [totalAmount]. vm_compute. reflexivity.
Qed.

(** C2.  The tax loop leaves its inner loop at the first pattern that
    matches but goes on to the next line: [taxAmount] is 0 when no line
    matches and otherwise the value read on the last matching line.  On
    "TAX 0.90" followed by "VAT 1.50" the first match reads 0.90 and
    [taxAmount] is 1.50. *)
Theorem tax_last_matching_line_wins :
  (forall text,
     (forall line, In line (linesOf text) -> taxMatch line = None) ->
     taxAmount (extractReceiptData text) = zero) /\
  (forall text pre line post v,
     linesOf text = pre ++ line :: post ->
     taxMatch line = Some v ->
     (forall l, In l post -> taxMatch l = None) ->
     taxAmount (extractReceiptData text) = v) /\
  taxMatch "TAX 0.90" = Some (num 0.90) /\
  taxMatch "VAT 1.50" = Some (num 1.50) /\
  taxAmount (extractReceiptData (joinLines ["TAX 0.90"; "VAT 1.50"])) =
  num 1.50.
Proof.
  split; [|split].
  - intros text Hnone. unfold extractReceiptData. cbn [taxAmount].
    now apply taxLoop_no_match.
  - intros text pre line post v Hlines Hv Hpost.
    unfold extractReceiptData. cbn [taxAmount]. rewrite Hlines.
    now apply taxLoop_last_match.
  - split; [vm_compute; reflexivity|].
    split; [vm_compute; reflexivity|].
    unfold extractReceiptData. cbn [taxAmount]. vm_compute. reflexivity.
Qed.

(** C5.  When the detected total is 0 and at least one item was extracted,
    [totalAmount] is the sum of the item prices; a positive detected total
    is returned as it is.  Two items priced 3.50 and 6.25 give 9.75. *)
Theorem total_fallback_is_item_sum (text : string) :
  let detected := totalLoop (linesOf text) in
  let e := extractReceiptData text in
  (totalMatches (linesOf text) = [] \/ detected = zero ->
   items e <> [] ->
   totalAmount e = sumPrices (items e)) /\
  (positive detected -> totalAmount e = detected) /\
  (forall n1 n2,
     totalFallback zero [LineItem n1 (num 3.50) 1; LineItem n2 (num 6.25) 1]
     = num 9.75) /\
  (forall n1 n2 total,
     positive total ->
     totalFallback total [LineItem n1 (num 3.50) 1; LineItem n2 (num 6.25) 1]
     = total) /\
  let doc := extractReceiptData (joinLines ["Coffee 3.50"; "Bagel 6.25"]) in
  items doc =
    [LineItem "Coffee" (num 3.50) 1; LineItem "Bagel" (num 6.25) 1] /\
  totalAmount doc = num 9.75.
Proof.
  cbv zeta. unfold extractReceiptData. cbn [totalAmount items].
  split; [|split; [|split; [|split; [|split]]]].
  - intros Hzero Hne.
    assert (Hd : totalLoop (linesOf text) = zero).
    { destruct Hzero as [Hnone|Hd]; [|exact Hd].
      now apply totalLoop_max. }
    rewrite Hd. apply totalFallback_sum; [|exact Hne].
    intros it. apply itemLoop_positive.
  - intros Hp. apply totalFallback_keeps. now left.
  - intros n1 n2. vm_compute. reflexivity.
  - intros n1 n2 total Hp. apply totalFallback_keeps. now left.
  - vm_compute. reflexivity.
  - vm_compute. reflexivity.
Qed.


End Extraction.

(** ** [suggestCategory] *)

Lemma keywords_test (lowered : string) (entry : string * list string) :
  existsb (fun keyword => includes lowered keyword) (snd entry) = true <->
  entryMatches lowered entry.
Proof.
  unfold entryMatches. rewrite existsb_exists.
  split; intros (k & Hk & Hin); exists k; split; auto;
    now apply includes_spec.
Qed.

Lemma suggestLoop_first (lowered : string) (pre : list (string * list string)) :
  forall entry post,
    (forall e, In e pre -> ~ entryMatches lowered e) ->
    entryMatches lowered entry ->
    suggestLoop (pre ++ entry :: post) lowered = fst entry.
Proof.
  induction pre as [|[c kws] pre IH]; intros entry post Hpre Hentry.
  - destruct entry as [c kws]. simpl.
    apply keywords_test in Hentry. simpl in Hentry. now rewrite Hentry.
  - simpl.
    destruct (existsb (fun keyword => includes lowered keyword) kws) eqn:Hk.
    + exfalso. apply (Hpre (c, kws)); [now left|].
      now apply keywords_test.
    + apply IH; [|exact Hentry]. intros e He. apply Hpre. now right.
Qed.

Lemma suggestLoop_none (lowered : string)
    (entries : list (string * list string)) :
  (forall e, In e entries -> ~ entryMatches lowered e) ->
  suggestLoop entries lowered = "other-expense".
Proof.
  induction entries as [|[c kws] entries IH]; intros Hn; [reflexivity|].
  simpl.
  destruct (existsb (fun keyword => includes lowered keyword) kws) eqn:Hk.
  - exfalso. apply (Hn (c, kws)); [now left|]. now apply keywords_test.
  - apply IH. intros e He. apply Hn. now right.
Qed.

Lemma suggestLoop_range (lowered : string)
    (entries : list (string * list string)) :
  In (suggestLoop entries lowered) (map fst entries ++ ["other-expense"]).
Proof.
  induction entries as [|[c kws] entries IH]; simpl; [now left|].
  destruct (existsb _ kws); [now left | now right].
Qed.

Lemma suggestCategory_range (merchantName : string) :
  In (suggestCategory merchantName) suggestions.
Proof. apply (suggestLoop_range _ categoryKeywords). Qed.

Lemma suggestCategory_not_income (merchantName : string) :
  suggestCategory merchantName <> "other-income".
Proof.
  pose proof (suggestCategory_range merchantName) as Hin.
  intros E. rewrite E in Hin. simpl in Hin.
  repeat (destruct Hin as [Hin|Hin]; [discriminate Hin|]). exact Hin.
Qed.

(** C6.  [suggestCategory] lowers the name and goes through the keyword
    sets in the order food, groceries, gas, shopping, healthcare,
    entertainment, transportation, utilities: it returns the first
    category one of whose keywords occurs in the lowered name, and
    "other-expense" when there is none. *)
Theorem suggestCategory_first_match (merchantName : string) :
  map fst categoryKeywords =
    ["food"; "groceries"; "gas"; "shopping"; "healthcare"; "entertainment";
     "transportation"; "utilities"] /\
  (forall pre entry post,
     categoryKeywords = pre ++ entry :: post ->
     (forall e, In e pre -> ~ entryMatches (toLowerCase merchantName) e) ->
     entryMatches (toLowerCase merchantName) entry ->
     suggestCategory merchantName = fst entry) /\
  ((forall e, In e categoryKeywords ->
              ~ entryMatches (toLowerCase merchantName) e) ->
   suggestCategory merchantName = "other-expense") /\
  suggestCategory "Shell Gas Station" = "gas" /\
  suggestCategory "Unknown Biz" = "other-expense".
Proof.
  split; [reflexivity|]. split; [|split; [|split]].
  - intros pre entry post E Hpre Hentry. unfold suggestCategory.
    rewrite E. now apply suggestLoop_first.
  - intros Hn. unfold suggestCategory. now apply suggestLoop_none.
  - vm_compute. reflexivity.
  - vm_compute. reflexivity.
Qed.

(** C9.  [suggestCategory] returns one of nine strings and returns each of
    them for some name.  Against the expense categories of the model,
    "food", "utilities" and "other-expense" fail the validator and the six
    others pass; the model lists "food-dining" and "bills-utilities". *)
Theorem suggestions_against_taxonomy :
  (forall merchantName, In (suggestCategory merchantName) suggestions) /\
  (forall c, In c suggestions ->
             exists merchantName, suggestCategory merchantName = c) /\
  (forall c, In c suggestions ->
             (Transaction.validator "expense" c = false <->
              In c ["food"; "utilities"; "other-expense"])) /\
  In "food-dining" (Transaction.getCategoriesByType "expense") /\
  In "bills-utilities" (Transaction.getCategoriesByType "expense").
Proof.
  split; [exact suggestCategory_range|]. split; [|split; [|split]].
  - intros c Hc. simpl in Hc.
    destruct Hc as [<-|[<-|[<-|[<-|[<-|[<-|[<-|[<-|[<-|[]]]]]]]]]].
    + now exists "food".
    + now exists "grocery".
    + now exists "gas".
    + now exists "shop".
    + now exists "clinic".
    + now exists "movie".
    + now exists "taxi".
    + now exists "water".
    + now exists "".
  - intros c Hc. simpl in Hc.
    destruct Hc as [<-|[<-|[<-|[<-|[<-|[<-|[<-|[<-|[<-|[]]]]]]]]]];
      vm_compute;
      (split;
       [ first [ intros _; tauto | discriminate ]
       | first [ reflexivity
               | intros [E|[E|[E|[]]]]; discriminate E ] ]).
  - vm_compute. tauto.
  - vm_compute. tauto.
Qed.

(** ** History mode *)

Lemma linesOf_spec (text line : string) :
  In line (linesOf text) <->
  line <> EmptyString /\ exists raw, In raw (split LF text) /\ line = trim raw.
Proof.
  unfold linesOf. rewrite filter_In, in_map_iff, Nat.ltb_lt. split.
  - intros [(raw & <- & Hraw) Hlen]. split.
    + intros E. rewrite E in Hlen. simpl in Hlen. lia.
    + now exists raw.
  - intros [Hne (raw & Hraw & ->)]. split.
    + now exists raw.
    + destruct (trim raw); [congruence | simpl; lia].
Qed.


(** ** [parseTransactionHistory] *)

Lemma sign_class (c : ascii) :
  classMatch false [Chr "$"; Chr "-"] c = true ->
  c = "$"%char \/ c = "-"%char.
Proof.
  unfold classMatch. cbn [existsb atomMatch].
  rewrite orb_false_r, orb_true_iff, !Ascii.eqb_eq.
  intros [<-|<-]; auto.
Qed.

(** The matched text of a row ends with an optional "$" or "-" followed by
    the captured amount: the sign is outside the capture. *)
Lemma transactionPattern_sign (line : string) (m : matchArray) :
  jsMatch line transactionPattern = Some m ->
  exists before sign,
    matched m = (before ++ sign ++ group 3 m)%string /\
    (sign = "" \/ sign = "$" \/ sign = "-").
Proof.
  intros Hm. apply jsMatch_sound in Hm.
  destruct Hm as (segs & HF & Hmat & Hg).
  unfold group. rewrite Hg, Hmat. clear Hg Hmat.
  unfold transactionPattern in *.
  cbn [nodes flatten flat_map repsOf one opt plus decimal app] in HF.
  invert_segments.
  cbn [nodes captures one opt plus decimal List.length firstn skipn tl nth
       Nat.sub].
  match goal with
  | Hs : segOk _ (Rep [Chr "$"; Chr "-"] _ _ _) ?sg |- _ =>
      rename Hs into Hsign; set (sign := sg) in *
  end.
  match goal with
  | |- context [Regex.concat [?a; ?b; ?c; ?d; ?e; ?f; ?g; ?h; sign; ?i;
                               ?j; ?k]] =>
      exists (Regex.concat [a; b; c; d; e; f; g; h]), sign
  end.
  split.
  - unfold Regex.concat. cbn [fold_right].
    rewrite !append_assoc. reflexivity.
  - destruct Hsign as (Hall & _ & Hhi). specialize (Hhi 1 eq_refl).
    destruct sign as [|c [|c' rest]]; [now left | | simpl in Hhi; lia].
    right. cbn [ignoreCase allChars] in Hall. rewrite andb_true_r in Hall.
    apply sign_class in Hall. destruct Hall as [-> | ->]; auto.
Qed.

Section History.

Context {H : Host}.

Lemma rowStep_push (acc : list suggestedTransaction) (line : string) :
  rowStep acc line = acc ++ rowStep [] line.
Proof.
  unfold rowStep.
  destruct (jsMatch line transactionPattern) as [m|];
    [|now rewrite app_nil_r].
  destruct (parseDate (group 1 m)); [|now rewrite app_nil_r].
  destruct (gt (parseFloat (group 3 m)) zero);
    [reflexivity | now rewrite app_nil_r].
Qed.

Lemma parseTransactionHistory_flat_map (text : string) :
  parseTransactionHistory text = flat_map (rowStep []) (linesOf text).
Proof.
  unfold parseTransactionHistory.
  now rewrite (fold_left_push rowStep (rowStep []) _ rowStep_push).
Qed.

Lemma rowStep_row (line : string) (t : suggestedTransaction) :
  In t (rowStep [] line) ->
  positive (amount t) /\
  paymentMethod t = Some "bank-transfer" /\
  (type t = "income" <-> category t = "other-income") /\
  (type t = "income" <->
   occursInCI "deposit" (description t) \/
   occursInCI "salary" (description t) \/
   occursInCI "payment received" (description t) \/
   occursIn "+" line).
Proof.
  unfold rowStep.
  destruct (jsMatch line transactionPattern) as [m|]; [|intros []].
  destruct (parseDate (group 1 m)) as [d|]; [|intros []].
  destruct (gt (parseFloat (group 3 m)) zero) eqn:Hpos; [|intros []].
  apply gt_positive in Hpos.
  intros [<-|[]]. cbn [amount paymentMethod type category description].
  split; [exact Hpos|]. split; [reflexivity|].
  unfold occursInCI. rewrite <- !includes_spec, <- !orb_true_iff, !orb_assoc.
  destruct (_ || _ || _ || _); split.
  - tauto.
  - tauto.
  - split; [discriminate|].
    intros E. now apply suggestCategory_not_income in E.
  - split; discriminate.
Qed.

Lemma rowStep_kind (line : string) (t : suggestedTransaction) :
  In t (rowStep [] line) -> type t = "income" \/ type t = "expense".
Proof.
  unfold rowStep.
  destruct (jsMatch line transactionPattern) as [m|]; [|intros []].
  destruct (parseDate (group 1 m)) as [d|]; [|intros []].
  destruct (gt (parseFloat (group 3 m)) zero); [|intros []].
  intros [<-|[]]. cbn [type]. destruct (_ || _); auto.
Qed.

(** C3.  The row pattern admits only "$" or "-" between the white space
    and the digits of the amount: the row
    "01/05/2024 Salary Deposit +2000.00" does not match it and yields no
    transaction, while the same row without the "+" yields the income
    transaction of 2000.00.  A row that is emitted has type "income"
    exactly when its description contains "deposit", "salary" or
    "payment received", whatever the case, or its line contains "+", and
    type "expense" otherwise. *)
Theorem plus_signed_row_is_dropped :
  jsMatch "01/05/2024 Salary Deposit +2000.00" transactionPattern = None /\
  parseTransactionHistory "01/05/2024 Salary Deposit +2000.00" = [] /\
  rowStep [] "01/05/2024 Salary Deposit 2000.00" =
    match parseDate "01/05/2024" with
    | Some d =>
        [SuggestedTransaction "income" (num 2000.00) "Salary Deposit"
           "other-income" d None (Some "bank-transfer") None]
    | None => []
    end /\
  (forall line t,
     In t (rowStep [] line) ->
     (type t = "income" <->
      occursInCI "deposit" (description t) \/
      occursInCI "salary" (description t) \/
      occursInCI "payment received" (description t) \/
      occursIn "+" line) /\
     (type t = "income" \/ type t = "expense")).
Proof.
  split; [vm_compute; reflexivity|].
  split; [vm_compute; reflexivity|].
  split.
  - unfold rowStep.
    replace (jsMatch "01/05/2024 Salary Deposit 2000.00" transactionPattern)
      with (Some (MatchArray 0 "01/05/2024 Salary Deposit 2000.00"
                    ["01/05/2024"; "Salary Deposit"; "2000.00"]))
      by (vm_compute; reflexivity).
    cbv zeta. cbn [group nth Nat.sub groups].
    destruct (parseDate "01/05/2024"); reflexivity.
  - intros line t Hin. split; [now apply rowStep_row in Hin|].
    now apply rowStep_kind in Hin.
Qed.

(** C10.  Every transaction of [parseTransactionHistory] has a positive
    amount and the payment method "bank-transfer", and its type is
    "income" exactly when its category is "other-income".  In a match of
    the row pattern the amount follows an optional "$" or "-" that stays
    outside the capture: the capture holds digits and points only, so the
    amount read from it is never negative, and the row
    "01/05/2024 Coffee -4.50" comes out as an expense of 4.50. *)
Theorem history_rows_are_positive :
  (forall text t,
     In t (parseTransactionHistory text) ->
     positive (amount t) /\
     paymentMethod t = Some "bank-transfer" /\
     (type t = "income" <-> category t = "other-income")) /\
  (forall line m,
     jsMatch line transactionPattern = Some m ->
     (exists before sign,
        matched m = (before ++ sign ++ group 3 m)%string /\
        (sign = "" \/ sign = "$" \/ sign = "-")) /\
     allChars isDecimalChar (group 3 m) = true /\
     includes (group 3 m) "-" = false /\
     exists q, parseFloat (group 3 m) = Num q /\ (0 <= q)%Q) /\
  (forall d,
     parseDate "01/05/2024" = Some d ->
     parseTransactionHistory "01/05/2024 Coffee -4.50" =
       [SuggestedTransaction "expense" (num 4.50) "Coffee" "other-expense" d
          None (Some "bank-transfer") None]).
Proof.
  split; [|split].
  - intros text t Hin. rewrite parseTransactionHistory_flat_map in Hin.
    apply in_flat_map in Hin. destruct Hin as (line & _ & Ht).
    apply rowStep_row in Ht. tauto.
  - intros line m Hm.
    pose proof (transactionPattern_capture line m Hm) as Hcap.
    split; [now apply transactionPattern_sign with line|].
    split; [apply Hcap|]. split.
    + apply (allChars_not_includes isDecimalChar); [reflexivity | apply Hcap].
    + destruct (parseFloat_decimalText _ Hcap) as (q & Hq & Hnn & _).
      now exists q.
  - intros d Hd. unfold parseTransactionHistory.
    replace (linesOf "01/05/2024 Coffee -4.50")
      with ["01/05/2024 Coffee -4.50"] by (vm_compute; reflexivity).
    cbn [fold_left]. unfold rowStep.
    replace (jsMatch "01/05/2024 Coffee -4.50" transactionPattern)
      with (Some (MatchArray 0 "01/05/2024 Coffee -4.50"
                    ["01/05/2024"; "Coffee"; "4.50"]))
      by (vm_compute; reflexivity).
    cbv zeta. cbn [group nth Nat.sub groups]. rewrite Hd. reflexivity.
Qed.

End History.

(** ** The upload routes *)

Section Uploads.

Context {H : Host}.

(** C8.  For an uploaded file, when the OCR engine fails the image route
    answers 200 with the manual-entry suggestion, and so does the PDF
    route when the download or the PDF reader fails: an expense of amount
    0, category "other-expense", description "Manual entry required",
    dated now.  Neither answers with an error status. *)
Theorem decoding_failure_yields_placeholder (req : request)
    (f : uploadedFile) :
  file req = Some f ->
  (recognize (path f) = None ->
   exists d,
     uploadImage req =
       Response 200 true "Receipt uploaded but OCR processing failed"
         (Some d) /\
     suggestedTx d = Some (manualEntry f)) /\
  (fetch (path f) = None \/
   (exists buffer, fetch (path f) = Some buffer /\ pdfParse buffer = None) ->
   exists d,
     uploadPdf req =
       Response 200 true "PDF uploaded but processing failed" (Some d) /\
     suggestedTx d = Some (manualEntry f)) /\
  type (manualEntry f) = "expense" /\
  amount (manualEntry f) = zero /\
  category (manualEntry f) = "other-expense" /\
  description (manualEntry f) = "Manual entry required" /\
  txDate (manualEntry f) = now.
Proof.
  intros Hfile. split; [|split; [|repeat split]].
  - intros Hocr. unfold uploadImage, uploadImageTry, uploadImageCatch.
    rewrite Hfile, Hocr. eexists. split; reflexivity.
  - intros Hpdf. unfold uploadPdf, uploadPdfTry, uploadPdfCatch.
    rewrite Hfile.
    destruct Hpdf as [Hfetch | (buffer & Hfetch & Hparse)].
    + rewrite Hfetch. eexists. split; reflexivity.
    + rewrite Hfetch, Hparse. eexists. split; reflexivity.
Qed.

End Uploads.

(** ** The statements at concrete documents *)

(** C1, as stated, fails on a document without a total line and with one
    item: nothing matches the total patterns, and [totalAmount] is the
    price of the item. *)
Lemma total_without_match_is_not_zero :
  ~ totalIsMaxOrZero (H := SampleHost.host) "Burger 8.50".
Proof.
  unfold totalIsMaxOrZero. cbv zeta. intros [Hnone _].
  assert (Hm : totalMatches (linesOf "Burger 8.50") = [])
    by (vm_compute; reflexivity).
  specialize (Hnone Hm). vm_compute in Hnone. discriminate Hnone.
Qed.

Lemma total_is_max_unless_fallback_witness :
  let doc := joinLines ["Subtotal 10.00"; "Total: $12.40"] in
  isMaxOf (totalLoop (linesOf doc)) (totalMatches (linesOf doc)) /\
  totalAmount (extractReceiptData (H := SampleHost.host) doc) =
  totalLoop (linesOf doc).
Proof.
  cbv zeta.
  destruct (total_is_max_unless_fallback (H := SampleHost.host)
              (joinLines ["Subtotal 10.00"; "Total: $12.40"]))
    as (_ & Hmax & Hkeep & _).
  split.
  - apply Hmax. vm_compute. discriminate.
  - apply Hkeep. left. vm_compute. reflexivity.
Defined.

Lemma tax_last_matching_line_wins_witness :
  taxAmount (extractReceiptData (H := SampleHost.host)
               (joinLines ["TAX 0.90"; "VAT 1.50"; "Thank you"])) = num 1.50 /\
  taxAmount (extractReceiptData (H := SampleHost.host) "Thank you") = zero.
Proof.
  destruct (tax_last_matching_line_wins (H := SampleHost.host))
    as (Hnone & Hlast & _).
  split.
  - apply (Hlast _ ["TAX 0.90"] "VAT 1.50" ["Thank you"]).
    + vm_compute. reflexivity.
    + vm_compute. reflexivity.
    + intros l [<-|[]]. vm_compute. reflexivity.
  - apply Hnone. intros line Hin.
    assert (Hl : linesOf "Thank you" = ["Thank you"])
      by (vm_compute; reflexivity).
    rewrite Hl in Hin. destruct Hin as [<-|[]]. vm_compute. reflexivity.
Defined.

Lemma plus_signed_row_is_dropped_witness :
  let row :=
    SuggestedTransaction (H := SampleHost.host) "income" (num 2000.00)
      "Salary Deposit" "other-income" (1, 5, 2024) None
      (Some "bank-transfer") None in
  occursInCI "deposit" (description row) \/
  occursInCI "salary" (description row) \/
  occursInCI "payment received" (description row) \/
  occursIn "+" "01/05/2024 Salary Deposit 2000.00".
Proof.
  cbv zeta.
  destruct (plus_signed_row_is_dropped (H := SampleHost.host))
    as (_ & _ & Hrow & Hrule).
  assert (Hdate : parseDate (Host := SampleHost.host) "01/05/2024" =
                  Some (1, 5, 2024)) by (vm_compute; reflexivity).
  rewrite Hdate in Hrow.
  refine (proj1 (proj1 (Hrule "01/05/2024 Salary Deposit 2000.00" _ _)) _).
  - rewrite Hrow. left. reflexivity.
  - reflexivity.
Defined.

Lemma total_fallback_is_item_sum_witness :
  let doc := joinLines ["Coffee 3.50"; "Bagel 6.25"] in
  let bill := joinLines ["Coffee 3.50"; "Total 4.00"] in
  totalAmount (extractReceiptData (H := SampleHost.host) doc) =
    sumPrices (items (extractReceiptData (H := SampleHost.host) doc)) /\
  totalAmount (extractReceiptData (H := SampleHost.host) bill) =
    totalLoop (linesOf bill).
Proof.
  cbv zeta. split.
  - destruct (total_fallback_is_item_sum (H := SampleHost.host)
                (joinLines ["Coffee 3.50"; "Bagel 6.25"])) as (Hsum & _).
    apply Hsum.
    + left. vm_compute. reflexivity.
    + vm_compute. discriminate.
  - destruct (total_fallback_is_item_sum (H := SampleHost.host)
                (joinLines ["Coffee 3.50"; "Total 4.00"])) as (_ & Hkeep & _).
    apply Hkeep. vm_compute. reflexivity.
Defined.


Lemma suggestCategory_first_match_witness :
  suggestCategory "Shell Gas Station" = "gas" /\
  suggestCategory "Unknown Biz" = "other-expense".
Proof.
  split.
  - destruct (suggestCategory_first_match "Shell Gas Station")
      as (_ & Hfirst & _).
    apply (Hfirst (firstn 2 categoryKeywords)
             ("gas", ["gas"; "fuel"; "shell"; "exxon"; "bp"; "chevron";
                      "mobil"])
             (skipn 3 categoryKeywords)).
    + vm_compute. reflexivity.
    + intros e He Hm. apply keywords_test in Hm.
      simpl in He. destruct He as [<-|[<-|[]]]; vm_compute in Hm;
        discriminate Hm.
    + apply keywords_test. vm_compute. reflexivity.
  - destruct (suggestCategory_first_match "Unknown Biz") as (_ & _ & Hnone & _).
    apply Hnone. intros e He Hm. apply keywords_test in Hm.
    simpl in He.
    destruct He as [<-|[<-|[<-|[<-|[<-|[<-|[<-|[<-|[]]]]]]]]];
      vm_compute in Hm; discriminate Hm.
Defined.

Lemma suggestions_against_taxonomy_witness :
  (exists merchantName, suggestCategory merchantName = "utilities") /\
  Transaction.validator "expense" "utilities" = false /\
  Transaction.validator "expense" "gas" <> false.
Proof.
  destruct suggestions_against_taxonomy as (_ & Hsome & Hvalid & _).
  split; [|split].
  - apply Hsome. vm_compute. tauto.
  - apply (Hvalid "utilities"); vm_compute; tauto.
  - intros Hf. apply (Hvalid "gas") in Hf; [|vm_compute; tauto].
    vm_compute in Hf. destruct Hf as [E|[E|[E|[]]]]; discriminate E.
Defined.


Lemma history_rows_are_positive_witness :
  let row :=
    SuggestedTransaction (H := SampleHost.host) "expense" (num 4.50) "Coffee"
      "other-expense" (1, 5, 2024) None (Some "bank-transfer") None in
  parseTransactionHistory (H := SampleHost.host) "01/05/2024 Coffee -4.50"
    = [row] /\
  positive (amount row) /\
  includes "4.50" "-" = false.
Proof.
  cbv zeta.
  destruct (history_rows_are_positive (H := SampleHost.host))
    as (Hrows & Hsign & Hrow).
  assert (Hdate : parseDate (Host := SampleHost.host) "01/05/2024" =
                  Some (1, 5, 2024)) by (vm_compute; reflexivity).
  pose proof (Hrow (1, 5, 2024) Hdate) as Hparse.
  split; [exact Hparse|]. split.
  - refine (proj1 (Hrows "01/05/2024 Coffee -4.50" _ _)).
    rewrite Hparse. left. reflexivity.
  - assert (Hm : jsMatch "01/05/2024 Coffee -4.50" transactionPattern =
                 Some (MatchArray 0 "01/05/2024 Coffee -4.50"
                         ["01/05/2024"; "Coffee"; "4.50"]))
      by (vm_compute; reflexivity).
    exact (proj1 (proj2 (proj2 (Hsign _ _ Hm)))).
Defined.

Lemma decoding_failure_yields_placeholder_witness :
  let f := UploadedFile "receipts/r1.png" "r1" in
  exists d,
    uploadImage (H := SampleHost.host) (Request (Some f)) =
      Response 200 true "Receipt uploaded but OCR processing failed" (Some d) /\
    suggestedTx d = Some (manualEntry f).
Proof.
  cbv zeta.
  apply (decoding_failure_yields_placeholder (H := SampleHost.host)
           (Request (Some (UploadedFile "receipts/r1.png" "r1")))
           (UploadedFile "receipts/r1.png" "r1")).
  - reflexivity.
  - reflexivity.
Defined.

(** ** Further facts: the lines of a document *)

Import Spec2.

Lemma split_cons (sep a : ascii) (r : string) :
  split sep (String a r) =
  if Ascii.eqb a sep then EmptyString :: split sep r
  else match split sep r with
       | h :: t => String a h :: t
       | [] => [String a EmptyString]
       end.
Proof. reflexivity. Qed.

Lemma split_not_nil (sep : ascii) (s : string) : split sep s <> [].
Proof.
  induction s as [|a r IH]; [discriminate|].
  rewrite split_cons. destruct (Ascii.eqb a sep); [discriminate|].
  destruct (split sep r); discriminate.
Qed.

(** Splitting distributes over a separator. *)
Lemma split_app (sep : ascii) (s t : string) :
  split sep (s ++ String sep t)%string = split sep s ++ split sep t.
Proof.
  induction s as [|a r IH].
  - cbn [String.append]. rewrite split_cons, Ascii.eqb_refl. reflexivity.
  - cbn [String.append]. rewrite !split_cons, IH.
    destruct (Ascii.eqb a sep); [reflexivity|].
    pose proof (split_not_nil sep r) as Hne.
    destruct (split sep r) as [|h tl]; [congruence | reflexivity].
Qed.

Lemma split_pieces (p : ascii -> bool) (sep : ascii) (s : string) :
  p sep = true ->
  (allChars p s = true <->
   forall piece, In piece (split sep s) -> allChars p piece = true).
Proof.
  intros Hsep. induction s as [|a r IH].
  - split; [intros _ piece [<-|[]]; reflexivity | reflexivity].
  - rewrite split_cons. cbn [allChars]. rewrite andb_true_iff, IH.
    destruct (Ascii.eqb a sep) eqn:Ha.
    + apply Ascii.eqb_eq in Ha. subst a. split.
      * intros [_ Hr] piece [<-|Hin]; [reflexivity | now apply Hr].
      * intros Hall. split; [exact Hsep|].
        intros piece Hin. apply Hall. now right.
    + pose proof (split_not_nil sep r) as Hne.
      destruct (split sep r) as [|h tl]; [congruence|]. split.
      * intros [Hpa Hr] piece [<-|Hin].
        -- cbn [allChars]. rewrite Hpa. apply Hr. now left.
        -- apply Hr. now right.
      * intros Hall.
        pose proof (Hall (String a h) (or_introl eq_refl)) as Hh.
        cbn [allChars] in Hh. apply andb_true_iff in Hh.
        destruct Hh as [Hpa Hh]. split; [exact Hpa|].
        intros piece [<-|Hin]; [exact Hh | apply Hall; now right].
Qed.

Lemma split_no_separator (sep : ascii) (s piece : string) :
  In piece (split sep s) ->
  allChars (fun c => negb (Ascii.eqb c sep)) piece = true.
Proof.
  revert piece. induction s as [|a r IH]; intros piece Hin.
  - destruct Hin as [<-|[]]. reflexivity.
  - rewrite split_cons in Hin. destruct (Ascii.eqb a sep) eqn:Ha.
    + destruct Hin as [<-|Hin]; [reflexivity | now apply IH].
    + pose proof (split_not_nil sep r) as Hne.
      destruct (split sep r) as [|h tl]; [congruence|].
      destruct Hin as [<-|Hin].
      * cbn [allChars]. rewrite Ha. apply IH. now left.
      * apply IH. now right.
Qed.

Lemma trimStart_cons (a : ascii) (r : string) :
  trimStart (String a r) = if isSpace a then trimStart r else String a r.
Proof. reflexivity. Qed.

Lemma trimEnd_cons (a : ascii) (r : string) :
  trimEnd (String a r) =
  match trimEnd r with
  | EmptyString => if isSpace a then EmptyString else String a EmptyString
  | r' => String a r'
  end.
Proof. reflexivity. Qed.

Lemma trimEnd_head (a : ascii) (r : string) :
  isSpace a = false -> trimEnd (String a r) = String a (trimEnd r).
Proof.
  intros Ha. rewrite trimEnd_cons, Ha. now destruct (trimEnd r).
Qed.

Lemma trimStart_blank (s : string) :
  trimStart s = EmptyString <-> allChars isSpace s = true.
Proof.
  induction s as [|a r IH]; [easy|].
  rewrite trimStart_cons. cbn [allChars].
  destruct (isSpace a); [exact IH | easy].
Qed.

Lemma trimStart_head (s : string) (a : ascii) (r : string) :
  trimStart s = String a r -> isSpace a = false.
Proof.
  induction s as [|b t IH]; [discriminate|].
  rewrite trimStart_cons. destruct (isSpace b) eqn:Hb; [exact IH|].
  intros E. injection E as <- _. exact Hb.
Qed.

Lemma trimEnd_blank (s : string) :
  trimEnd s = EmptyString <-> allChars isSpace s = true.
Proof.
  induction s as [|a r IH]; [easy|].
  rewrite trimEnd_cons. cbn [allChars].
  destruct (trimEnd r) as [|b t] eqn:Hr.
  - destruct (isSpace a); [|easy]. simpl. tauto.
  - split; [discriminate|]. rewrite andb_true_iff. intros [_ Hall].
    apply IH in Hall. discriminate.
Qed.

Lemma trimEnd_last (s : string) :
  trimEnd s = EmptyString \/
  exists r b, trimEnd s = (r ++ String b EmptyString)%string /\
              isSpace b = false.
Proof.
  induction s as [|a r IH]; [now left|].
  rewrite trimEnd_cons.
  destruct (trimEnd r) as [|c t] eqn:Hr.
  - destruct (isSpace a) eqn:Ha; [now left|].
    right. exists EmptyString, a. auto.
  - right. destruct IH as [E|(q & b & E & Hb)]; [discriminate|].
    exists (String a q), b. cbn [String.append]. now rewrite <- E.
Qed.

Lemma trimEnd_idempotent (s : string) : trimEnd (trimEnd s) = trimEnd s.
Proof.
  induction s as [|a r IH]; [reflexivity|].
  rewrite trimEnd_cons.
  destruct (trimEnd r) as [|c t] eqn:Hr.
  - destruct (isSpace a) eqn:Ha; [reflexivity|].
    rewrite trimEnd_cons. cbn [trimEnd]. now rewrite Ha.
  - rewrite trimEnd_cons, IH. reflexivity.
Qed.

Lemma allChars_trimStart (p : ascii -> bool) (s : string) :
  allChars p s = true -> allChars p (trimStart s) = true.
Proof.
  induction s as [|a r IH]; [easy|].
  rewrite trimStart_cons. destruct (isSpace a); [|easy].
  cbn [allChars]. rewrite andb_true_iff. intros [_ Hr]. now apply IH.
Qed.

Lemma allChars_trimEnd (p : ascii -> bool) (s : string) :
  allChars p s = true -> allChars p (trimEnd s) = true.
Proof.
  induction s as [|a r IH]; [easy|].
  rewrite trimEnd_cons. cbn [allChars]. rewrite andb_true_iff.
  intros [Ha Hr]. specialize (IH Hr).
  destruct (trimEnd r) as [|c t].
  - destruct (isSpace a); [reflexivity|]. cbn [allChars]. now rewrite Ha.
  - cbn [allChars] in *. now rewrite Ha.
Qed.

Lemma trim_blank (s : string) :
  trim s = EmptyString <-> allChars isSpace s = true.
Proof.
  unfold trim. rewrite trimEnd_blank. split.
  - intros Hall. destruct (trimStart s) as [|a r] eqn:Hs.
    + now apply trimStart_blank.
    + apply trimStart_head in Hs. cbn [allChars] in Hall.
      rewrite Hs in Hall. discriminate.
  - intros Hall. now apply allChars_trimStart.
Qed.

Lemma trim_tight (s : string) : trim s <> EmptyString -> tight (trim s).
Proof.
  unfold trim, tight. intros Hne. split.
  - destruct (trimStart s) as [|a r] eqn:Hs; [now contradict Hne|].
    apply trimStart_head in Hs. rewrite trimEnd_head by exact Hs.
    exists a, (trimEnd r). auto.
  - destruct (trimEnd_last (trimStart s)) as [E|Hlast]; [contradiction|].
    exact Hlast.
Qed.

Lemma trim_idempotent (s : string) : trim (trim s) = trim s.
Proof.
  unfold trim.
  destruct (trimStart s) as [|a r] eqn:Hs; [reflexivity|].
  apply trimStart_head in Hs. rewrite trimEnd_head by exact Hs.
  rewrite trimStart_cons, Hs, trimEnd_head by exact Hs.
  now rewrite trimEnd_idempotent.
Qed.

Lemma linesOf_app (t1 t2 : string) :
  linesOf (t1 ++ String LF t2)%string = linesOf t1 ++ linesOf t2.
Proof. unfold linesOf. now rewrite split_app, map_app, filter_app. Qed.

Lemma linesOf_nil (text : string) :
  linesOf text = [] <-> allChars isSpace text = true.
Proof.
  rewrite (split_pieces isSpace LF text) by reflexivity.
  unfold linesOf. split.
  - intros Hnil piece Hin. apply trim_blank.
    destruct (trim piece) as [|a r] eqn:Ht; [reflexivity|].
    assert (Hl : In (trim piece)
                   (filter (fun line => 0 <? String.length line)
                      (map (fun line => trim line) (split LF text)))).
    { apply filter_In. split; [now apply in_map | now rewrite Ht]. }
    rewrite Hnil in Hl. destruct Hl.
  - intros Hall.
    destruct (filter _ _) as [|l ls] eqn:Hf; [reflexivity|].
    assert (Hl : In l (l :: ls)) by now left.
    rewrite <- Hf in Hl. apply filter_In in Hl. destruct Hl as [Hin Hlen].
    apply in_map_iff in Hin. destruct Hin as (piece & <- & Hp).
    apply Hall, trim_blank in Hp. rewrite Hp in Hlen. discriminate.
Qed.

Lemma dateLoop_app {H : Host} (l1 l2 : list string) :
  dateLoop (l1 ++ l2) =
  match dateLoop l1 with
  | Some d => Some d
  | None => dateLoop l2
  end.
Proof.
  induction l1 as [|l l1 IH]; [reflexivity|].
  cbn [app dateLoop]. destruct (dateStep datePatterns l); [reflexivity|].
  exact IH.
Qed.

Section Documents.

Context {H : Host}.

(** X1.  Every line the normaliser hands to the extractors is non-empty,
    starts and ends with a character that is not white space, is left
    unchanged by another [trim] and contains no line feed. *)
Theorem lines_are_tight (text line : string) :
  In line (linesOf text) ->
  tight line /\ trim line = line /\
  includes line (String LF EmptyString) = false.
Proof.
  intros Hin. apply linesOf_spec in Hin.
  destruct Hin as (Hne & raw & Hraw & ->). split; [|split].
  - now apply trim_tight.
  - apply trim_idempotent.
  - apply (allChars_not_includes (fun c => negb (Ascii.eqb c LF)));
      [reflexivity|].
    unfold trim. apply allChars_trimEnd, allChars_trimStart.
    now apply split_no_separator with (s := text).
Qed.

(** X2.  A document has no line exactly when all its characters are white
    space (the empty document included).  Such a document gives the empty
    record (no merchant, totals 0, no date, no item), no history row and
    single-receipt mode; and the merchant name is empty only for such a
    document. *)
Theorem blank_text_extracts_nothing (text : string) :
  (linesOf text = [] <-> allChars isSpace text = true) /\
  (allChars isSpace text = true ->
   extractReceiptData text =
     ExtractedData EmptyString EmptyString zero zero None [] /\
   parseTransactionHistory text = [] /\
   isTransactionHistory text = false) /\
  (merchantName (extractReceiptData text) = EmptyString <->
   allChars isSpace text = true).
Proof.
  split; [apply linesOf_nil|]. split.
  - intros Hblank. apply linesOf_nil in Hblank.
    unfold extractReceiptData, parseTransactionHistory, isTransactionHistory.
    rewrite Hblank. repeat split.
  - rewrite <- linesOf_nil. unfold extractReceiptData. cbn [merchantName].
    destruct (linesOf text) as [|l ls] eqn:Hl; [easy|].
    split; [|discriminate]. intros ->.
    assert (Hin : In EmptyString (linesOf text)) by (rewrite Hl; now left).
    apply linesOf_spec in Hin. now destruct Hin.
Qed.

(** X3.  Joining two documents with a line feed joins their lines; the
    items and the history rows of the whole are those of the first part
    followed by those of the second, history mode holds when it holds for
    a part, and the date is the date of the first part when it has one and
    that of the second part otherwise. *)
Theorem documents_compose (t1 t2 : string) :
  let t := (t1 ++ String LF t2)%string in
  linesOf t = linesOf t1 ++ linesOf t2 /\
  items (extractReceiptData t) =
    items (extractReceiptData t1) ++ items (extractReceiptData t2) /\
  parseTransactionHistory t =
    parseTransactionHistory t1 ++ parseTransactionHistory t2 /\
  isTransactionHistory t =
    isTransactionHistory t1 || isTransactionHistory t2 /\
  date (extractReceiptData t) =
    match date (extractReceiptData t1) with
    | Some d => Some d
    | None => date (extractReceiptData t2)
    end.
Proof.
  cbv zeta. split; [apply linesOf_app|]. split; [|split; [|split]].
  - unfold extractReceiptData. cbn [items].
    now rewrite !itemLoop_flat_map, linesOf_app, flat_map_app.
  - now rewrite !parseTransactionHistory_flat_map, linesOf_app, flat_map_app.
  - unfold isTransactionHistory. now rewrite linesOf_app, existsb_app.
  - unfold extractReceiptData. cbn [date].
    rewrite linesOf_app. apply dateLoop_app.
Qed.

End Documents.

Lemma lines_are_tight_witness :
  tight "Burger 8.50" /\ trim "Burger 8.50" = "Burger 8.50".
Proof.
  destruct (lines_are_tight (joinLines ["  Joe's Diner "; " Burger 8.50  "])
              "Burger 8.50") as (Ht & Hi & _).
  - vm_compute. tauto.
  - split; [exact Ht | exact Hi].
Defined.

Lemma blank_text_extracts_nothing_witness :
  parseTransactionHistory (H := SampleHost.host)
    (joinLines ["  "; ""; String (ascii_of_N 9) " "]) = [].
Proof.
  destruct (blank_text_extracts_nothing (H := SampleHost.host)
              (joinLines ["  "; ""; String (ascii_of_N 9) " "]))
    as (_ & Hblank & _).
  apply Hblank. vm_compute. reflexivity.
Defined.

(** ** Further facts: amounts *)

Lemma totalLoop_nonneg (lines : list string) :
  exists q, totalLoop lines = Num q /\ (0 <= q)%Q /\ Qred q = q.
Proof.
  rewrite totalLoop_fold.
  assert (Hnum : forall v, In v (totalMatches lines) -> exists q, v = Num q).
  { intros v Hv. destruct (totalMatches_nonneg lines v Hv) as (q & -> & _).
    now exists q. }
  destruct (keepLarger_fold (totalMatches lines) Hnum 0%Q) as (_ & _ & Hin).
  destruct Hin as [E|Hin].
  - exists 0%Q. split; [exact E|]. split; [apply Qle_refl | reflexivity].
  - now apply totalMatches_nonneg in Hin.
Qed.

Lemma taxMatch_nonneg (line : string) (v : number) :
  taxMatch line = Some v ->
  exists q, v = Num q /\ (0 <= q)%Q /\ Qred q = q.
Proof.
  unfold taxMatch. intros Hv.
  apply (matchedValues_nonneg taxPatterns line); [now right|].
  destruct (matchedValues taxPatterns line) as [|w ws]; [discriminate|].
  injection Hv as <-. now left.
Qed.

Lemma taxLoop_nonneg (lines : list string) :
  exists q, taxLoop lines = Num q /\ (0 <= q)%Q /\ Qred q = q.
Proof.
  unfold taxLoop.
  assert (Hgen : forall tax,
            (exists q, tax = Num q /\ (0 <= q)%Q /\ Qred q = q) ->
            exists q, fold_left (taxStep taxPatterns) lines tax = Num q /\
                      (0 <= q)%Q /\ Qred q = q).
  { induction lines as [|l lines IH]; intros tax Htax; [exact Htax|].
    cbn [fold_left]. apply IH. rewrite taxStep_taxMatch.
    destruct (taxMatch l) as [v|] eqn:Hv; [|exact Htax].
    now apply taxMatch_nonneg in Hv. }
  apply Hgen. exists 0%Q. split; [reflexivity|].
  split; [apply Qle_refl | reflexivity].
Qed.

Lemma nonneg_cases (q : Q) :
  (0 <= q)%Q -> Qred q = q -> positive (Num q) \/ Num q = zero.
Proof.
  intros Hq Hc. destruct (Qlt_le_dec 0 q) as [Hlt|Hle]; [now left|].
  right. apply canonical_zero; [exact Hc|]. now apply Qle_antisym.
Qed.

Lemma sumPrices_positive (its : list lineItem) :
  (forall it, In it its -> positive (price it)) ->
  its <> [] -> positive (sumPrices its).
Proof.
  intros Hpos Hne. unfold sumPrices.
  apply sum_positive; [|apply Qle_refl|].
  - intros p Hp. apply in_map_iff in Hp. destruct Hp as (it & <- & Hit).
    now apply Hpos.
  - destruct its; [congruence | discriminate].
Qed.

Lemma positive_not_zero_eq (a : number) : positive a -> a <> zero.
Proof.
  intros Hp ->. simpl in Hp. now apply Qlt_irrefl in Hp.
Qed.

(** The three ways [totalAmount] comes about. *)
Lemma totalAmount_cases {H : Host} (text : string) :
  let e := extractReceiptData text in
  let d := totalLoop (linesOf text) in
  (positive d /\ totalAmount e = d) \/
  (d = zero /\ items e = [] /\ totalAmount e = zero) \/
  (d = zero /\ items e <> [] /\ totalAmount e = sumPrices (items e) /\
   positive (sumPrices (items e))).
Proof.
  cbv zeta. unfold extractReceiptData. cbn [totalAmount items].
  destruct (totalLoop_nonneg (linesOf text)) as (q & Hd & Hq & Hc).
  rewrite Hd. destruct (nonneg_cases q Hq Hc) as [Hpos|Hz].
  - left. split; [exact Hpos|]. apply totalFallback_keeps. now left.
  - right. rewrite Hz.
    destruct (itemLoop (linesOf text)) as [|it its] eqn:Hits.
    + left. repeat split.
    + right. rewrite <- Hits.
      assert (Hpos : forall it, In it (itemLoop (linesOf text)) ->
                                positive (price it))
        by (intros it'; apply itemLoop_positive).
      assert (Hne : itemLoop (linesOf text) <> []) by (rewrite Hits; easy).
      split; [reflexivity|]. split; [exact Hne|]. split.
      * now apply totalFallback_sum.
      * now apply sumPrices_positive.
Qed.

Section Amounts.

Context {H : Host}.

(** X4.  [totalAmount] and [taxAmount] of [extractReceiptData] are always
    numbers (never [NaN]) that are not negative, and [totalAmount] is at
    least every value a total pattern matched. *)
Theorem amounts_are_never_negative (text : string) :
  let e := extractReceiptData text in
  (exists q, totalAmount e = Num q /\ (0 <= q)%Q) /\
  (exists q, taxAmount e = Num q /\ (0 <= q)%Q) /\
  (forall v, In v (totalMatches (linesOf text)) -> numLe v (totalAmount e)).
Proof.
  cbv zeta.
  destruct (totalLoop_nonneg (linesOf text)) as (q & Hd & Hq & Hc).
  assert (Hdom : exists t, totalAmount (extractReceiptData text) = Num t /\
                           (q <= t)%Q).
  { destruct (totalAmount_cases text)
      as [(_ & E)|[(Hz & _ & E)|(Hz & _ & E & Hp)]].
    - exists q. rewrite E, Hd. split; [reflexivity | apply Qle_refl].
    - exists 0%Q. rewrite E. split; [reflexivity|].
      rewrite Hd in Hz. unfold zero in Hz. injection Hz as ->.
      apply Qle_refl.
    - rewrite E. destruct (sumPrices (items (extractReceiptData text)))
        as [|t]; [contradiction|].
      exists t. split; [reflexivity|].
      rewrite Hd in Hz. unfold zero in Hz. injection Hz as ->.
      now apply Qlt_le_weak. }
  destruct Hdom as (t & Ht & Hqt).
  split; [|split].
  - exists t. split; [exact Ht | now apply Qle_trans with q].
  - unfold extractReceiptData. cbn [taxAmount].
    destruct (taxLoop_nonneg (linesOf text)) as (x & Hx & Hx0 & _).
    now exists x.
  - intros v Hv. rewrite Ht.
    destruct (totalLoop_max (linesOf text)) as [_ Hmax].
    destruct Hmax as [_ Hall]; [intros E; rewrite E in Hv; destruct Hv|].
    specialize (Hall v Hv). rewrite Hd in Hall.
    destruct v as [|x]; [contradiction|]. simpl in *.
    now apply Qle_trans with q.
Qed.

(** X5.  [totalAmount] is 0 exactly when every value the total patterns
    matched is 0 and no item was extracted: any item or any positive
    labelled total makes it positive. *)
Theorem total_is_zero_iff_nothing_found (text : string) :
  let e := extractReceiptData text in
  (totalAmount e = zero <->
   (forall v, In v (totalMatches (linesOf text)) -> v = zero) /\
   items e = []) /\
  (totalAmount e <> zero -> positive (totalAmount e)).
Proof.
  cbv zeta.
  destruct (totalLoop_max (linesOf text)) as [Hnone Hmax].
  assert (Hzero : totalLoop (linesOf text) = zero <->
                  forall v, In v (totalMatches (linesOf text)) -> v = zero).
  { split.
    - intros Hd v Hv.
      destruct Hmax as [_ Hall]; [intros E; rewrite E in Hv; destruct Hv|].
      specialize (Hall v Hv). rewrite Hd in Hall.
      destruct (totalMatches_nonneg _ v Hv) as (x & -> & Hx & Hc).
      apply canonical_zero; [exact Hc|]. now apply Qle_antisym.
    - intros Hall.
      destruct (totalMatches (linesOf text)) as [|v vs] eqn:Hvs;
        [now apply Hnone|].
      destruct Hmax as [Hin _]; [discriminate|]. now apply Hall. }
  split.
  - rewrite <- Hzero.
    destruct (totalAmount_cases text)
      as [(Hp & E)|[(Hz & Hi & E)|(Hz & Hi & E & Hp)]]; rewrite E.
    + split; [|tauto]. intros Hd. now apply positive_not_zero_eq in Hp.
    + tauto.
    + split; [|tauto]. intros Hs. now apply positive_not_zero_eq in Hp.
  - destruct (totalAmount_cases text)
      as [(Hp & E)|[(Hz & Hi & E)|(Hz & Hi & E & Hp)]]; rewrite E;
      tauto.
Qed.

End Amounts.

(** ** Further facts: items *)

Lemma occursIn_refl (s : string) : occursIn s s.
Proof.
  exists EmptyString, EmptyString. cbn [String.append].
  induction s as [|a s IH]; [reflexivity|].
  cbn [String.append]. now rewrite <- IH.
Qed.

Lemma append_nil_r (s : string) : (s ++ EmptyString)%string = s.
Proof. induction s as [|a s IH]; simpl; [reflexivity | now rewrite IH]. Qed.

Lemma occursIn_trans (a b c : string) :
  occursIn a b -> occursIn b c -> occursIn a c.
Proof.
  intros (p1 & q1 & ->) (p2 & q2 & ->).
  exists (p2 ++ p1)%string, (q1 ++ q2)%string.
  now rewrite !append_assoc.
Qed.

Lemma occursIn_prefix (a rest : string) : occursIn a (a ++ rest)%string.
Proof. now exists EmptyString, rest. Qed.

Lemma occursIn_cons (a : string) (c : ascii) (s : string) :
  occursIn a s -> occursIn a (String c s).
Proof. intros (p & q & ->). now exists (String c p), q. Qed.

Lemma toLowerCase_app (s t : string) :
  toLowerCase (s ++ t)%string = (toLowerCase s ++ toLowerCase t)%string.
Proof. induction s as [|a s IH]; simpl; [reflexivity | now rewrite IH]. Qed.

Lemma occursIn_lower (a b : string) :
  occursIn a b -> occursIn (toLowerCase a) (toLowerCase b).
Proof.
  intros (p & q & ->). exists (toLowerCase p), (toLowerCase q).
  now rewrite !toLowerCase_app.
Qed.

Lemma occursInCI_mono (k a b : string) :
  occursIn a b -> occursInCI k a -> occursInCI k b.
Proof.
  unfold occursInCI. intros Hab Hk.
  apply occursIn_trans with (toLowerCase a); [exact Hk|].
  now apply occursIn_lower.
Qed.

Lemma trimStart_occurs (s : string) : occursIn (trimStart s) s.
Proof.
  induction s as [|a r IH]; [apply occursIn_refl|].
  rewrite trimStart_cons. destruct (isSpace a); [|apply occursIn_refl].
  now apply occursIn_cons.
Qed.

Lemma trimEnd_occurs (s : string) : occursIn (trimEnd s) s.
Proof.
  assert (Hpre : exists post, s = (trimEnd s ++ post)%string).
  { induction s as [|a r IH]; [now exists EmptyString|].
    rewrite trimEnd_cons. destruct IH as [post E].
    destruct (trimEnd r) as [|c t].
    - destruct (isSpace a); [now exists (String a r)|].
      exists r. reflexivity.
    - exists post. cbn [String.append] in *. now rewrite <- E. }
  destruct Hpre as [post E]. rewrite E at 2. apply occursIn_prefix.
Qed.

Lemma trim_occurs (s : string) : occursIn (trim s) s.
Proof.
  unfold trim. apply occursIn_trans with (trimStart s);
    [apply trimEnd_occurs | apply trimStart_occurs].
Qed.

(** What a pattern matched is a part of the line. *)
Lemma search_occurs (re : regex) (s : string) :
  forall idx m, search re s idx = Some m -> occursIn (matched m) s.
Proof.
  induction s as [|a s IH]; intros idx m Hs; simpl in Hs.
  - destruct (run (ignoreCase re) (flatten (nodes re)) EmptyString)
      as [segs|] eqn:Hrun; [|discriminate].
    injection Hs as <-. apply run_sound in Hrun.
    destruct Hrun as [_ [rest E]]. cbn [matched]. rewrite E.
    apply occursIn_prefix.
  - destruct (run (ignoreCase re) (flatten (nodes re)) (String a s))
      as [segs|] eqn:Hrun.
    + injection Hs as <-. apply run_sound in Hrun.
      destruct Hrun as [_ [rest E]]. cbn [matched]. rewrite E.
      apply occursIn_prefix.
    + apply occursIn_cons. eapply IH. exact Hs.
Qed.

(** The description of an item match is a part of the line. *)
Lemma itemPattern_description (line : string) (m : matchArray) :
  jsMatch line itemPattern = Some m -> occursIn (group 1 m) line.
Proof.
  intros Hm. pose proof (search_occurs _ _ _ _ Hm) as Hocc.
  apply occursIn_trans with (matched m); [|exact Hocc].
  apply jsMatch_sound in Hm. destruct Hm as (segs & HF & Hmat & Hg).
  unfold group. rewrite Hg, Hmat. clear Hg Hmat Hocc.
  unfold itemPattern in *.
  cbn [nodes flatten flat_map repsOf one opt plus decimal app] in HF.
  invert_segments.
  cbn [nodes captures one opt plus decimal List.length firstn skipn tl nth
       Nat.sub].
  unfold Regex.concat. cbn [fold_right]. rewrite append_nil_r.
  apply occursIn_prefix.
Qed.

Lemma lineItems_name (line : string) (it : lineItem) :
  In it (lineItems line) ->
  labelFree line /\ 2 < String.length (name it) /\
  trim (name it) = name it /\ occursIn (name it) line.
Proof.
  unfold lineItems, itemStep.
  destruct (jsMatch line itemPattern) as [m|] eqn:Hm; [|intros []].
  destruct (negb (includes (toLowerCase line) "total") &&
            negb (includes (toLowerCase line) "tax")) eqn:Hfree;
    [|intros []].
  destruct ((2 <? String.length (trim (group 1 m))) &&
            gt (parseFloat (group 2 m)) zero) eqn:Hok; [|intros []].
  apply andb_true_iff in Hok. destruct Hok as [Hlen _].
  apply Nat.ltb_lt in Hlen. apply labelFree_test in Hfree.
  intros [<-|[]]. cbn [name]. split; [exact Hfree|].
  split; [exact Hlen|]. split; [apply trim_idempotent|].
  apply occursIn_trans with (group 1 m); [apply trim_occurs|].
  now apply itemPattern_description.
Qed.

Lemma flat_map_length_le {A B : Type} (f : A -> list B) (l : list A) :
  (forall x, List.length (f x) <= 1) ->
  List.length (flat_map f l) <= List.length l.
Proof.
  intros Hf. induction l as [|x l IH]; [reflexivity|].
  cbn [flat_map]. rewrite length_app. specialize (Hf x). simpl. lia.
Qed.

Lemma lineItems_at_most_one (line : string) :
  List.length (lineItems line) <= 1.
Proof.
  unfold lineItems, itemStep.
  destruct (jsMatch line itemPattern); [|auto].
  destruct (_ && _); [|auto]. destruct (_ && _); simpl; auto.
Qed.

Section Items.

Context {H : Host}.

(** X6.  Every extracted item has a positive price, quantity 1 and a
    trimmed name of more than two characters that is a part of one line
    of the document and contains neither "total" nor "tax" in any case;
    there are at most as many items as lines. *)
Theorem items_are_well_formed (text : string) :
  (forall it,
     In it (items (extractReceiptData text)) ->
     positive (price it) /\ quantity it = 1 /\
     2 < String.length (name it) /\ trim (name it) = name it /\
     ~ occursInCI "total" (name it) /\ ~ occursInCI "tax" (name it) /\
     exists line, In line (linesOf text) /\ occursIn (name it) line) /\
  List.length (items (extractReceiptData text)) <=
  List.length (linesOf text).
Proof.
  unfold extractReceiptData. cbn [items]. rewrite itemLoop_flat_map. split.
  - intros it Hin. apply in_flat_map in Hin.
    destruct Hin as (line & Hline & Hit).
    destruct (lineItems_positive line it Hit) as [Hpos Hq].
    destruct (lineItems_name line it Hit) as ((Hto & Hta) & Hlen & Htrim & Hocc).
    repeat split; try assumption.
    + intros Hk. apply Hto. now apply occursInCI_mono with (name it).
    + intros Hk. apply Hta. now apply occursInCI_mono with (name it).
    + now exists line.
  - apply flat_map_length_le, lineItems_at_most_one.
Qed.

End Items.

(** ** Further facts: the order of the lines *)

Lemma totalLoop_perm (l1 l2 : list string) :
  Permutation l1 l2 -> totalLoop l1 = totalLoop l2.
Proof.
  intros Hp.
  assert (Hm : Permutation (totalMatches l1) (totalMatches l2))
    by (unfold totalMatches; now apply Permutation_flat_map).
  destruct (totalLoop_max l1) as [Hn1 Hx1].
  destruct (totalLoop_max l2) as [Hn2 Hx2].
  destruct (totalMatches l1) as [|v vs] eqn:Hv1.
  - apply Permutation_nil in Hm. rewrite Hn1, Hn2; auto.
  - assert (Hne2 : totalMatches l2 <> []).
    { intros E. rewrite E in Hm. apply Permutation_sym in Hm.
      now apply Permutation_nil in Hm. }
    destruct Hx1 as [Hin1 Hall1]; [discriminate|].
    destruct Hx2 as [Hin2 Hall2]; [exact Hne2|].
    pose proof (Hall2 _ (Permutation_in _ Hm Hin1)) as H12.
    pose proof (Hall1 _ (Permutation_in _ (Permutation_sym Hm) Hin2)) as H21.
    rewrite <- Hv1 in Hin1.
    destruct (totalMatches_nonneg l1 _ Hin1) as (x & Ex & _ & Hcx).
    destruct (totalMatches_nonneg l2 _ Hin2) as (y & Ey & _ & Hcy).
    rewrite Ex, Ey in *. simpl in H12, H21.
    rewrite <- Hcx, <- Hcy. f_equal. apply Qred_complete.
    now apply Qle_antisym.
Qed.


(** ** Further facts: dates *)

Lemma dateStep_sound {H : Host} (ps : list regex) (line : string) (d : Date) :
  dateStep ps line = Some d ->
  exists pattern m,
    In pattern ps /\ jsMatch line pattern = Some m /\
    parseDate (group 1 m) = Some d.
Proof.
  induction ps as [|p ps IH]; [discriminate|].
  cbn [dateStep]. destruct (jsMatch line p) as [m|] eqn:Hm.
  - destruct (parseDate (group 1 m)) as [d'|] eqn:Hd.
    + intros E. injection E as <-. exists p, m. split; [now left | auto].
    + intros Hs. destruct (IH Hs) as (q & m' & Hq & Hm' & Hd').
      exists q, m'. split; [now right | auto].
  - intros Hs. destruct (IH Hs) as (q & m' & Hq & Hm' & Hd').
    exists q, m'. split; [now right | auto].
Qed.

Lemma dateStep_complete {H : Host} (ps : list regex) (line : string) :
  dateStep ps line = None ->
  forall pattern m,
    In pattern ps -> jsMatch line pattern = Some m ->
    parseDate (group 1 m) = None.
Proof.
  induction ps as [|p ps IH]; [intros _ pattern m []|].
  cbn [dateStep]. intros Hs pattern m [<-|Hin] Hm.
  - rewrite Hm in Hs. destruct (parseDate (group 1 m)); [discriminate|].
    reflexivity.
  - destruct (jsMatch line p) as [m'|].
    + destruct (parseDate (group 1 m')); [discriminate|].
      now apply (IH Hs pattern m).
    + now apply (IH Hs pattern m).
Qed.

Lemma dateLoop_none {H : Host} (lines : list string) :
  dateLoop lines = None <->
  forall line, In line lines -> dateStep datePatterns line = None.
Proof.
  induction lines as [|l lines IH]; [easy|].
  cbn [dateLoop]. destruct (dateStep datePatterns l) as [d|] eqn:Hd.
  - split; [discriminate|]. intros Hall.
    specialize (Hall l (or_introl eq_refl)). congruence.
  - rewrite IH. split.
    + intros Hall line [<-|Hin]; [exact Hd | now apply Hall].
    + intros Hall line Hin. apply Hall. now right.
Qed.

Lemma dateChar_digit (i : bool) (c : ascii) :
  classMatch i [Digit] c = true -> isDateChar c = true.
Proof.
  intros Hc. apply digit_only in Hc. unfold isDateChar. now rewrite Hc.
Qed.

Lemma dateChar_separator (c : ascii) :
  classMatch false slashDash c = true -> isDateChar c = true.
Proof.
  unfold classMatch, slashDash, isDateChar. cbn [existsb atomMatch].
  rewrite orb_false_r, orb_true_iff, !Ascii.eqb_eq.
  intros [<-|<-]; reflexivity.
Qed.

(** Five quantified classes of digits and separators consume between 6
    and 10 date characters. *)
Lemma numeric_date_segments (a b c d e : string) (la ha le he : nat) :
  segOk false (rRange [Digit] la ha) a ->
  segOk false (rOne slashDash) b ->
  segOk false (rRange [Digit] 1 2) c ->
  segOk false (rOne slashDash) d ->
  segOk false (rRange [Digit] le he) e ->
  allChars isDateChar (Regex.concat [a; b; c; d; e]) = true /\
  la + 3 + le <= String.length (Regex.concat [a; b; c; d; e]) <=
  ha + 4 + he.
Proof.
  intros (Ha & La & Ua) (Hb & Lb & Ub) (Hc & Lc & Uc) (Hd & Ld & Ud)
    (He & Le & Ue).
  cbn [cls lo hi rRange rOne] in *.
  specialize (Ua _ eq_refl). specialize (Ub _ eq_refl).
  specialize (Uc _ eq_refl). specialize (Ud _ eq_refl).
  specialize (Ue _ eq_refl).
  unfold Regex.concat. cbn [fold_right]. split.
  - apply (allChars_weaken _ isDateChar _ (dateChar_digit false)) in Ha, Hc, He.
    apply (allChars_weaken _ isDateChar _ dateChar_separator) in Hb, Hd.
    rewrite !allChars_app, Ha, Hb, Hc, Hd, He. reflexivity.
  - rewrite !length_append. simpl String.length. lia.
Qed.

Lemma numeric_date_capture (line : string) (pattern : regex) (m : matchArray) :
  In pattern numericDatePatterns \/ pattern = transactionPattern ->
  jsMatch line pattern = Some m ->
  allChars isDateChar (group 1 m) = true /\
  6 <= String.length (group 1 m) <= 10.
Proof.
  intros Hp Hm. apply jsMatch_sound in Hm.
  destruct Hm as (segs & HF & _ & Hg). unfold group. rewrite Hg. clear Hg.
  destruct Hp as [[<-|[<-|[]]]| ->];
    cbn [nodes flatten flat_map repsOf one opt plus decimal app ignoreCase
         transactionPattern] in HF;
    invert_segments;
    cbn [nodes captures one opt plus decimal List.length firstn skipn tl nth
         Nat.sub transactionPattern];
    match goal with
    | Ha : segOk _ _ ?a, Hb : segOk _ _ ?b, Hc : segOk _ _ ?c,
      Hd : segOk _ _ ?d, He : segOk _ _ ?e
      |- context [Regex.concat [?a; ?b; ?c; ?d; ?e]] =>
        destruct (numeric_date_segments a b c d e _ _ _ _ Ha Hb Hc Hd He)
          as [Hall Hlen]
    end;
    (split; [exact Hall | lia]).
Qed.

Section Dates.

Context {H : Host}.

(** X8.  The date of [extractReceiptData] is decided by the first line,
    in order, that gives the host a capture it reads: the lines after it
    do not matter, earlier lines without a readable capture are passed
    over, and the date is missing exactly when no line has one.  Within a
    line the date is the reading of the capture of one of the three date
    patterns, and there is none when the host reads no capture. *)
Theorem date_is_first_readable (text : string) :
  (forall pre line post d,
     linesOf text = pre ++ line :: post ->
     (forall l, In l pre -> dateStep datePatterns l = None) ->
     dateStep datePatterns line = Some d ->
     date (extractReceiptData text) = Some d) /\
  (date (extractReceiptData text) = None <->
   forall line, In line (linesOf text) ->
                dateStep datePatterns line = None) /\
  (forall line d, dateStep datePatterns line = Some d -> readable line) /\
  (forall line, dateStep datePatterns line = None -> ~ readable line).
Proof.
  unfold extractReceiptData. cbn [date]. split; [|split; [|split]].
  - intros pre line post d -> Hpre Hd. rewrite dateLoop_app.
    apply dateLoop_none in Hpre. rewrite Hpre. cbn [dateLoop].
    now rewrite Hd.
  - apply dateLoop_none.
  - intros line d Hd. apply dateStep_sound in Hd.
    destruct Hd as (p & m & Hp & Hm & Hd). now exists p, m, d.
  - intros line Hn (p & m & d & Hp & Hm & Hd).
    rewrite (dateStep_complete _ _ Hn p m Hp Hm) in Hd. discriminate.
Qed.

End Dates.

(** X9.  What the two numeric date patterns and the row pattern hand to
    the date parser is made of digits, slashes and dashes only and has
    between 6 and 10 characters. *)
Theorem numeric_dates_are_short (line : string) (pattern : regex)
    (m : matchArray) :
  In pattern numericDatePatterns \/ pattern = transactionPattern ->
  jsMatch line pattern = Some m ->
  allChars isDateChar (group 1 m) = true /\
  6 <= String.length (group 1 m) <= 10.
Proof. apply numeric_date_capture. Qed.

(** ** Further facts: [suggestCategory] *)

Lemma suggestLoop_some (lowered : string)
    (entries : list (string * list string)) :
  (exists e, In e entries /\ entryMatches lowered e) ->
  In (suggestLoop entries lowered) (map fst entries).
Proof.
  induction entries as [|[c kws] entries IH]; intros (e & Hin & Hm).
  - destruct Hin.
  - cbn [suggestLoop map fst].
    destruct (existsb (fun keyword => includes lowered keyword) kws) eqn:Hk;
      [now left|].
    right. apply IH. destruct Hin as [<-|Hin].
    + apply keywords_test in Hm. cbn [snd] in Hm. congruence.
    + now exists e.
Qed.

Lemma lowerChar_idempotent (a : ascii) : lowerChar (lowerChar a) = lowerChar a.
Proof. destruct a as [[] [] [] [] [] [] [] []]; reflexivity. Qed.

Lemma toLowerCase_idempotent (s : string) :
  toLowerCase (toLowerCase s) = toLowerCase s.
Proof.
  induction s as [|a s IH]; [reflexivity|].
  cbn [toLowerCase]. now rewrite lowerChar_idempotent, IH.
Qed.

Lemma unclassified_iff (merchantName : string) :
  suggestCategory merchantName = "other-expense" <->
  forall e, In e categoryKeywords ->
            ~ entryMatches (toLowerCase merchantName) e.
Proof.
  split.
  - intros Hs e He Hm.
    assert (Hin : In (suggestCategory merchantName) (map fst categoryKeywords))
      by (apply suggestLoop_some; now exists e).
    rewrite Hs in Hin. simpl in Hin.
    repeat (destruct Hin as [Hin|Hin]; [discriminate Hin|]). exact Hin.
  - apply suggestLoop_none.
Qed.

(** X10.  [suggestCategory] answers "other-expense" exactly when no
    keyword of any category occurs in the lowered name.  Hence text added
    around a classified name never makes it unclassified, and the answer
    is the same for a name and for its lower-case form. *)
Theorem unclassified_iff_no_keyword (merchantName : string) :
  (suggestCategory merchantName = "other-expense" <->
   forall e, In e categoryKeywords ->
             ~ entryMatches (toLowerCase merchantName) e) /\
  (forall pre post,
     suggestCategory merchantName <> "other-expense" ->
     suggestCategory (pre ++ merchantName ++ post)%string <> "other-expense") /\
  suggestCategory (toLowerCase merchantName) = suggestCategory merchantName.
Proof.
  split; [apply unclassified_iff|]. split.
  - intros pre post Hc Hu. apply Hc. apply unclassified_iff.
    intros e He (k & Hk & Hocc).
    apply (proj1 (unclassified_iff _) Hu e He).
    exists k. split; [exact Hk|].
    apply occursIn_trans with (toLowerCase merchantName); [exact Hocc|].
    apply occursIn_lower. now exists pre, post.
  - unfold suggestCategory. now rewrite toLowerCase_idempotent.
Qed.

(** ** Further facts: history rows *)



Lemma rowStep_category {H : Host} (line : string) (t : suggestedTransaction) :
  In t (rowStep [] line) ->
  (type t = "income" /\ category t = "other-income") \/
  (type t = "expense" /\ category t = suggestCategory (description t)).
Proof.
  unfold rowStep.
  destruct (jsMatch line transactionPattern) as [m|]; [|intros []].
  destruct (parseDate (group 1 m)) as [d|]; [|intros []].
  destruct (gt (parseFloat (group 3 m)) zero); [|intros []].
  intros [<-|[]]. cbn [type category description].
  destruct (_ || _); auto.
Qed.

Lemma suggestion_validity (c : string) :
  In c suggestions ->
  (Transaction.validator "expense" c = true <-> In c acceptedSuggestions).
Proof.
  intros Hc. simpl in Hc.
  destruct Hc as [<-|[<-|[<-|[<-|[<-|[<-|[<-|[<-|[<-|[]]]]]]]]]];
    vm_compute;
    (split;
     [ first [ intros _; tauto | discriminate ]
     | first [ reflexivity
             | intros [E|[E|[E|[E|[E|[E|[]]]]]]]; discriminate E ] ]).
Qed.

Section Rows.

Context {H : Host}.


(** X12.  Against the category validator of the transaction model, every
    income row of [parseTransactionHistory] fails ("other-income" is not
    an income category), and an expense row passes exactly when its
    category is one of groceries, gas, shopping, healthcare,
    entertainment and transportation. *)
Theorem history_rows_against_taxonomy (text : string)
    (t : suggestedTransaction) :
  In t (parseTransactionHistory text) ->
  (type t = "income" ->
   Transaction.validator (type t) (category t) = false) /\
  (type t = "expense" ->
   (Transaction.validator (type t) (category t) = true <->
    In (category t) acceptedSuggestions)) /\
  (type t = "income" \/ type t = "expense").
Proof.
  intros Hin. rewrite parseTransactionHistory_flat_map in Hin.
  apply in_flat_map in Hin. destruct Hin as (line & _ & Ht).
  destruct (rowStep_category line t Ht) as [[Hty Hc]|[Hty Hc]];
    rewrite Hty, Hc.
  - split; [reflexivity|]. split; [discriminate | now left].
  - split; [discriminate|]. split; [|now right].
    intros _. apply suggestion_validity, suggestCategory_range.
Qed.

End Rows.

(** ** Further facts: the upload routes *)

Lemma totalAmount_nonneg {H : Host} (text : string) :
  exists q, totalAmount (extractReceiptData text) = Num q /\ (0 <= q)%Q.
Proof.
  destruct (totalLoop_nonneg (linesOf text)) as (q & Hd & Hq & _).
  destruct (totalAmount_cases text)
    as [(_ & E)|[(_ & _ & E)|(_ & _ & E & Hp)]]; rewrite E.
  - now exists q.
  - exists 0%Q. split; [reflexivity | apply Qle_refl].
  - destruct (sumPrices (items (extractReceiptData text))) as [|t];
      [contradiction|].
    exists t. split; [reflexivity | now apply Qlt_le_weak].
Qed.

Lemma receiptSuggestion_suggestedFrom {H : Host} (f : uploadedFile)
    (text fallback : string) :
  fallback <> EmptyString ->
  suggestedFrom text (receiptSuggestion f (extractReceiptData text) fallback).
Proof.
  intros Hfb. unfold suggestedFrom, receiptSuggestion.
  cbn [type amount description category txDate location paymentMethod].
  split; [reflexivity|]. split; [reflexivity|].
  split; [apply totalAmount_nonneg|]. split; [|split].
  - unfold strOr. destruct (merchantName (extractReceiptData text));
      [exact Hfb | discriminate].
  - intros Hne. unfold strOr.
    destruct (merchantName (extractReceiptData text)) eqn:Hm; [|reflexivity].
    exfalso. unfold extractReceiptData in Hm. cbn [merchantName] in Hm.
    destruct (linesOf text) as [|l ls] eqn:Hl; [congruence|].
    subst l.
    assert (Hin : In EmptyString (linesOf text)) by (rewrite Hl; now left).
    apply linesOf_spec in Hin. now destruct Hin.
  - repeat split.
Qed.

Section UploadFacts.

Context {H : Host}.

(** X13.  The two upload routes answer 400 exactly when the request has
    no file and 200 in every other case, with a [data] member exactly
    then; whatever the OCR engine, the download or the PDF reader do,
    neither route answers 500. *)
Theorem uploads_answer_400_or_200 (req : request) :
  (status (uploadImage req) = 400 <-> file req = None) /\
  (status (uploadPdf req) = 400 <-> file req = None) /\
  (file req <> None ->
   status (uploadImage req) = 200 /\ status (uploadPdf req) = 200 /\
   success (uploadImage req) = true /\ success (uploadPdf req) = true /\
   data (uploadImage req) <> None /\ data (uploadPdf req) <> None) /\
  (file req = None ->
   data (uploadImage req) = None /\ data (uploadPdf req) = None) /\
  status (uploadImage req) <> 500 /\ status (uploadPdf req) <> 500.
Proof.
  unfold uploadImage, uploadImageTry, uploadImageCatch,
    uploadPdf, uploadPdfTry, uploadPdfCatch.
  destruct (file req) as [f|]; cbn [file].
  - destruct (recognize (path f)) as [text|];
      (destruct (fetch (path f)) as [buffer|];
       [destruct (pdfParse buffer) as [pdf|];
        [destruct (isTransactionHistory pdf)|]|]);
      cbn [status success data];
      repeat split; try discriminate; try congruence.
  - cbn [status success data].
    repeat split; try discriminate; try congruence.
Qed.

(** X14.  When the OCR engine reads [text] from an uploaded image, the
    image route answers with that text, the extracted record and a
    suggestion that is an expense of the extracted total (a number, not
    negative), has a description that is never empty (the merchant name
    when the text has a line), the category [suggestCategory] gives the
    merchant name, and the extracted date or else now.  The PDF route
    answers the same way for a text that is not in history mode, and for
    a text in history mode with the rows of [parseTransactionHistory] and
    no suggestion. *)
Theorem read_documents_are_answered (req : request) (f : uploadedFile)
    (text : string) :
  file req = Some f ->
  (recognize (path f) = Some text ->
   exists d tx,
     uploadImage req =
       Response 200 true "Receipt processed successfully" (Some d) /\
     extractedText d = text /\
     dataExtracted d = Some (extractReceiptData text) /\
     transactions d = None /\
     suggestedTx d = Some tx /\ suggestedFrom text tx) /\
  (forall buffer,
     fetch (path f) = Some buffer -> pdfParse buffer = Some text ->
     exists d,
       data (uploadPdf req) = Some d /\ extractedText d = text /\
       if isTransactionHistory text
       then docType d = Some "transaction_history" /\
            transactions d = Some (parseTransactionHistory text) /\
            suggestedTx d = None /\ dataExtracted d = None
       else docType d = Some "single_receipt" /\
            transactions d = None /\
            dataExtracted d = Some (extractReceiptData text) /\
            exists tx, suggestedTx d = Some tx /\ suggestedFrom text tx).
Proof.
  intros Hfile. split.
  - intros Hocr. unfold uploadImage, uploadImageTry.
    rewrite Hfile, Hocr. cbv zeta. eexists. eexists.
    split; [reflexivity|]. cbn [extractedText dataExtracted transactions
                                suggestedTx].
    split; [reflexivity|]. split; [reflexivity|]. split; [reflexivity|].
    split; [reflexivity|].
    now apply receiptSuggestion_suggestedFrom.
  - intros buffer Hfetch Hparse. unfold uploadPdf, uploadPdfTry.
    rewrite Hfile, Hfetch, Hparse.
    destruct (isTransactionHistory text); cbv zeta; cbn [data];
      eexists; (split; [reflexivity|]);
      cbn [extractedText docType transactions suggestedTx dataExtracted].
    + repeat split.
    + split; [reflexivity|]. split; [reflexivity|]. split; [reflexivity|].
      split; [reflexivity|]. eexists. split; [reflexivity|].
      now apply receiptSuggestion_suggestedFrom.
Qed.

End UploadFacts.

(** ** Further facts: the transaction model and its routes *)

Import Transactions.

Lemma type_cases (type : string) :
  (type = "income" \/ type = "expense") \/
  (String.eqb type "income" = false /\ String.eqb type "expense" = false).
Proof.
  destruct (String.eqb type "income") eqn:Hi.
  - apply String.eqb_eq in Hi. auto.
  - destruct (String.eqb type "expense") eqn:He.
    + apply String.eqb_eq in He. auto.
    + auto.
Qed.


(** ** Further facts: pagination *)

Lemma ceiling_bounds (total limit : Z) :
  (0 < limit)%Z ->
  let pages := Qceiling (inject_Z total / inject_Z limit) in
  ((pages - 1) * limit < total <= pages * limit)%Z.
Proof.
  intros Hl. cbv zeta.
  set (x := (inject_Z total / inject_Z limit)%Q).
  assert (Hlq : (0 < inject_Z limit)%Q) by (unfold Qlt; simpl; lia).
  split.
  - destruct (Z_lt_le_dec ((Qceiling x - 1) * limit) total) as [Hlt|Hle];
      [exact Hlt|].
    exfalso. rewrite Zle_Qle, inject_Z_mult in Hle.
    apply Qle_shift_div_r in Hle; [|exact Hlq].
    apply (Qlt_not_le _ _ (Qceiling_lt x)). exact Hle.
  - destruct (Z_le_gt_dec total (Qceiling x * limit)) as [Hle|Hgt];
      [exact Hle|].
    exfalso. apply Z.gt_lt in Hgt. rewrite Zlt_Qlt, inject_Z_mult in Hgt.
    apply Qlt_shift_div_l in Hgt; [|exact Hlq].
    apply (Qlt_not_le _ _ Hgt). apply Qle_ceiling.
Qed.

(** X16.  For a page and a limit of at least 1 and a count that is not
    negative, the pagination of [GET /api/transactions] is consistent:
    the number of pages is the least one that holds all items, there is a
    next page exactly when items remain after the current page, a previous
    page exactly when items are skipped, and the current page has an item
    exactly when it is not beyond the last page. *)
Theorem pagination_is_consistent (page limit total : Z) :
  (1 <= page)%Z -> (1 <= limit)%Z -> (0 <= total)%Z ->
  let p := paginate page limit total in
  ((totalPages p - 1) * limit < total <= totalPages p * limit)%Z /\
  (totalPages p = 0%Z <-> total = 0%Z) /\
  (hasNext p = true <-> (page * limit < total)%Z) /\
  (hasPrev p = true <-> (0 < skipOf page limit)%Z) /\
  ((skipOf page limit < total)%Z <-> (page <= totalPages p)%Z).
Proof.
  intros Hp Hl Ht. cbv zeta. unfold paginate, skipOf.
  cbn [totalPages hasNext hasPrev].
  pose proof (ceiling_bounds total limit ltac:(lia)) as Hc.
  cbv zeta in Hc.
  set (pages := Qceiling (inject_Z total / inject_Z limit)) in *.
  rewrite !Z.ltb_lt.
  split; [exact Hc|]. split; [|split; [|split]]; split; intros; nia.
Qed.

(** ** Further facts: authentication *)

Import Auth.

Lemma split_whole (sep : ascii) (s : string) :
  allChars (fun c => negb (Ascii.eqb c sep)) s = true -> split sep s = [s].
Proof.
  induction s as [|a r IH]; [reflexivity|].
  cbn [allChars]. rewrite andb_true_iff, negb_true_iff. intros [Ha Hr].
  rewrite split_cons, Ha, (IH Hr). reflexivity.
Qed.

Lemma bearerToken_some (authorization : option string) (token : string) :
  bearerToken authorization = Some token ->
  exists header,
    authorization = Some header /\ String.prefix "Bearer" header = true /\
    nth_error (split " " header) 1 = Some token.
Proof.
  unfold bearerToken. destruct authorization as [header|]; [|discriminate].
  destruct ((0 <? String.length header) && String.prefix "Bearer" header)
    eqn:Hc; [|discriminate].
  apply andb_true_iff in Hc. destruct Hc as [_ Hpre].
  intros Hn. now exists header.
Qed.

Lemma bearerToken_round_trip (scheme token : string) :
  allChars notBlank scheme = true ->
  allChars notBlank token = true ->
  bearerToken (Some ("Bearer" ++ scheme ++ String " " token)%string)
  = Some token.
Proof.
  intros Hs Ht. unfold bearerToken.
  assert (Hpre : String.prefix "Bearer"
                   ("Bearer" ++ scheme ++ String " " token)%string = true)
    by (apply prefix_spec; now eexists).
  rewrite Hpre. cbn [String.append String.length Nat.ltb Nat.leb andb].
  change (String "B" (String "e" (String "a" (String "r" (String "e"
            (String "r" (scheme ++ String " " token)%string))))))
    with (("Bearer" ++ scheme) ++ String " " token)%string.
  rewrite split_app, (split_whole " " ("Bearer" ++ scheme)%string),
    (split_whole " " token); [reflexivity | exact Ht|].
  rewrite allChars_app. apply andb_true_iff. split; [reflexivity | exact Hs].
Qed.

Section Protect.

Context {A : AuthHost}.

(** X17.  [protect] lets a request through only with a header that starts
    with "Bearer" and whose second blank-separated piece is a non-empty
    token that verifies to the id of a user found active, and it passes
    on the id of that user; every refusal is a 401, never a 500.  For a
    token without blanks, "Bearer", any blank-free continuation of that
    word, one blank and the token are read back as the token, so such a
    header lets the user of a valid token through; a header without any
    blank is refused for lack of a token. *)
Theorem protect_admits_only_active_users (authorization : option string) :
  (forall id,
     protect authorization = Next id ->
     exists header token decoded,
       authorization = Some header /\
       String.prefix "Bearer" header = true /\
       nth_error (split " " header) 1 = Some token /\
       token <> EmptyString /\
       verify token = Some decoded /\
       findById decoded = Some (Some (id, true))) /\
  (forall status message,
     protect authorization = Reply status message -> status = 401) /\
  (forall scheme token decoded id,
     allChars notBlank scheme = true ->
     allChars notBlank token = true ->
     token <> EmptyString ->
     verify token = Some decoded ->
     findById decoded = Some (Some (id, true)) ->
     protect (Some ("Bearer" ++ scheme ++ String " " token)%string)
     = Next id) /\
  (forall header,
     allChars notBlank header = true ->
     protect (Some header) =
     Reply 401 "Not authorized to access this route (no token)").
Proof.
  split; [|split; [|split]].
  - intros id. unfold protect, protectTry.
    destruct (bearerToken authorization) as [token|] eqn:Hb; [|discriminate].
    destruct (0 <? String.length token) eqn:Hlen; [|discriminate].
    unfold checkToken.
    destruct (verify token) as [decoded|] eqn:Hv; [|discriminate].
    destruct (findById decoded) as [[[uid active]|]|] eqn:Hf;
      try discriminate.
    destruct active; [|discriminate].
    intros E. injection E as <-.
    apply bearerToken_some in Hb. destruct Hb as (header & -> & Hpre & Hn).
    exists header, token, decoded. repeat split; try assumption.
    intros ->. discriminate Hlen.
  - intros status message. unfold protect, protectTry.
    destruct (bearerToken authorization) as [token|].
    + destruct (0 <? String.length token).
      * unfold checkToken. destruct (verify token) as [decoded|].
        -- destruct (findById decoded) as [[[uid active]|]|];
             try destruct active; intros E; try discriminate E;
             now injection E as <- _.
        -- intros E. now injection E as <- _.
      * intros E. now injection E as <- _.
    + intros E. now injection E as <- _.
  - intros scheme token decoded id Hs Ht Hne Hv Hf.
    unfold protect, protectTry.
    rewrite (bearerToken_round_trip scheme token Hs Ht).
    destruct token as [|c r]; [congruence|].
    cbn [String.length Nat.ltb Nat.leb]. unfold checkToken.
    now rewrite Hv, Hf.
  - intros header Hh. unfold protect, protectTry, bearerToken.
    rewrite (split_whole " " header Hh). cbn [nth_error].
    now destruct (_ && _).
Qed.

End Protect.

(** ** The further statements at concrete documents *)

Lemma amounts_are_never_negative_witness :
  let doc := joinLines ["Subtotal 10.00"; "Total: $12.40"] in
  numLe (num 10.00) (totalAmount (extractReceiptData (H := SampleHost.host) doc)).
Proof.
  cbv zeta.
  destruct (amounts_are_never_negative (H := SampleHost.host)
              (joinLines ["Subtotal 10.00"; "Total: $12.40"]))
    as (_ & _ & Hdom).
  apply (Hdom (num 10.00)). vm_compute. now left.
Defined.

Lemma total_is_zero_iff_nothing_found_witness :
  positive (totalAmount (extractReceiptData (H := SampleHost.host)
                           "Burger 8.50")).
Proof.
  destruct (total_is_zero_iff_nothing_found (H := SampleHost.host)
              "Burger 8.50") as (_ & Hpos).
  apply Hpos. vm_compute. discriminate.
Defined.

Lemma items_are_well_formed_witness :
  ~ occursInCI "total" "Burger" /\ trim "Burger" = "Burger".
Proof.
  destruct (items_are_well_formed (H := SampleHost.host)
              (joinLines ["Joe's Diner"; "Burger 8.50"; "TOTAL 8.50"]))
    as (Hwf & _).
  destruct (Hwf (LineItem "Burger" (num 8.50) 1))
    as (_ & _ & _ & Htrim & Htotal & _).
  - vm_compute. now left.
  - split; [exact Htotal | exact Htrim].
Defined.


Lemma date_is_first_readable_witness :
  date (extractReceiptData (H := SampleHost.host)
          (joinLines ["Joe's Diner"; "Date: 01/05/2024"; "Due 02/06/2024"]))
  = Some (1, 5, 2024).
Proof.
  destruct (date_is_first_readable (H := SampleHost.host)
              (joinLines ["Joe's Diner"; "Date: 01/05/2024"; "Due 02/06/2024"]))
    as (Hfirst & _).
  apply (Hfirst ["Joe's Diner"] "Date: 01/05/2024" ["Due 02/06/2024"]).
  - vm_compute. reflexivity.
  - intros l [<-|[]]. vm_compute. reflexivity.
  - vm_compute. reflexivity.
Defined.

Lemma numeric_dates_are_short_witness :
  allChars isDateChar "01/05/2024" = true /\
  6 <= String.length "01/05/2024" <= 10.
Proof.
  apply (numeric_dates_are_short "01/05/2024 Coffee -4.50" transactionPattern
           (MatchArray 0 "01/05/2024 Coffee -4.50"
              ["01/05/2024"; "Coffee"; "4.50"])).
  - now right.
  - vm_compute. reflexivity.
Defined.

Lemma unclassified_iff_no_keyword_witness :
  suggestCategory "The Shell Gas Station #12" <> "other-expense".
Proof.
  destruct (unclassified_iff_no_keyword "Shell Gas") as (_ & Hwrap & _).
  apply (Hwrap "The " " Station #12"). vm_compute. discriminate.
Defined.


Lemma history_rows_against_taxonomy_witness :
  Transaction.validator "income" "other-income" = false.
Proof.
  assert (Hm : jsMatch "01/06/2024 Salary 2000.00" transactionPattern =
               Some (MatchArray 0 "01/06/2024 Salary 2000.00"
                       ["01/06/2024"; "Salary"; "2000.00"]))
    by (vm_compute; reflexivity).
  assert (Hd : parseDate (Host := SampleHost.host) "01/06/2024" =
               Some (1, 6, 2024)) by (vm_compute; reflexivity).
  assert (Hl : linesOf "01/06/2024 Salary 2000.00" =
               ["01/06/2024 Salary 2000.00"]) by (vm_compute; reflexivity).
  assert (Hrow : In (SuggestedTransaction (H := SampleHost.host) "income"
                       (num 2000.00) "Salary" "other-income" (1, 6, 2024) None
                       (Some "bank-transfer") None)
                   (parseTransactionHistory (H := SampleHost.host)
                      "01/06/2024 Salary 2000.00")).
  { unfold parseTransactionHistory. rewrite Hl. cbn [fold_left].
    unfold rowStep. rewrite Hm. cbv zeta. cbn [group nth Nat.sub groups].
    rewrite Hd. left. reflexivity. }
  exact (proj1 (history_rows_against_taxonomy (H := SampleHost.host) _ _ Hrow)
           eq_refl).
Defined.

Lemma uploads_answer_400_or_200_witness :
  status (uploadImage (H := SampleHost.host)
            (Request (Some (UploadedFile "receipts/r1.png" "r1")))) = 200.
Proof.
  destruct (uploads_answer_400_or_200 (H := SampleHost.host)
              (Request (Some (UploadedFile "receipts/r1.png" "r1"))))
    as (_ & _ & Hfile & _).
  refine (proj1 (Hfile _)). discriminate.
Defined.

Lemma read_documents_are_answered_witness :
  let f := UploadedFile "receipts/r1.png" "r1" in
  let text := joinLines ["Joe's Diner"; "Burger 8.50"; "Fries 3.00";
                         "TAX 0.90"; "TOTAL 12.40"] in
  exists d tx,
    uploadImage (H := SampleReader.host) (Request (Some f)) =
      Response 200 true "Receipt processed successfully" (Some d) /\
    extractedText d = text /\
    dataExtracted d = Some (extractReceiptData text) /\
    transactions d = None /\
    suggestedTx d = Some tx /\ suggestedFrom text tx.
Proof.
  cbv zeta.
  refine (proj1 (read_documents_are_answered (H := SampleReader.host)
                   (Request (Some (UploadedFile "receipts/r1.png" "r1")))
                   (UploadedFile "receipts/r1.png" "r1") _ eq_refl) eq_refl).
Defined.


Lemma pagination_is_consistent_witness :
  Transactions.hasNext (paginate 2 10 25) = true /\
  Transactions.totalPages (paginate 2 10 25) = 3%Z.
Proof.
  destruct (pagination_is_consistent 2 10 25) as (_ & _ & Hnext & _);
    try lia.
  split; [apply Hnext; lia | reflexivity].
Defined.

Lemma protect_admits_only_active_users_witness :
  protect (A := SampleReader.auth) (Some "Bearer abc.def.ghi") =
  @Next SampleReader.auth 7.
Proof.
  destruct (protect_admits_only_active_users (A := SampleReader.auth) None)
    as (_ & _ & Hpass & _).
  apply (Hpass "" "abc.def.ghi" (7 : @UserId SampleReader.auth)
           (7 : @UserId SampleReader.auth)); try reflexivity.
  discriminate.
Defined.

(** ** Raw lines *)

Lemma joinLines_cons (l r : string) (rest : list string) :
  joinLines (l :: r :: rest) = (l ++ String LF (joinLines (r :: rest)))%string.
Proof. reflexivity. Qed.

(** A document is its raw lines joined by line feeds. *)
Lemma joinLines_split (text : string) : joinLines (split LF text) = text.
Proof.
  induction text as [|a r IH]; [reflexivity|].
  rewrite split_cons. pose proof (split_not_nil LF r) as Hne.
  destruct (split LF r) as [|h t] eqn:Hs; [congruence|].
  destruct (Ascii.eqb a LF) eqn:Ha.
  - apply Ascii.eqb_eq in Ha. subst a. rewrite joinLines_cons, IH.
    reflexivity.
  - destruct t as [|h' t'].
    + cbn [joinLines] in *. now rewrite IH.
    + rewrite joinLines_cons in *. cbn [String.append]. now rewrite IH.
Qed.

(** Lines without line feed, joined and split again, come back. *)
Lemma split_joinLines (raws : list string) :
  raws <> [] -> (forall raw, In raw raws -> noLineFeed raw) ->
  split LF (joinLines raws) = raws.
Proof.
  induction raws as [|l raws IH]; [congruence|]. intros _ Hall.
  destruct raws as [|r rest].
  - cbn [joinLines]. apply split_whole, Hall. now left.
  - rewrite joinLines_cons, split_app, IH.
    + rewrite split_whole; [reflexivity|]. apply Hall. now left.
    + discriminate.
    + intros raw Hin. apply Hall. now right.
Qed.

Lemma linesOf_joinLines (raws : list string) :
  (forall raw, In raw raws -> noLineFeed raw) ->
  linesOf (joinLines raws) =
  filter (fun line => 0 <? String.length line)
    (map (fun line => trim line) raws).
Proof.
  intros Hall. destruct raws as [|l raws]; [reflexivity|].
  unfold linesOf. rewrite split_joinLines; [reflexivity | discriminate|].
  exact Hall.
Qed.

Lemma isSpace_lowerChar (a : ascii) : isSpace (lowerChar a) = isSpace a.
Proof. destruct a as [[] [] [] [] [] [] [] []]; reflexivity. Qed.

Lemma toLowerCase_trimStart (s : string) :
  toLowerCase (trimStart s) = trimStart (toLowerCase s).
Proof.
  induction s as [|a r IH]; [reflexivity|].
  cbn [toLowerCase]. rewrite !trimStart_cons, isSpace_lowerChar.
  destruct (isSpace a); [exact IH | reflexivity].
Qed.

Lemma toLowerCase_trimEnd (s : string) :
  toLowerCase (trimEnd s) = trimEnd (toLowerCase s).
Proof.
  induction s as [|a r IH]; [reflexivity|].
  cbn [toLowerCase]. rewrite !trimEnd_cons, isSpace_lowerChar, <- IH.
  destruct (trimEnd r) as [|c t]; [|reflexivity].
  cbn [toLowerCase]. destruct (isSpace a); reflexivity.
Qed.

Lemma toLowerCase_trim (s : string) :
  toLowerCase (trim s) = trim (toLowerCase s).
Proof. unfold trim. now rewrite toLowerCase_trimEnd, toLowerCase_trimStart. Qed.

(** A word without white space that occurs in [s] occurs in what
    [trimStart] leaves. *)
Lemma trimStart_keeps_word (k s : string) :
  wordText k -> occursIn k s -> occursIn k (trimStart s).
Proof.
  intros [Hne Hink]. induction s as [|a r IH]; [easy|].
  rewrite trimStart_cons. destruct (isSpace a) eqn:Ha; [|easy].
  intros (pre & post & E). apply IH.
  destruct pre as [|b pre].
  - exfalso. destruct k as [|c k]; [congruence|].
    cbn [String.append] in E. injection E as <- _.
    cbn [allChars] in Hink. unfold isInk in Hink. rewrite Ha in Hink.
    discriminate.
  - cbn [String.append] in E. injection E as _ ->. now exists pre, post.
Qed.

Lemma trimEnd_app_keep (pre x : string) :
  trimEnd x <> EmptyString ->
  trimEnd (pre ++ x)%string = (pre ++ trimEnd x)%string.
Proof.
  intros Hx. induction pre as [|a pre IH]; [reflexivity|].
  cbn [String.append]. rewrite trimEnd_cons, IH.
  destruct (pre ++ trimEnd x)%string as [|c t] eqn:E; [|reflexivity].
  destruct pre; [|discriminate]. cbn [String.append] in E. congruence.
Qed.

Lemma trimEnd_word (k post : string) :
  wordText k -> exists post', trimEnd (k ++ post)%string = (k ++ post')%string.
Proof.
  intros [Hne Hink]. induction k as [|a k IH]; [congruence|].
  cbn [allChars] in Hink. apply andb_true_iff in Hink.
  destruct Hink as [Ha Hk]. unfold isInk in Ha. apply negb_true_iff in Ha.
  cbn [String.append]. rewrite trimEnd_head by exact Ha.
  destruct k as [|b k'].
  - exists (trimEnd post). reflexivity.
  - destruct IH as [post' E]; [discriminate | exact Hk|].
    exists post'. now rewrite E.
Qed.

Lemma trimEnd_keeps_word (k s : string) :
  wordText k -> occursIn k s -> occursIn k (trimEnd s).
Proof.
  intros Hk (pre & post & ->).
  destruct (trimEnd_word k post Hk) as [post' E].
  rewrite trimEnd_app_keep.
  - rewrite E. now exists pre, post'.
  - rewrite E. destruct Hk as [Hne _]. destruct k; [congruence | discriminate].
Qed.

Lemma trim_keeps_word (k s : string) :
  wordText k -> (occursInCI k (trim s) <-> occursInCI k s).
Proof.
  intros Hk. unfold occursInCI. rewrite toLowerCase_trim. split.
  - intros Hocc. apply occursIn_trans with (trim (toLowerCase s));
      [exact Hocc | apply trim_occurs].
  - intros Hocc. unfold trim.
    now apply trimEnd_keeps_word, trimStart_keeps_word.
Qed.

Lemma occursIn_not_nil (k s : string) :
  k <> EmptyString -> occursIn k s -> s <> EmptyString.
Proof.
  intros Hk (pre & post & ->) E.
  destruct pre; [|discriminate]. destruct k; [congruence | discriminate].
Qed.

Lemma headerLine_trim (raw : string) : headerLine (trim raw) <-> headerLine raw.
Proof.
  unfold headerLine.
  rewrite !trim_keeps_word; [reflexivity|..]; split; try discriminate;
    reflexivity.
Qed.

Lemma headerLine_test (line : string) :
  includes (toLowerCase line) "date" &&
  includes (toLowerCase line) "amount" &&
  (includes (toLowerCase line) "description" ||
   includes (toLowerCase line) "transaction") = true <-> headerLine line.
Proof.
  unfold headerLine, occursInCI.
  rewrite !andb_true_iff, orb_true_iff, !includes_spec. tauto.
Qed.

(** In a document given by its raw lines, history mode holds exactly when
    one raw line has the words of a header. *)
Lemma history_mode_raw (raws : list string) :
  (forall raw, In raw raws -> noLineFeed raw) ->
  (isTransactionHistory (joinLines raws) = true <->
   exists raw, In raw raws /\ headerLine raw).
Proof.
  intros Hall. unfold isTransactionHistory. cbv zeta.
  rewrite linesOf_joinLines by exact Hall. rewrite existsb_exists. split.
  - intros (line & Hin & Ht). apply headerLine_test in Ht.
    apply filter_In in Hin. destruct Hin as [Hin _].
    apply in_map_iff in Hin. destruct Hin as (raw & <- & Hraw).
    exists raw. split; [exact Hraw | now apply headerLine_trim].
  - intros (raw & Hraw & Hh). exists (trim raw). split.
    + apply filter_In. split; [now apply in_map|].
      apply headerLine_trim in Hh. destruct Hh as [(pre & post & E) _].
      destruct (trim raw) as [|a r]; [|reflexivity].
      cbn [toLowerCase] in E. destruct pre; discriminate.
    + apply headerLine_test. now apply headerLine_trim.
Qed.

(** C4.  The history test holds exactly when one trimmed, non-empty line
    contains, whatever the case, "date" and "amount" and one of
    "description" and "transaction".  The lines are the pieces of the
    text between line feeds: every text is its raw lines joined by line
    feeds, and for raw lines joined by line feeds the test holds exactly
    when one of them has the three words, so words spread over several
    lines do not count. *)
Theorem history_mode_rule (text : string) :
  (isTransactionHistory text = true <->
   exists line,
     In line (linesOf text) /\
     occursInCI "date" line /\ occursInCI "amount" line /\
     (occursInCI "description" line \/ occursInCI "transaction" line)) /\
  (forall line,
     In line (linesOf text) <->
     line <> EmptyString /\
     exists raw, In raw (split LF text) /\ line = trim raw) /\
  (joinLines (split LF text) = text /\
   forall raw, In raw (split LF text) -> noLineFeed raw) /\
  (forall raws,
     (forall raw, In raw raws -> noLineFeed raw) ->
     split LF (joinLines (text :: raws)) =
       split LF text ++ raws /\
     (isTransactionHistory (joinLines raws) = true <->
      exists raw, In raw raws /\ headerLine raw)) /\
  isTransactionHistory
    (joinLines ["Date Amount Description"; "01/02/2024 Coffee 4.50"]) = true /\
  isTransactionHistory (joinLines ["Receipt"; "Total $10.00"]) = false /\
  isTransactionHistory (joinLines ["Date"; "Amount"; "Description"]) = false /\
  isTransactionHistory
    (joinLines ["Statement"; "  transaction DATE  Amount "; "x"]) = true.
Proof.
  split; [|split; [intros line; apply linesOf_spec|split; [|split]]].
  - unfold isTransactionHistory, occursInCI. rewrite existsb_exists.
    split.
    + intros (line & Hin & Ht). exists line. split; [exact Hin|].
      rewrite !andb_true_iff, orb_true_iff, !includes_spec in Ht. tauto.
    + intros (line & Hin & Hd & Ha & Hk). exists line. split; [exact Hin|].
      rewrite !andb_true_iff, orb_true_iff, !includes_spec. tauto.
  - split; [apply joinLines_split|].
    intros raw Hin. now apply split_no_separator with (s := text).
  - intros raws Hall. split; [|now apply history_mode_raw].
    destruct raws as [|r rest]; [cbn [joinLines]; now rewrite app_nil_r|].
    rewrite joinLines_cons, split_app, split_joinLines;
      [reflexivity | discriminate | exact Hall].
  - repeat split; vm_compute; reflexivity.
Qed.

Lemma history_mode_rule_witness :
  isTransactionHistory
    (joinLines ["Statement"; "Date Amount Description";
                "01/02/2024 Coffee 4.50"]) = true.
Proof.
  destruct (history_mode_rule "") as (_ & _ & _ & Hraw & _).
  destruct (Hraw ["Statement"; "Date Amount Description";
                  "01/02/2024 Coffee 4.50"]) as (_ & _ & Hif).
  - intros raw [<-|[<-|[<-|[]]]]; vm_compute; reflexivity.
  - apply Hif. exists "Date Amount Description".
    split; [simpl; tauto|].
    unfold headerLine, occursInCI.
    split; [|split; [|left]]; apply includes_spec; vm_compute; reflexivity.
Defined.

(** ** When the matcher succeeds *)

(** A greedy quantifier takes a run of its class that the next character
    or its upper bound ends, when the rest of the pattern accepts what
    follows. *)
Lemma iter_greedy_take (i : bool) (r : rep)
    (k : string -> option (list string)) (rest : string)
    (segs : list string) (seg : string) :
  greedy r = true ->
  allChars (classMatch i (cls r)) seg = true ->
  k rest = Some segs ->
  forall n,
    (forall h, hi r = Some h -> n + String.length seg <= h) ->
    lo r <= n + String.length seg ->
    headFails i (cls r) rest \/ hi r = Some (n + String.length seg) ->
    iter i r k n (seg ++ rest)%string = Some (seg, segs).
Proof.
  intros Hg Hall Hk. induction seg as [|a s IH]; intros n Hhi Hlo Hend.
  - cbn [String.append String.length] in *. rewrite Nat.add_0_r in *.
    rewrite iter_eq. cbv zeta. rewrite Hg.
    assert (Hmore :
      match rest with
      | String a s' =>
          if below n (hi r) && classMatch i (cls r) a
          then match iter i r k (S n) s' with
               | Some (seg, segs0) => Some (String a seg, segs0)
               | None => None
               end
          else None
      | EmptyString => None
      end = None).
    { destruct rest as [|a s']; [reflexivity|].
      destruct Hend as [Hf|Hh].
      - cbn [headFails] in Hf. now rewrite Hf, andb_false_r.
      - unfold below. rewrite Hh, Nat.ltb_irrefl. reflexivity. }
    rewrite Hmore. apply Nat.leb_le in Hlo. now rewrite Hlo, Hk.
  - cbn [String.append String.length allChars] in *.
    apply andb_true_iff in Hall. destruct Hall as [Ha Hs].
    rewrite iter_eq. cbv zeta. rewrite Hg.
    assert (Hb : below n (hi r) = true).
    { unfold below. destruct (hi r) as [h|] eqn:Hh; [|reflexivity].
      apply Nat.ltb_lt. specialize (Hhi h eq_refl). lia. }
    rewrite Hb, Ha. cbn [andb].
    rewrite (IH Hs (S n)).
    + reflexivity.
    + intros h Hh. specialize (Hhi h Hh). lia.
    + lia.
    + destruct Hend as [Hf|Hh]; [now left|].
      right. rewrite Hh. f_equal. lia.
Qed.

(** A lazy quantifier without upper bound takes the shortest run after
    which the rest of the pattern accepts what follows. *)
Lemma iter_lazy_take (i : bool) (r : rep)
    (k : string -> option (list string)) (rest : string)
    (segs : list string) (seg : string) :
  greedy r = false -> hi r = None ->
  allChars (classMatch i (cls r)) seg = true ->
  k rest = Some segs ->
  forall n,
    lo r <= n + String.length seg ->
    (forall s1 s2, seg = (s1 ++ s2)%string -> s2 <> EmptyString ->
                   k (s2 ++ rest)%string = None) ->
    iter i r k n (seg ++ rest)%string = Some (seg, segs).
Proof.
  intros Hg Hhi Hall Hk. induction seg as [|a s IH]; intros n Hlo Hearly.
  - cbn [String.append String.length] in *. rewrite Nat.add_0_r in *.
    rewrite iter_eq. cbv zeta. rewrite Hg.
    apply Nat.leb_le in Hlo. now rewrite Hlo, Hk.
  - cbn [String.append String.length allChars] in *.
    apply andb_true_iff in Hall. destruct Hall as [Ha Hs].
    rewrite iter_eq. cbv zeta. rewrite Hg.
    assert (Hstop :
      (if lo r <=? n
       then match k (String a (s ++ rest)) with
            | Some segs0 => Some (EmptyString, segs0)
            | None => None
            end
       else None) = None).
    { destruct (lo r <=? n); [|reflexivity].
      assert (Hn : k (String a s ++ rest)%string = None)
        by (apply (Hearly EmptyString (String a s)); [reflexivity | easy]).
      cbn [String.append] in Hn. now rewrite Hn. }
    rewrite Hstop. unfold below at 1. rewrite Hhi, Ha. cbn [andb].
    rewrite (IH Hs (S n)).
    + reflexivity.
    + lia.
    + intros s1 s2 E Hne. apply (Hearly (String a s1) s2); [|exact Hne].
      cbn [String.append]. now rewrite E.
Qed.

(** A pattern that starts with a mandatory class fails on a text whose
    first character is not of that class. *)
Lemma run_head_fails (i : bool) (r : rep) (rs : list rep) (s : string) :
  1 <= lo r -> headFails i (cls r) s -> run i (r :: rs) s = None.
Proof.
  intros Hlo Hf. cbn [run]. rewrite iter_eq. cbv zeta.
  assert (Hstop : (lo r <=? 0) = false) by (apply Nat.leb_gt; lia).
  rewrite Hstop.
  destruct s as [|a s'].
  - now destruct (greedy r).
  - cbn [headFails] in Hf. rewrite Hf, andb_false_r. now destruct (greedy r).
Qed.

Lemma run_cons (i : bool) (r : rep) (rs : list rep) (s : string) :
  run i (r :: rs) s =
  match iter i r (run i rs) 0 s with
  | Some (seg, segs) => Some (seg :: segs)
  | None => None
  end.
Proof. reflexivity. Qed.

Lemma search_eq (re : regex) (s : string) (idx : nat) :
  search re s idx =
  match run (ignoreCase re) (flatten (nodes re)) s with
  | Some segs => Some (MatchArray idx (Regex.concat segs)
                         (captures (nodes re) segs))
  | None =>
      match s with
      | EmptyString => None
      | String _ s' => search re s' (S idx)
      end
  end.
Proof. destruct s; reflexivity. Qed.

Lemma digit_classes (a : ascii) :
  isDigit a = true ->
  classMatch false [Digit] a = true /\ classMatch false [Space] a = false /\
  classMatch false [Chr "$"] a = false.
Proof.
  destruct a as [[] [] [] [] [] [] [] []]; vm_compute; intros H;
    try discriminate H; auto.
Qed.

Lemma ink_classes (a : ascii) :
  isInk a = true ->
  classMatch false [Dot] a = true /\ classMatch false [Space] a = false.
Proof.
  destruct a as [[] [] [] [] [] [] [] []]; vm_compute; intros H;
    try discriminate H; auto.
Qed.

Lemma pad_classes (a : ascii) :
  isPad a = true -> classMatch false [Space] a = true /\ isSpace a = true.
Proof.
  destruct a as [[] [] [] [] [] [] [] []]; vm_compute; intros H;
    try discriminate H; auto.
Qed.

(** The three classes of [decimal] on digits followed by a fraction. *)
Lemma decimal_run (whole frac : string) :
  digitsText whole -> fractionText frac ->
  exists dot d2,
    frac = (dot ++ d2)%string /\
    run false [rPlus [Digit]; rOpt [Chr "."]; rStar [Digit]]
      (whole ++ frac)%string = Some [whole; dot; d2].
Proof.
  intros [Hne Hw] Hfrac.
  assert (Hwc : allChars (classMatch false [Digit]) whole = true).
  { apply (allChars_weaken isDigit); [|exact Hw].
    intros a Ha. now apply digit_classes in Ha. }
  assert (Hlen : 1 <= String.length whole)
    by (destruct whole; [congruence | simpl; lia]).
  destruct Hfrac as [-> | (d & -> & Hd)].
  - exists EmptyString, EmptyString. split; [reflexivity|].
    rewrite run_cons.
    rewrite (iter_greedy_take false (rPlus [Digit]) _ EmptyString
               [EmptyString; EmptyString] whole);
      [ reflexivity | reflexivity | exact Hwc | reflexivity
      | intros h Hh; discriminate Hh | exact Hlen | now left ].
  - exists (String "." EmptyString), d. split; [reflexivity|].
    assert (Hdc : allChars (classMatch false [Digit]) d = true).
    { apply (allChars_weaken isDigit); [|exact Hd].
      intros a Ha. now apply digit_classes in Ha. }
    assert (Hlast : run false [rStar [Digit]] d = Some [d]).
    { rewrite run_cons. rewrite <- (append_nil_r d) at 1.
      rewrite (iter_greedy_take false (rStar [Digit]) _ EmptyString [] d);
        [ reflexivity | reflexivity | exact Hdc | reflexivity
        | intros h Hh; discriminate Hh | cbn [lo rStar]; lia | now left ]. }
    assert (Hdot : run false [rOpt [Chr "."]; rStar [Digit]] (String "." d) =
                   Some [String "." EmptyString; d]).
    { rewrite run_cons.
      change (String "." d) with (String "." EmptyString ++ d)%string.
      rewrite (iter_greedy_take false (rOpt [Chr "."]) _ d [d]
                 (String "." EmptyString));
        [ reflexivity | reflexivity | reflexivity | exact Hlast
        | intros h Hh; injection Hh as <-; simpl; lia
        | cbn [lo rOpt]; lia | right; reflexivity ]. }
    rewrite run_cons.
    rewrite (iter_greedy_take false (rPlus [Digit]) _ (String "." d)
               [String "." EmptyString; d] whole);
      [ reflexivity | reflexivity | exact Hwc | exact Hdot
      | intros h Hh; discriminate Hh | exact Hlen | left; reflexivity ].
Qed.

(** The item pattern on a word, a gap, an optional dollar sign and a
    decimal number: the word and the number are captured. *)
Lemma itemPattern_complete (desc gap cur whole frac : string) :
  wordText desc -> gapText gap ->
  cur = EmptyString \/ cur = "$" ->
  digitsText whole -> fractionText frac ->
  exists m,
    jsMatch (desc ++ gap ++ cur ++ whole ++ frac)%string itemPattern = Some m /\
    group 1 m = desc /\ group 2 m = (whole ++ frac)%string.
Proof.
  intros [Hdne Hdesc] [Hgne Hgap] Hcur Hwhole Hfrac.
  destruct (decimal_run whole frac Hwhole Hfrac) as (dot & d2 & Efrac & Hdec).
  destruct Hwhole as [Hwne Hw].
  destruct whole as [|w0 wr]; [congruence|].
  cbn [allChars] in Hw. apply andb_true_iff in Hw. destruct Hw as [Hw0 Hwr].
  destruct (digit_classes w0 Hw0) as (_ & Hw0s & Hw0d).
  (* the optional dollar sign *)
  assert (Hsign :
    run false [rOpt [Chr "$"]; rPlus [Digit]; rOpt [Chr "."]; rStar [Digit]]
      (cur ++ String w0 wr ++ frac)%string = Some [cur; String w0 wr; dot; d2]).
  { rewrite run_cons.
    rewrite (iter_greedy_take false (rOpt [Chr "$"]) _
               (String w0 wr ++ frac)%string [String w0 wr; dot; d2] cur);
      [ reflexivity | reflexivity
      | destruct Hcur as [-> | ->]; reflexivity
      | exact Hdec
      | intros h Hh; injection Hh as <-;
        destruct Hcur as [-> | ->]; simpl; lia
      | cbn [lo rOpt]; lia
      | destruct Hcur as [-> | ->]; [left; exact Hw0d | right; reflexivity] ]. }
  (* the gap *)
  assert (Hgapc : allChars (classMatch false [Space]) gap = true).
  { apply (allChars_weaken isPad); [|exact Hgap].
    intros a Ha. now apply pad_classes in Ha. }
  assert (Hrest :
    run false [rPlus [Space]; rOpt [Chr "$"]; rPlus [Digit]; rOpt [Chr "."];
               rStar [Digit]]
      (gap ++ cur ++ String w0 wr ++ frac)%string =
    Some [gap; cur; String w0 wr; dot; d2]).
  { rewrite run_cons.
    rewrite (iter_greedy_take false (rPlus [Space]) _
               (cur ++ String w0 wr ++ frac)%string
               [cur; String w0 wr; dot; d2] gap);
      [ reflexivity | reflexivity | exact Hgapc | exact Hsign
      | intros h Hh; discriminate Hh
      | cbn [lo rPlus]; destruct gap; [congruence | simpl; lia]
      | left; destruct Hcur as [-> | ->]; [exact Hw0s | reflexivity] ]. }
  (* the description *)
  assert (Hdc : allChars (classMatch false [Dot]) desc = true).
  { apply (allChars_weaken isInk); [|exact Hdesc].
    intros a Ha. now apply ink_classes in Ha. }
  assert (Hearly : forall s1 s2,
            desc = (s1 ++ s2)%string -> s2 <> EmptyString ->
            run false [rPlus [Space]; rOpt [Chr "$"]; rPlus [Digit];
                       rOpt [Chr "."]; rStar [Digit]]
              (s2 ++ gap ++ cur ++ String w0 wr ++ frac)%string = None).
  { intros s1 s2 E Hne. apply run_head_fails; [cbn; lia|].
    destruct s2 as [|a s2']; [congruence|]. cbn [String.append headFails].
    rewrite E, allChars_app in Hdesc. apply andb_true_iff in Hdesc.
    destruct Hdesc as [_ Hs2]. cbn [allChars] in Hs2.
    apply andb_true_iff in Hs2. destruct Hs2 as [Ha _].
    now apply ink_classes in Ha. }
  assert (Hrun :
    run false (flatten (nodes itemPattern))
      (desc ++ gap ++ cur ++ String w0 wr ++ frac)%string =
    Some [desc; gap; cur; String w0 wr; dot; d2]).
  { cbn [nodes itemPattern flatten flat_map repsOf plus opt decimal app].
    rewrite run_cons.
    rewrite (iter_lazy_take false (rPlusLazy [Dot]) _
               (gap ++ cur ++ String w0 wr ++ frac)%string
               [gap; cur; String w0 wr; dot; d2] desc);
      [ reflexivity | reflexivity | reflexivity | exact Hdc | exact Hrest
      | cbn [lo rPlusLazy]; destruct desc; [congruence | simpl; lia]
      | exact Hearly ]. }
  unfold jsMatch. rewrite search_eq.
  change (ignoreCase itemPattern) with false. rewrite Hrun.
  eexists. split; [reflexivity|].
  unfold group. cbn [groups nodes itemPattern captures plus opt decimal
                     List.length firstn skipn tl nth Nat.sub].
  unfold Regex.concat. cbn [fold_right]. rewrite !append_nil_r.
  split; [reflexivity|]. now rewrite Efrac.
Qed.

(** ** Padded lines *)

Lemma trimStart_pad (pad s : string) :
  allChars isSpace pad = true -> trimStart (pad ++ s)%string = trimStart s.
Proof.
  induction pad as [|a pad IH]; [reflexivity|].
  cbn [allChars String.append]. rewrite andb_true_iff. intros [Ha Hp].
  rewrite trimStart_cons, Ha. now apply IH.
Qed.

Lemma trimEnd_pad (s pad : string) :
  allChars isSpace pad = true -> trimEnd (s ++ pad)%string = trimEnd s.
Proof.
  intros Hp. induction s as [|a s IH].
  - cbn [String.append]. now apply trimEnd_blank.
  - cbn [String.append]. now rewrite !trimEnd_cons, IH.
Qed.

Lemma trimEnd_last_ink (r : string) (b : ascii) :
  isSpace b = false ->
  trimEnd (r ++ String b EmptyString)%string = (r ++ String b EmptyString)%string.
Proof.
  intros Hb. induction r as [|a r IH].
  - cbn [String.append]. rewrite trimEnd_cons. cbn [trimEnd]. now rewrite Hb.
  - cbn [String.append]. rewrite trimEnd_cons, IH.
    destruct (r ++ String b EmptyString)%string eqn:E; [|reflexivity].
    destruct r; discriminate.
Qed.

Lemma last_char (s : string) :
  s <> EmptyString -> exists r b, s = (r ++ String b EmptyString)%string.
Proof.
  induction s as [|a s IH]; [congruence|]. intros _.
  destruct s as [|c s'].
  - now exists EmptyString, a.
  - destruct IH as (r & b & E); [discriminate|].
    exists (String a r), b. cbn [String.append]. now rewrite <- E.
Qed.

Lemma allChars_last (p : ascii -> bool) (r : string) (b : ascii) :
  allChars p (r ++ String b EmptyString)%string = true -> p b = true.
Proof.
  rewrite allChars_app. cbn [allChars]. rewrite andb_true_r, andb_true_iff.
  tauto.
Qed.

(** White space around a text that starts and ends with ink is what
    [trim] removes. *)
Lemma trim_padded (pad1 core pad2 : string) :
  allChars isSpace pad1 = true -> allChars isSpace pad2 = true ->
  tight core -> trim (pad1 ++ core ++ pad2)%string = core.
Proof.
  intros H1 H2 [(a & r & Ea & Ha) (q & b & Eb & Hb)].
  unfold trim. rewrite trimStart_pad by exact H1.
  assert (Hs : trimStart (core ++ pad2)%string = (core ++ pad2)%string).
  { rewrite Ea. cbn [String.append]. now rewrite trimStart_cons, Ha. }
  rewrite Hs, trimEnd_pad by exact H2.
  rewrite Eb. now apply trimEnd_last_ink.
Qed.

Lemma pad_facts (a : ascii) :
  isPad a = true -> isSpace a = true /\ negb (Ascii.eqb a LF) = true.
Proof.
  destruct a as [[] [] [] [] [] [] [] []]; vm_compute; intros H;
    try discriminate H; split; reflexivity.
Qed.

Lemma ink_facts (a : ascii) :
  isInk a = true -> isSpace a = false /\ negb (Ascii.eqb a LF) = true.
Proof.
  destruct a as [[] [] [] [] [] [] [] []]; vm_compute; intros H;
    try discriminate H; split; reflexivity.
Qed.

Lemma decimal_facts (a : ascii) :
  isDecimalChar a = true ->
  isSpace a = false /\ negb (Ascii.eqb a LF) = true.
Proof.
  destruct a as [[] [] [] [] [] [] [] []]; vm_compute; intros H;
    try discriminate H; split; reflexivity.
Qed.

Lemma wordText_tight (w : string) : wordText w -> tight w.
Proof.
  intros [Hne Hw]. split.
  - destruct w as [|a r]; [congruence|]. exists a, r. split; [reflexivity|].
    cbn [allChars] in Hw. apply andb_true_iff in Hw. destruct Hw as [Ha _].
    now apply ink_facts in Ha.
  - destruct (last_char w Hne) as (r & b & E). exists r, b.
    split; [exact E|]. rewrite E in Hw. apply allChars_last in Hw.
    now apply ink_facts in Hw.
Qed.

Lemma trim_word (w : string) : wordText w -> trim w = w.
Proof.
  intros Hw.
  pose proof (trim_padded EmptyString w EmptyString eq_refl eq_refl
                (wordText_tight w Hw)) as E.
  cbn [String.append] in E. now rewrite append_nil_r in E.
Qed.

Lemma fractionText_chars (frac : string) :
  fractionText frac -> allChars isDecimalChar frac = true.
Proof.
  intros [-> | (d & -> & Hd)]; [reflexivity|].
  cbn [allChars]. apply (allChars_weaken isDigit); [|exact Hd].
  intros a Ha. unfold isDecimalChar. now rewrite Ha.
Qed.

(** A word, a gap, an optional dollar sign and a decimal number make a
    line that [trim] leaves alone and that has no line feed. *)
Lemma priced_line_shape (desc gap cur whole frac : string) :
  wordText desc -> gapText gap -> cur = EmptyString \/ cur = "$" ->
  digitsText whole -> fractionText frac ->
  let line := (desc ++ gap ++ cur ++ whole ++ frac)%string in
  tight line /\ noLineFeed line.
Proof.
  intros Hdesc [Hgne Hgap] Hcur [Hwne Hw] Hfrac. cbv zeta.
  assert (Hnum : allChars isDecimalChar (whole ++ frac)%string = true).
  { rewrite allChars_app, (fractionText_chars frac Hfrac), andb_true_r.
    apply (allChars_weaken isDigit); [|exact Hw].
    intros a Ha. unfold isDecimalChar. now rewrite Ha. }
  split; [split|].
  - destruct Hdesc as [Hdne Hd]. destruct desc as [|a r]; [congruence|].
    exists a. eexists. split; [reflexivity|].
    cbn [allChars] in Hd. apply andb_true_iff in Hd. destruct Hd as [Ha _].
    now apply ink_facts in Ha.
  - destruct (last_char (whole ++ frac)%string) as (r & b & E).
    { destruct whole; [congruence | discriminate]. }
    exists (desc ++ gap ++ cur ++ r)%string, b. split.
    + rewrite !append_assoc, <- E. reflexivity.
    + rewrite E in Hnum. apply allChars_last in Hnum.
      now apply decimal_facts in Hnum.
  - unfold noLineFeed. destruct Hdesc as [_ Hd].
    assert (N1 : allChars (fun c => negb (Ascii.eqb c LF)) desc = true).
    { apply (allChars_weaken isInk); [|exact Hd].
      intros a Ha. now apply ink_facts in Ha. }
    assert (N2 : allChars (fun c => negb (Ascii.eqb c LF)) gap = true).
    { apply (allChars_weaken isPad); [|exact Hgap].
      intros a Ha. now apply pad_facts in Ha. }
    assert (N3 : allChars (fun c => negb (Ascii.eqb c LF))
                   (whole ++ frac)%string = true).
    { apply (allChars_weaken isDecimalChar); [|exact Hnum].
      intros a Ha. now apply decimal_facts in Ha. }
    rewrite !allChars_app, N1, N2. rewrite allChars_app in N3.
    rewrite N3. destruct Hcur as [-> | ->]; reflexivity.
Qed.

Lemma padded_line (pad1 line pad2 : string) :
  allChars isPad pad1 = true -> allChars isPad pad2 = true ->
  tight line -> noLineFeed line ->
  linesOf (pad1 ++ line ++ pad2)%string = [line].
Proof.
  intros H1 H2 Ht Hn.
  assert (Hs : forall pad, allChars isPad pad = true ->
                 allChars isSpace pad = true /\ noLineFeed pad).
  { intros pad Hp. split.
    - apply (allChars_weaken isPad); [|exact Hp].
      intros a Ha. now apply pad_facts in Ha.
    - apply (allChars_weaken isPad); [|exact Hp].
      intros a Ha. now apply pad_facts in Ha. }
  destruct (Hs pad1 H1) as [S1 N1]. destruct (Hs pad2 H2) as [S2 N2].
  unfold linesOf. rewrite split_whole.
  - cbn [map]. rewrite trim_padded by assumption. cbn [filter].
    destruct Ht as [(a & r & -> & _) _]. reflexivity.
  - unfold noLineFeed in *. now rewrite !allChars_app, N1, Hn, N2.
Qed.

Section PricedLines.

Context {H : Host}.

(** C7.  The items are, in line order, what each line contributes by
    itself.  A line without "total" and "tax" contributes the item built
    from its match of the item pattern exactly when it matches, the
    trimmed description is longer than 2 and the price is positive, with
    quantity 1; every other line contributes nothing.  The name of an
    item never starts or ends with white space.  A document of one line
    made of a word, a gap, an optional dollar sign and a decimal number,
    with white space around it, gives the item named by the word and
    priced by the number exactly when the word is longer than 2 and the
    number is positive.  The diner receipt gives the items Burger 8.50
    and Fries 3.00, tax 0.90 and total 12.40. *)
Theorem items_follow_lines (text : string) :
  items (extractReceiptData text) = flat_map lineItems (linesOf text) /\
  (forall line it,
     labelFree line -> (In it (lineItems line) <-> emits line it)) /\
  (forall line it, In it (lineItems line) -> quantity it = 1) /\
  (forall line, List.length (lineItems line) <= 1) /\
  (forall line, ~ labelFree line -> lineItems line = []) /\
  (forall line, jsMatch line itemPattern = None -> lineItems line = []) /\
  (forall line it,
     In it (lineItems line) ->
     tight (name it) /\ 2 < String.length (name it) /\
     positive (price it) /\ occursIn (name it) line) /\
  (forall pad1 desc gap cur whole frac pad2,
     allChars isPad pad1 = true -> allChars isPad pad2 = true ->
     wordText desc -> gapText gap -> cur = EmptyString \/ cur = "$" ->
     digitsText whole -> fractionText frac ->
     let line := (desc ++ gap ++ cur ++ whole ++ frac)%string in
     labelFree line ->
     items (extractReceiptData (pad1 ++ line ++ pad2)%string) =
       if (2 <? String.length desc) &&
          gt (parseFloat (whole ++ frac)%string) zero
       then [LineItem desc (parseFloat (whole ++ frac)%string) 1]
       else []) /\
  items (extractReceiptData "  ab 5") = [] /\
  items (extractReceiptData "  abc 5  ") = [LineItem "abc" (num 5) 1] /\
  items (extractReceiptData "Coffee $3.50") =
    [LineItem "Coffee" (num 3.50) 1] /\
  items (extractReceiptData "Ice Cream  $4.00 x") =
    [LineItem "Ice Cream" (num 4.00) 1] /\
  items (extractReceiptData "Water 0.00") = [] /\
  lineItems (String "a" (String "b" (String CR " cd 5"))) = [] /\
  lineItems (String "a" (String "b" (String CR " cde 5"))) =
    [LineItem "cde" (num 5) 1] /\
  let receipt := extractReceiptData (joinLines
    ["Joe's Diner"; "Burger 8.50"; "Fries 3.00"; "TAX 0.90"; "TOTAL 12.40"]) in
  merchantName receipt = "Joe's Diner" /\
  items receipt =
    [LineItem "Burger" (num 8.50) 1; LineItem "Fries" (num 3.00) 1] /\
  taxAmount receipt = num 0.90 /\
  totalAmount receipt = num 12.40.
Proof.
  split; [unfold extractReceiptData; cbn [items]; apply itemLoop_flat_map|].
  split; [exact lineItems_emits|].
  split; [intros line it Hin; now apply lineItems_positive in Hin|].
  split; [apply lineItems_at_most_one|].
  split; [exact lineItems_labelled|].
  split.
  { intros line Hm. unfold lineItems, itemStep. now rewrite Hm. }
  split.
  { intros line it Hin.
    destruct (lineItems_positive line it Hin) as [Hpos _].
    destruct (lineItems_name line it Hin) as (_ & Hlen & Htrim & Hocc).
    split; [|auto]. rewrite <- Htrim. apply trim_tight.
    rewrite Htrim. intros E. rewrite E in Hlen. simpl in Hlen. lia. }
  split.
  { intros pad1 desc gap cur whole frac pad2 H1 H2 Hdesc Hgap Hcur Hwhole
      Hfrac line Hfree.
    destruct (priced_line_shape desc gap cur whole frac Hdesc Hgap Hcur
                Hwhole Hfrac) as [Ht Hn].
    fold line in Ht, Hn.
    unfold extractReceiptData. cbn [items].
    rewrite (padded_line pad1 line pad2 H1 H2 Ht Hn).
    unfold itemLoop. cbn [fold_left]. unfold itemStep.
    destruct (itemPattern_complete desc gap cur whole frac Hdesc Hgap Hcur
                Hwhole Hfrac) as (m & Hm & Hg1 & Hg2).
    fold line in Hm. rewrite Hm.
    apply labelFree_test in Hfree. rewrite Hfree.
    cbv zeta. rewrite Hg1, Hg2, (trim_word desc Hdesc).
    destruct (_ && _); reflexivity. }
  cbv zeta. unfold extractReceiptData.
  cbn [merchantName items taxAmount totalAmount].
  repeat split; vm_compute; reflexivity.
Qed.

End PricedLines.

Lemma items_follow_lines_witness :
  In (LineItem "Burger" (num 8.50) 1) (lineItems "Burger 8.50") /\
  lineItems "TOTAL 12.40" = [] /\
  items (extractReceiptData (H := SampleHost.host) "  Bagel   $6.25 ") =
    [LineItem "Bagel" (num 6.25) 1] /\
  tight "Burger".
Proof.
  destruct (items_follow_lines (H := SampleHost.host) "Burger 8.50")
    as (_ & Hemits & _ & _ & Hlabelled & _ & Hname & Hpriced & _).
  assert (Hburger : In (LineItem "Burger" (num 8.50) 1)
                      (lineItems "Burger 8.50")).
  { apply Hemits.
    - apply labelFree_test. vm_compute. reflexivity.
    - exists (MatchArray 0 "Burger 8.50" ["Burger"; "8.50"]).
      repeat split; try (vm_compute; reflexivity). simpl. lia. }
  split; [exact Hburger|]. split; [|split].
  - apply Hlabelled. intros Hfree. apply labelFree_test in Hfree.
    vm_compute in Hfree. discriminate Hfree.
  - apply (Hpriced "  " "Bagel" "   " "$" "6" ".25" " ").
    + reflexivity.
    + reflexivity.
    + split; [discriminate | reflexivity].
    + split; [discriminate | reflexivity].
    + now right.
    + split; [discriminate | reflexivity].
    + right. exists "25". split; reflexivity.
    + apply labelFree_test. vm_compute. reflexivity.
  - exact (proj1 (Hname _ _ Hburger)).
Defined.

(** ** The order of the lines, the categories of a type *)

Section LineOrder.

Context {H : Host}.

(** X7.  The total the label patterns detect and the items, up to their
    order, do not depend on the order of the lines; so two documents whose
    lines are permutations of each other have the same [totalAmount]
    whenever a positive total is detected or no item is extracted (the sum
    of the items, which is added up in line order, is left aside).
    [taxAmount] does depend on the order, as the two orders of "TAX 0.90"
    and "VAT 1.50" show. *)
Theorem total_ignores_line_order (t1 t2 : string) :
  (Permutation (linesOf t1) (linesOf t2) ->
   totalLoop (linesOf t1) = totalLoop (linesOf t2) /\
   Permutation (items (extractReceiptData t1))
     (items (extractReceiptData t2)) /\
   (positive (totalLoop (linesOf t1)) \/ items (extractReceiptData t1) = [] ->
    totalAmount (extractReceiptData t1) =
    totalAmount (extractReceiptData t2))) /\
  taxAmount (extractReceiptData (joinLines ["TAX 0.90"; "VAT 1.50"])) <>
  taxAmount (extractReceiptData (joinLines ["VAT 1.50"; "TAX 0.90"])).
Proof.
  split.
  - intros Hp.
    assert (Hits : Permutation (itemLoop (linesOf t1)) (itemLoop (linesOf t2)))
      by (rewrite !itemLoop_flat_map; now apply Permutation_flat_map).
    split; [now apply totalLoop_perm|]. split; [exact Hits|].
    unfold extractReceiptData. cbn [totalAmount items].
    rewrite (totalLoop_perm _ _ Hp). intros [Hpos| Hnil].
    + rewrite !totalFallback_keeps; auto.
    + rewrite Hnil in *. apply Permutation_nil in Hits. rewrite Hits.
      rewrite !totalFallback_keeps; auto.
  - unfold extractReceiptData. cbn [taxAmount]. vm_compute. discriminate.
Qed.

End LineOrder.

(** X15.  For the types "income" and "expense" the category validator of
    the model accepts exactly the categories [getCategoriesByType] lists,
    and "others" is the only category valid for both.  The categories
    route answers 200 exactly for these two types, with a non-empty list
    that is exactly what the validator accepts for the type, and 400 for
    every other type, which it never looks up. *)
Theorem categories_match_validator :
  (forall type value,
     type = "income" \/ type = "expense" ->
     (Transaction.validator type value = true <->
      In value (Transaction.getCategoriesByType type))) /\
  (forall value,
     Transaction.validator "income" value = true /\
     Transaction.validator "expense" value = true <-> value = "others") /\
  (forall type,
     (catStatus (getCategories type) = 200 <->
      type = "income" \/ type = "expense") /\
     (catStatus (getCategories type) = 400 <->
      ~ (type = "income" \/ type = "expense")) /\
     (~ (type = "income" \/ type = "expense") ->
      getCategories type =
        CategoriesResponse 400 false
          (Some "Type must be either income or expense") None)) /\
  (forall type categories,
     catData (getCategories type) = Some categories ->
     (type = "income" \/ type = "expense") /\
     categories = Transaction.getCategoriesByType type /\
     categories <> [] /\
     forall value,
       In value categories <-> Transaction.validator type value = true).
Proof.
  assert (Hval : forall type value,
            Transaction.validator type value = true <->
            In value (Transaction.getCategoriesByType type)).
  { intros type value. unfold Transaction.validator. cbv zeta.
    rewrite existsb_exists. split.
    - intros (x & Hin & E). apply String.eqb_eq in E. now subst x.
    - intros Hin. exists value. split; [exact Hin | apply String.eqb_refl]. }
  split; [intros type value _; apply Hval|]. split; [|split].
  - intros value. rewrite !Hval. split.
    + intros [Hi He]. simpl in Hi.
      repeat (destruct Hi as [<-|Hi];
              [simpl in He;
               repeat (destruct He as [He|He]; [discriminate He|]);
               try destruct He; try reflexivity|]).
      destruct Hi.
    + intros ->. split; simpl; tauto.
  - intros type. unfold getCategories.
    destruct (type_cases type) as [[-> | ->]|[Hi He]].
    + cbn. split; [|split]; try split; try tauto; try discriminate.
    + cbn. split; [|split]; try split; try tauto; try discriminate.
    + cbn [existsb]. rewrite Hi, He. cbn [orb negb catStatus].
      split; [|split]; try split; try discriminate; try reflexivity.
      * intros [-> | ->]; discriminate.
      * intros _ [-> | ->]; discriminate.
  - intros type categories. unfold getCategories.
    destruct (type_cases type) as [[-> | ->]|[Hi He]].
    + cbn. intros E. injection E as <-. split; [now left|].
      split; [reflexivity|]. split; [discriminate|].
      intros value. symmetry. apply (Hval "income").
    + cbn. intros E. injection E as <-. split; [now right|].
      split; [reflexivity|]. split; [discriminate|].
      intros value. symmetry. apply (Hval "expense").
    + cbn [existsb]. rewrite Hi, He. cbn [orb negb catData]. discriminate.
Qed.

Lemma total_ignores_line_order_witness :
  totalAmount (extractReceiptData (H := SampleHost.host)
                 (joinLines ["Total 12.40"; "Subtotal 10.00"])) =
  totalAmount (extractReceiptData (H := SampleHost.host)
                 (joinLines ["Subtotal 10.00"; "Total 12.40"])).
Proof.
  destruct (total_ignores_line_order (H := SampleHost.host)
              (joinLines ["Total 12.40"; "Subtotal 10.00"])
              (joinLines ["Subtotal 10.00"; "Total 12.40"])) as (Hperm & _).
  assert (H1 : linesOf (joinLines ["Total 12.40"; "Subtotal 10.00"]) =
               ["Total 12.40"; "Subtotal 10.00"]) by (vm_compute; reflexivity).
  assert (H2 : linesOf (joinLines ["Subtotal 10.00"; "Total 12.40"]) =
               ["Subtotal 10.00"; "Total 12.40"]) by (vm_compute; reflexivity).
  assert (Hp : Permutation
                 (linesOf (joinLines ["Total 12.40"; "Subtotal 10.00"]))
                 (linesOf (joinLines ["Subtotal 10.00"; "Total 12.40"])))
    by (rewrite H1, H2; apply perm_swap).
  refine (proj2 (proj2 (Hperm Hp)) _).
  left. rewrite H1. vm_compute. reflexivity.
Defined.

Lemma categories_match_validator_witness :
  Transaction.validator "expense" "groceries" = true.
Proof.
  destruct categories_match_validator as (Hval & _ & _ & Hroute).
  destruct (Hroute "expense" (Transaction.getCategoriesByType "expense"))
    as (Hty & _ & _ & Hin); [reflexivity|].
  apply (Hval "expense" "groceries" Hty). vm_compute. tauto.
Defined.
